(** * TermTrainer: answer matcher, progress store and session engine

    A shallow embedding of [termtrainer.py]: the answer matcher
    ([normalize_answer], [check_answer]), the [ProgressTracker] class with
    its persisted JSON file, and the three interactive practice loops of
    [TermTrainer].

    Conventions of the embedding.
    - A Python [str] is the list of its Unicode code points ([pystr]).
    - A Python [int] is a [Z] (Python integers do not wrap around).
    - The tally dictionaries are finite maps; the wrong-answer dictionary
      keeps its insertion order, because [get_wrong_exercises] iterates it
      and sorts the result with a stable sort.
    - [datetime.now().isoformat()] is an input of every operation that reads
      the clock.
    - Writing the progress file always succeeds. *)

From Stdlib Require Import ZArith NArith List Bool Lia Ascii String.
From Stdlib Require Import Sorting.Permutation Sorting.Sorted.
From stdpp Require Import base list gmap.

Import ListNotations.
Local Open Scope Z_scope.

(** ** Python strings *)

Definition pystr : Type := list N.

(** A literal of the source that only has ASCII characters. *)
Definition py (s : String.string) : pystr :=
  List.map N_of_ascii (list_ascii_of_string s).

Definition str_eqb (a b : pystr) : bool := bool_decide (a = b).

Module PyStr.

(** [str.isspace] on one code point: the code points CPython's
    [_PyUnicode_IsWhitespace] accepts. *)
Definition isspace (c : N) : bool :=
  (((9 <=? c) && (c <=? 13)) || ((28 <=? c) && (c <=? 32))
   || (c =? 133) || (c =? 160) || (c =? 5760)
   || ((8192 <=? c) && (c <=? 8202))
   || (c =? 8232) || (c =? 8233) || (c =? 8239) || (c =? 8287)
   || (c =? 12288))%N.

Definition SPACE : N := 32%N.

(** [s.lstrip()] *)
Fixpoint lstrip (s : pystr) : pystr :=
  match s with
  | [] => []
  | c :: s' => if isspace c then lstrip s' else s
  end.

(** [s.rstrip()] *)
Fixpoint rstrip (s : pystr) : pystr :=
  match s with
  | [] => []
  | c :: s' =>
      match rstrip s' with
      | [] => if isspace c then [] else [c]
      | t => c :: t
      end
  end.

(** [s.strip()] *)
Definition strip (s : pystr) : pystr := rstrip (lstrip s).

(** [s.split()] without a separator: the string is scanned from the left,
    [cur] is the word being read, last character first. *)
Fixpoint split_from (cur : pystr) (s : pystr) : list pystr :=
  match s with
  | [] => match cur with [] => [] | _ => [rev cur] end
  | c :: s' =>
      if isspace c
      then match cur with
           | [] => split_from [] s'
           | _ => rev cur :: split_from [] s'
           end
      else split_from (c :: cur) s'
  end.

Definition split (s : pystr) : list pystr := split_from [] s.

(** [sep.join(words)] *)
Fixpoint join (sep : pystr) (words : list pystr) : pystr :=
  match words with
  | [] => []
  | [w] => w
  | w :: rest => w ++ sep ++ join sep rest
  end.

End PyStr.

(** ** Answer matcher *)

(** [TermTrainer.normalize_answer] *)
Definition normalize_answer (answer : pystr) : pystr :=
  PyStr.join [PyStr.SPACE] (PyStr.split (PyStr.strip answer)).

(** The [for ans in correct_answers] loop of [check_answer]. *)
Fixpoint check_answer_loop (normalized_user : pystr) (correct_answers : list pystr)
  : bool :=
  match correct_answers with
  | [] => false
  | ans :: rest =>
      if str_eqb (normalize_answer ans) normalized_user then true
      else check_answer_loop normalized_user rest
  end.

(** [TermTrainer.check_answer] *)
Definition check_answer (user_answer : pystr) (correct_answers : list pystr) : bool :=
  let normalized_user := normalize_answer user_answer in
  check_answer_loop normalized_user correct_answers.

(** *** The normalization as the specification words it

    Trim leading and trailing whitespace, then replace every run of
    whitespace that is left by one space. *)
Module MatcherSpec.

(** Leading whitespace is dropped, and trailing whitespace is the leading
    whitespace of the reversed string. *)
Definition trim (s : pystr) : pystr :=
  rev (PyStr.lstrip (rev (PyStr.lstrip s))).

(** One space is written where a run of whitespace ends. *)
Fixpoint collapse_runs (s : pystr) : pystr :=
  match s with
  | [] => []
  | c :: s' =>
      if PyStr.isspace c
      then match s' with
           | [] => [PyStr.SPACE]
           | c' :: _ =>
               if PyStr.isspace c' then collapse_runs s'
               else PyStr.SPACE :: collapse_runs s'
           end
      else c :: collapse_runs s'
  end.

Definition normalize (s : pystr) : pystr := collapse_runs (trim s).

(** The matcher as the specification words it: the normalized submission
    is compared with each accepted answer as it is stored. *)
Definition matches_raw (submission : pystr) (accepted : list pystr) : bool :=
  existsb (fun a => str_eqb a (normalize submission)) accepted.

End MatcherSpec.

(** ** Python containers *)

(** [x in l] for a list of strings. *)
Definition str_in (x : pystr) (l : list pystr) : bool := existsb (str_eqb x) l.

(** A [dict] with string keys, as the list of its items in insertion order.
    The tally dictionaries of the progress data are only read by key and are
    finite maps instead. *)
Module PyDict.
Section Dict.
Context {V : Type}.

Definition t : Type := list (pystr * V).

(** [d.get(k)] *)
Fixpoint get (d : t) (k : pystr) : option V :=
  match d with
  | [] => None
  | (k', v) :: d' => if str_eqb k' k then Some v else get d' k
  end.

(** [k in d] *)
Definition contains (d : t) (k : pystr) : bool :=
  match get d k with Some _ => true | None => false end.

(** [d[k] = v]: an existing key keeps its place, a new one goes last. *)
Fixpoint set (d : t) (k : pystr) (v : V) : t :=
  match d with
  | [] => [(k, v)]
  | (k', v') :: d' =>
      if str_eqb k' k then (k', v) :: d' else (k', v') :: set d' k v
  end.

(** [del d[k]], which every caller guards with [k in d]. *)
Fixpoint del (d : t) (k : pystr) : t :=
  match d with
  | [] => []
  | (k', v') :: d' => if str_eqb k' k then d' else (k', v') :: del d' k
  end.

(** [d.items()] and [d.keys()] *)
Definition items (d : t) : list (pystr * V) := d.
Definition keys (d : t) : list pystr := List.map fst d.
End Dict.
Arguments t : clear implicits.
End PyDict.

(** [l.sort(key=key, reverse=True)]: the sort is stable, items with equal
    keys keep their order. *)
Section SortReverse.
Context {A : Type} (key : A -> Z).

Fixpoint insert_reverse (x : A) (l : list A) : list A :=
  match l with
  | [] => [x]
  | y :: l' => if key x <? key y then y :: insert_reverse x l' else x :: l
  end.

Fixpoint sort_reverse (l : list A) : list A :=
  match l with
  | [] => []
  | x :: l' => insert_reverse x (sort_reverse l')
  end.
End SortReverse.

(** ** Progress data *)

(** [{"total": .., "correct": ..}] *)
Module Tally.
Record t : Type := mk { total : Z; correct : Z }.
End Tally.

(** An entry of [data["wrong_answers"]]. *)
Module WrongEntry.
Record t : Type := mk {
  category : pystr;
  command : pystr;
  question : pystr;
  answers : list pystr;
  wrong_count : Z;
  last_wrong : pystr;
  last_user_answer : pystr
}.
End WrongEntry.

(** An item of [get_wrong_exercises]: [{"key": key, **entry}]. *)
Module WrongExercise.
Record t : Type := mk { key : pystr; entry : WrongEntry.t }.
Definition wrong_count (x : t) : Z := WrongEntry.wrong_count (entry x).
End WrongExercise.

(** [self.data].  The key ["wrong_answers"] is missing in the data written by
    older versions, the other keys are always there. *)
Record ProgressData : Type := mkData {
  total_exercises : Z;
  correct_answers : Z;
  streak : Z;
  best_streak : Z;
  categories_completed : gmap pystr Tally.t;
  commands_practiced : gmap pystr Tally.t;
  last_practice : option pystr;
  achievements : list pystr;
  wrong_answers : option (PyDict.t WrongEntry.t)
}.

(** What [progress.json] holds. *)
Inductive FileContent : Type :=
| Missing
| Unreadable
| Stored (d : ProgressData).

Record ProgressTracker : Type := mkTracker {
  data : ProgressData;
  progress_file : FileContent
}.

Definition with_data (self : ProgressTracker) (d : ProgressData) : ProgressTracker :=
  {| data := d; progress_file := progress_file self |}.

Definition with_wrong_answers (d : ProgressData) (w : option (PyDict.t WrongEntry.t))
  : ProgressData :=
  {| total_exercises := total_exercises d;
     correct_answers := correct_answers d;
     streak := streak d;
     best_streak := best_streak d;
     categories_completed := categories_completed d;
     commands_practiced := commands_practiced d;
     last_practice := last_practice d;
     achievements := achievements d;
     wrong_answers := w |}.

Definition with_achievements (d : ProgressData) (a : list pystr) : ProgressData :=
  {| total_exercises := total_exercises d;
     correct_answers := correct_answers d;
     streak := streak d;
     best_streak := best_streak d;
     categories_completed := categories_completed d;
     commands_practiced := commands_practiced d;
     last_practice := last_practice d;
     achievements := a;
     wrong_answers := wrong_answers d |}.

(** The registry as the operations see it after [_ensure_wrong_answers]. *)
Definition registry (d : ProgressData) : PyDict.t WrongEntry.t :=
  match wrong_answers d with
  | Some w => w
  | None => []
  end.

(** ** ProgressTracker *)

Definition default_data : ProgressData :=
  {| total_exercises := 0;
     correct_answers := 0;
     streak := 0;
     best_streak := 0;
     categories_completed := ∅;
     commands_practiced := ∅;
     last_practice := None;
     achievements := [];
     wrong_answers := Some [] |}.

(** [ProgressTracker._load_progress] *)
Definition _load_progress (file : FileContent) : ProgressData :=
  match file with
  | Stored d => d
  | Missing | Unreadable => default_data
  end.

(** [ProgressTracker.__init__] *)
Definition ProgressTracker_init (file : FileContent) : ProgressTracker :=
  {| data := _load_progress file; progress_file := file |}.

(** [ProgressTracker.save] *)
Definition save (self : ProgressTracker) : ProgressTracker :=
  {| data := data self; progress_file := Stored (data self) |}.

(** [ProgressTracker._ensure_wrong_answers] *)
Definition _ensure_wrong_answers (self : ProgressTracker) : ProgressTracker :=
  match wrong_answers (data self) with
  | None => with_data self (with_wrong_answers (data self) (Some []))
  | Some _ => self
  end.

(** The f-string [f"{category}::{command}::{question}"]. *)
Definition wrong_key (category command question : pystr) : pystr :=
  category ++ py "::" ++ command ++ py "::" ++ question.

(** [ProgressTracker.record_wrong_answer]; [now] is
    [datetime.now().isoformat()]. *)
Definition record_wrong_answer (self : ProgressTracker)
    (category command question : pystr) (answers : list pystr)
    (user_answer : pystr) (now : pystr) : ProgressTracker :=
  let self := _ensure_wrong_answers self in
  let key := wrong_key category command question in
  let wrong := registry (data self) in
  match PyDict.get wrong key with
  | Some entry =>
      let entry :=
        {| WrongEntry.category := WrongEntry.category entry;
           WrongEntry.command := WrongEntry.command entry;
           WrongEntry.question := WrongEntry.question entry;
           WrongEntry.answers := WrongEntry.answers entry;
           WrongEntry.wrong_count := WrongEntry.wrong_count entry + 1;
           WrongEntry.last_wrong := now;
           WrongEntry.last_user_answer := user_answer |} in
      with_data self (with_wrong_answers (data self) (Some (PyDict.set wrong key entry)))
  | None =>
      let entry :=
        {| WrongEntry.category := category;
           WrongEntry.command := command;
           WrongEntry.question := question;
           WrongEntry.answers := answers;
           WrongEntry.wrong_count := 1;
           WrongEntry.last_wrong := now;
           WrongEntry.last_user_answer := user_answer |} in
      with_data self (with_wrong_answers (data self) (Some (PyDict.set wrong key entry)))
  end.

(** [ProgressTracker.remove_wrong_answer] *)
Definition remove_wrong_answer (self : ProgressTracker) (key : pystr) : ProgressTracker :=
  let self := _ensure_wrong_answers self in
  let wrong := registry (data self) in
  if PyDict.contains wrong key
  then with_data self (with_wrong_answers (data self) (Some (PyDict.del wrong key)))
  else self.

(** [ProgressTracker.get_wrong_exercises]: the list it returns, and the
    tracker, which [_ensure_wrong_answers] may have changed. *)
Definition get_wrong_exercises (self : ProgressTracker)
  : list WrongExercise.t * ProgressTracker :=
  let self := _ensure_wrong_answers self in
  let wrong := registry (data self) in
  let exercises :=
    List.map (fun '(key, entry) => WrongExercise.mk key entry) (PyDict.items wrong) in
  (sort_reverse WrongExercise.wrong_count exercises, self).

(** The achievement names, by code point. *)
Module Ach.
(** 初学者 *)
Definition beginner : pystr := [21021; 23398; 32773]%N.
(** 练习达人 *)
Definition practice_expert : pystr := [32451; 20064; 36798; 20154]%N.
(** 终端大师 *)
Definition terminal_master : pystr := [32456; 31471; 22823; 24072]%N.
(** 连胜新秀 *)
Definition streak_rookie : pystr := [36830; 32988; 26032; 31168]%N.
(** 连胜达人 *)
Definition streak_expert : pystr := [36830; 32988; 36798; 20154]%N.
(** 连胜大师 *)
Definition streak_master : pystr := [36830; 32988; 22823; 24072]%N.
End Ach.

(** One [if counter >= threshold and name not in data["achievements"]:
    achievements.append(name)] of [_check_achievements]. *)
Definition candidate (counter threshold : Z) (name : pystr) (have : list pystr)
  : list pystr :=
  if (threshold <=? counter) && negb (str_in name have) then [name] else [].

(** The local list [achievements] of [_check_achievements] when its six
    [if]s are done. *)
Definition candidates (d : ProgressData) : list pystr :=
  candidate (total_exercises d) 10 Ach.beginner (achievements d)
  ++ candidate (total_exercises d) 50 Ach.practice_expert (achievements d)
  ++ candidate (total_exercises d) 100 Ach.terminal_master (achievements d)
  ++ candidate (streak d) 5 Ach.streak_rookie (achievements d)
  ++ candidate (streak d) 10 Ach.streak_expert (achievements d)
  ++ candidate (best_streak d) 20 Ach.streak_master (achievements d).

(** The [for ach in achievements] loop: the list [data["achievements"]] it
    leaves and the names it prints. *)
Fixpoint grant (todo : list pystr) (have : list pystr) : list pystr * list pystr :=
  match todo with
  | [] => (have, [])
  | ach :: rest =>
      if str_in ach have then grant rest have
      else let '(have', printed) := grant rest (have ++ [ach]) in
           (have', ach :: printed)
  end.

(** [ProgressTracker._check_achievements]: the tracker and the unlock
    notices it prints. *)
Definition _check_achievements (self : ProgressTracker)
  : ProgressTracker * list pystr :=
  let '(have, printed) := grant (candidates (data self)) (achievements (data self)) in
  (with_data self (with_achievements (data self) have), printed).

(** The five lines of [record_attempt] that update one tally dictionary. *)
Definition tally_attempt (m : gmap pystr Tally.t) (k : pystr) (correct : bool)
  : gmap pystr Tally.t :=
  let m := match m !! k with
           | None => <[k := Tally.mk 0 0]> m
           | Some _ => m
           end in
  let m := alter (fun t => Tally.mk (Tally.total t + 1) (Tally.correct t)) k m in
  if correct
  then alter (fun t => Tally.mk (Tally.total t) (Tally.correct t + 1)) k m
  else m.

(** [ProgressTracker.record_attempt]; [now] is [datetime.now().isoformat()].
    The second component is what [_check_achievements] prints. *)
Definition record_attempt (self : ProgressTracker) (category command : pystr)
    (correct : bool) (now : pystr) : ProgressTracker * list pystr :=
  let d := data self in
  let total_exercises' := total_exercises d + 1 in
  let correct_answers' := if correct then correct_answers d + 1 else correct_answers d in
  let streak' := if correct then streak d + 1 else 0 in
  let best_streak' := if correct then Z.max (best_streak d) streak' else best_streak d in
  let d :=
    {| total_exercises := total_exercises';
       correct_answers := correct_answers';
       streak := streak';
       best_streak := best_streak';
       categories_completed := tally_attempt (categories_completed d) category correct;
       commands_practiced := tally_attempt (commands_practiced d) command correct;
       last_practice := Some now;
       achievements := achievements d;
       wrong_answers := wrong_answers d |} in
  let '(self, printed) := _check_achievements (with_data self d) in
  (save self, printed).

(** ** Exercise corpus *)

(** An item of a command's ["exercises"] list in [COMMANDS_DB]. *)
Module CorpusExercise.
Record t : Type := mk { question : pystr; answers : list pystr }.
End CorpusExercise.

(** An item of a category's ["commands"] list. *)
Module Command.
Record t : Type := mk {
  command : pystr;
  description : pystr;
  examples : list pystr;
  exercises : list CorpusExercise.t
}.
End Command.

(** A value of [COMMANDS_DB]. *)
Module Category.
Record t : Type := mk { name : pystr; icon : pystr; commands : list Command.t }.
End Category.

(** The dictionary a practice loop works on: a corpus exercise with the
    fields of its command. *)
Module Exercise.
Record t : Type := mk {
  command : pystr;
  description : pystr;
  examples : list pystr;
  question : pystr;
  answers : list pystr
}.
End Exercise.

(** The same with the two keys [random_practice] adds. *)
Module RandomExercise.
Record t : Type := mk {
  category_key : pystr;
  category_name : pystr;
  exercise : Exercise.t
}.
End RandomExercise.

(** The exercises of one category, in corpus order. *)
Definition category_exercises (category : Category.t) : list Exercise.t :=
  flat_map
    (fun cmd =>
       List.map
         (fun ex =>
            {| Exercise.command := Command.command cmd;
               Exercise.description := Command.description cmd;
               Exercise.examples := Command.examples cmd;
               Exercise.question := CorpusExercise.question ex;
               Exercise.answers := CorpusExercise.answers ex |})
         (Command.exercises cmd))
    (Category.commands category).

(** [l[:count]] *)
Definition slice_to {A : Type} (l : list A) (count : Z) : list A :=
  if count <? 0 then firstn (Z.to_nat (Z.of_nat (length l) + count)) l
  else firstn (Z.to_nat count) l.

(** ** Session engine *)

Inductive Exn : Type := EOFError | IndexError | KeyError.

(** What a practice loop prints.  Colours and layout are left out, every
    constructor carries the values the line interpolates. *)
Inductive Output : Type :=
| OutNoExercises
| OutBannerCategory (icon name : pystr)
| OutBannerRandom (count : Z)
| OutBannerWrong (len : nat)
| OutReplayEmpty
| OutQuestion (question_num len : nat) (command description question : pystr)
| OutQuestionRandom (question_num len : nat) (cat_name command description question : pystr)
| OutQuestionWrong (question_num len : nat) (cat_name : pystr) (wrong_count : Z)
    (command question : pystr)
| OutPrompt
| OutSkip (answer : pystr)
| OutHint (command : pystr)
| OutHintExamples (examples : pystr)
| OutCorrect
| OutCorrectRemoved
| OutWrong
| OutStillWrong
| OutAnswer (answer : pystr)
| OutOtherAnswers (others : pystr)
| OutUnlocked (ach : pystr)
| OutRule
| OutDoneCategory
| OutDoneRandom
| OutDoneWrong (removed_count remaining : Z)
| OutSummary (correct total streak : Z)
| OutPressEnter.

(** How the [while True] loop of one exercise is left. *)
Inductive Left : Type :=
| LeftNext            (* [break] after an answer or a skip *)
| LeftQuit            (* [break] on quit *)
| LeftEof             (* [return] on [EOFError] *)
| LeftRaised (e : Exn).

(** How a practice method ends. *)
Inductive Status : Type :=
| Returned
| Raised (e : Exn).

(** The tracker, the number of clock readings so far and the terminal. *)
Record World : Type := mkWorld {
  progress : ProgressTracker;
  ticks : nat;
  stdout : list Output
}.

(** The local counters of [practice_category] and [random_practice]. *)
Record Session : Type := mkSession {
  world : World;
  session_total : Z;
  session_correct : Z
}.

(** The local counters of [practice_wrong_answers]. *)
Record Replay : Type := mkReplay {
  replay_world : World;
  removed_count : Z
}.

(** The string ['(跳过)'] recorded as the answer of a skipped exercise. *)
Definition SKIPPED : pystr := [40; 36339; 36807; 41]%N.

Section Engine.

(** [str.lower] *)
Variable lower : pystr -> pystr.
(** What the n-th [datetime.now().isoformat()] of the run returns. *)
Variable now : nat -> pystr.
(** The order [random.shuffle] leaves. *)
Variable shuffle : forall A : Type, list A -> list A.
(** The corpus. *)
Variable COMMANDS_DB : PyDict.t Category.t.

Definition print (o : Output) (w : World) : World :=
  {| progress := progress w; ticks := ticks w; stdout := stdout w ++ [o] |}.

(** [self.progress.record_attempt(...)] *)
Definition call_record_attempt (category command : pystr) (correct : bool)
    (w : World) : World :=
  let '(p, printed) :=
    record_attempt (progress w) category command correct (now (ticks w)) in
  {| progress := p;
     ticks := S (ticks w);
     stdout := stdout w ++ List.map OutUnlocked printed |}.

(** [self.progress.record_wrong_answer(...)] *)
Definition call_record_wrong_answer (category command question : pystr)
    (answers : list pystr) (user_answer : pystr) (w : World) : World :=
  {| progress :=
       record_wrong_answer (progress w) category command question answers
         user_answer (now (ticks w));
     ticks := S (ticks w);
     stdout := stdout w |}.

(** [self.progress.remove_wrong_answer(key)] *)
Definition call_remove_wrong_answer (key : pystr) (w : World) : World :=
  {| progress := remove_wrong_answer (progress w) key;
     ticks := ticks w;
     stdout := stdout w |}.

Definition on_world (f : World -> World) (s : Session) : Session :=
  {| world := f (world s);
     session_total := session_total s;
     session_correct := session_correct s |}.

Definition count_total (s : Session) : Session :=
  {| world := world s;
     session_total := session_total s + 1;
     session_correct := session_correct s |}.

Definition count_correct (s : Session) : Session :=
  {| world := world s;
     session_total := session_total s;
     session_correct := session_correct s + 1 |}.

(** The two [print]s of the failure branch after the cross: the first
    accepted answer and, when there are more, the others. *)
Definition print_answers (a : pystr) (others : list pystr) (w : World) : World :=
  let w := print (OutAnswer a) w in
  match others with
  | [] => w
  | _ => print (OutOtherAnswers (PyStr.join (py ", ") others)) w
  end.

(** The [while True] loop of [practice_category] and of [random_practice],
    which differ in where the category key comes from.  [inputs] are the
    lines [input] will return, [EOFError] after the last. *)
Fixpoint ask (category_key : pystr) (ex : Exercise.t) (inputs : list pystr)
    (s : Session) : Left * list pystr * Session :=
  let s := on_world (print OutPrompt) s in
  match inputs with
  | [] => (LeftEof, [], s)
  | line :: inputs =>
      let user_input := PyStr.strip line in
      if str_eqb (lower user_input) (py "quit") then (LeftQuit, inputs, s)
      else if str_eqb (lower user_input) (py "skip") then
        match Exercise.answers ex with
        | [] => (LeftRaised IndexError, inputs, s)
        | a :: _ =>
            let s := on_world (print (OutSkip a)) s in
            let s := on_world
                       (call_record_attempt category_key (Exercise.command ex) false) s in
            let s := on_world
                       (call_record_wrong_answer category_key (Exercise.command ex)
                          (Exercise.question ex) (Exercise.answers ex) SKIPPED) s in
            let s := count_total s in
            (LeftNext, inputs, s)
        end
      else if str_eqb (lower user_input) (py "hint") then
        let s := on_world (print (OutHint (Exercise.command ex))) s in
        let s := on_world
                   (print (OutHintExamples
                             (PyStr.join (py ", ") (firstn 2 (Exercise.examples ex))))) s in
        ask category_key ex inputs s
      else match user_input with
      | [] => ask category_key ex inputs s
      | _ =>
        let s := count_total s in
        if check_answer user_input (Exercise.answers ex) then
          let s := on_world (print OutCorrect) s in
          let s := on_world
                     (call_record_attempt category_key (Exercise.command ex) true) s in
          let s := count_correct s in
          (LeftNext, inputs, s)
        else
          let s := on_world (print OutWrong) s in
          match Exercise.answers ex with
          | [] => (LeftRaised IndexError, inputs, s)
          | a :: others =>
              let s := on_world (print_answers a others) s in
              let s := on_world
                         (call_record_attempt category_key (Exercise.command ex) false) s in
              let s := on_world
                         (call_record_wrong_answer category_key (Exercise.command ex)
                            (Exercise.question ex) (Exercise.answers ex) user_input) s in
              (LeftNext, inputs, s)
          end
      end
  end.

(** The last [input()] of a practice method, whose [EOFError] nobody
    catches. *)
Definition press_enter (inputs : list pystr) (w : World)
  : Status * list pystr * World :=
  match inputs with
  | [] => (Raised EOFError, [], w)
  | _ :: inputs => (Returned, inputs, w)
  end.

(** The [for ex in exercises] loop of [practice_category].  [None] when
    the loop is left by its end or by [break]. *)
Fixpoint category_loop (category_key : pystr) (exercises : list Exercise.t)
    (question_num len : nat) (inputs : list pystr) (s : Session)
  : option Status * list pystr * Session :=
  match exercises with
  | [] => (None, inputs, s)
  | ex :: rest =>
      let question_num := S question_num in
      let s := on_world
                 (print (OutQuestion question_num len (Exercise.command ex)
                           (Exercise.description ex) (Exercise.question ex))) s in
      match ask category_key ex inputs s with
      | (LeftNext, inputs, s) =>
          let s := on_world (print OutRule) s in
          category_loop category_key rest question_num len inputs s
      | (LeftQuit, inputs, s) => (None, inputs, s)
      | (LeftEof, inputs, s) => (Some Returned, inputs, s)
      | (LeftRaised e, inputs, s) => (Some (Raised e), inputs, s)
      end
  end.

(** The lines after the loop of [practice_category] and [random_practice];
    the accuracy, a float, is not in the summary. *)
Definition report (done : Output) (inputs : list pystr) (s : Session)
  : Status * list pystr * World :=
  let w := print done (world s) in
  let w := print (OutSummary (session_correct s) (session_total s)
                    (streak (data (progress w)))) w in
  let w := print OutPressEnter w in
  press_enter inputs w.

(** [TermTrainer.practice_category] *)
Definition practice_category (category_key : pystr) (inputs : list pystr)
    (w : World) : Status * list pystr * World :=
  match PyDict.get COMMANDS_DB category_key with
  | None => (Raised KeyError, inputs, w)
  | Some category =>
      match category_exercises category with
      | [] => (Returned, inputs, print OutNoExercises w)
      | exercises =>
          let exercises := shuffle _ exercises in
          let w := print (OutBannerCategory (Category.icon category)
                            (Category.name category)) w in
          let s := {| world := w; session_total := 0; session_correct := 0 |} in
          match category_loop category_key exercises 0 (length exercises) inputs s with
          | (Some st, inputs, s) => (st, inputs, world s)
          | (None, inputs, s) => report OutDoneCategory inputs s
          end
      end
  end.

(** The list [all_exercises] of [random_practice]. *)
Definition all_exercises : list RandomExercise.t :=
  flat_map
    (fun '(cat_key, category) =>
       List.map
         (fun ex =>
            {| RandomExercise.category_key := cat_key;
               RandomExercise.category_name := Category.name category;
               RandomExercise.exercise := ex |})
         (category_exercises category))
    (PyDict.items COMMANDS_DB).

(** The [for ex in exercises] loop of [random_practice]. *)
Fixpoint random_loop (exercises : list RandomExercise.t)
    (question_num len : nat) (inputs : list pystr) (s : Session)
  : option Status * list pystr * Session :=
  match exercises with
  | [] => (None, inputs, s)
  | rex :: rest =>
      let question_num := S question_num in
      let ex := RandomExercise.exercise rex in
      let s := on_world
                 (print (OutQuestionRandom question_num len
                           (RandomExercise.category_name rex) (Exercise.command ex)
                           (Exercise.description ex) (Exercise.question ex))) s in
      match ask (RandomExercise.category_key rex) ex inputs s with
      | (LeftNext, inputs, s) =>
          let s := on_world (print OutRule) s in
          random_loop rest question_num len inputs s
      | (LeftQuit, inputs, s) => (None, inputs, s)
      | (LeftEof, inputs, s) => (Some Returned, inputs, s)
      | (LeftRaised e, inputs, s) => (Some (Raised e), inputs, s)
      end
  end.

(** [TermTrainer.random_practice] *)
Definition random_practice (count : Z) (inputs : list pystr) (w : World)
  : Status * list pystr * World :=
  let exercises := slice_to (shuffle _ all_exercises) count in
  let w := print (OutBannerRandom count) w in
  let s := {| world := w; session_total := 0; session_correct := 0 |} in
  match random_loop exercises 0 (length exercises) inputs s with
  | (Some st, inputs, s) => (st, inputs, world s)
  | (None, inputs, s) => report OutDoneRandom inputs s
  end.

Definition on_replay (f : World -> World) (r : Replay) : Replay :=
  {| replay_world := f (replay_world r); removed_count := removed_count r |}.

Definition count_removed (r : Replay) : Replay :=
  {| replay_world := replay_world r; removed_count := removed_count r + 1 |}.

(** The [while True] loop of [practice_wrong_answers]; [examples] are the
    examples found in the corpus for the command of [ex]. *)
Fixpoint ask_wrong (ex : WrongExercise.t) (examples : list pystr)
    (inputs : list pystr) (r : Replay) : Left * list pystr * Replay :=
  let entry := WrongExercise.entry ex in
  let r := on_replay (print OutPrompt) r in
  match inputs with
  | [] => (LeftEof, [], r)
  | line :: inputs =>
      let user_input := PyStr.strip line in
      if str_eqb (lower user_input) (py "quit") then (LeftQuit, inputs, r)
      else if str_eqb (lower user_input) (py "skip") then
        match WrongEntry.answers entry with
        | [] => (LeftRaised IndexError, inputs, r)
        | a :: _ =>
            let r := on_replay (print (OutSkip a)) r in
            (LeftNext, inputs, r)
        end
      else if str_eqb (lower user_input) (py "hint") then
        let r := on_replay (print (OutHint (WrongEntry.command entry))) r in
        let r := match examples with
                 | [] => r
                 | _ => on_replay
                          (print (OutHintExamples
                                    (PyStr.join (py ", ") (firstn 2 examples)))) r
                 end in
        ask_wrong ex examples inputs r
      else match user_input with
      | [] => ask_wrong ex examples inputs r
      | _ =>
        if check_answer user_input (WrongEntry.answers entry) then
          let r := on_replay (print OutCorrectRemoved) r in
          let r := on_replay (call_remove_wrong_answer (WrongExercise.key ex)) r in
          let r := on_replay
                     (call_record_attempt (WrongEntry.category entry)
                        (WrongEntry.command entry) true) r in
          let r := count_removed r in
          (LeftNext, inputs, r)
        else
          let r := on_replay (print OutStillWrong) r in
          match WrongEntry.answers entry with
          | [] => (LeftRaised IndexError, inputs, r)
          | a :: others =>
              let r := on_replay (print_answers a others) r in
              let r := on_replay
                         (call_record_attempt (WrongEntry.category entry)
                            (WrongEntry.command entry) false) r in
              let r := on_replay
                         (call_record_wrong_answer (WrongEntry.category entry)
                            (WrongEntry.command entry) (WrongEntry.question entry)
                            (WrongEntry.answers entry) user_input) r in
              (LeftNext, inputs, r)
          end
      end
  end.

(** [COMMANDS_DB.get(ex['category'], {}).get('name', ex['category'])] *)
Definition cat_name_of (category : pystr) : pystr :=
  match PyDict.get COMMANDS_DB category with
  | Some c => Category.name c
  | None => category
  end.

(** The examples of the first command of the category with that name. *)
Definition examples_of (category command : pystr) : list pystr :=
  match PyDict.get COMMANDS_DB category with
  | Some c =>
      match List.find (fun cmd => str_eqb (Command.command cmd) command)
              (Category.commands c) with
      | Some cmd => Command.examples cmd
      | None => []
      end
  | None => []
  end.

(** The [for ex in wrong_exercises] loop of [practice_wrong_answers]; it
    also returns [question_num], which the summary prints. *)
Fixpoint wrong_loop (wrong_exercises : list WrongExercise.t)
    (question_num len : nat) (inputs : list pystr) (r : Replay)
  : option Status * list pystr * Replay * nat :=
  match wrong_exercises with
  | [] => (None, inputs, r, question_num)
  | ex :: rest =>
      let question_num := S question_num in
      let entry := WrongExercise.entry ex in
      let cat_name := cat_name_of (WrongEntry.category entry) in
      let examples := examples_of (WrongEntry.category entry) (WrongEntry.command entry) in
      let r := on_replay
                 (print (OutQuestionWrong question_num len cat_name
                           (WrongEntry.wrong_count entry) (WrongEntry.command entry)
                           (WrongEntry.question entry))) r in
      match ask_wrong ex examples inputs r with
      | (LeftNext, inputs, r) =>
          let r := on_replay (print OutRule) r in
          wrong_loop rest question_num len inputs r
      | (LeftQuit, inputs, r) => (None, inputs, r, question_num)
      | (LeftEof, inputs, r) => (Some Returned, inputs, r, question_num)
      | (LeftRaised e, inputs, r) => (Some (Raised e), inputs, r, question_num)
      end
  end.

(** [TermTrainer.practice_wrong_answers] *)
Definition practice_wrong_answers (inputs : list pystr) (w : World)
  : Status * list pystr * World :=
  let '(wrong_exercises, p) := get_wrong_exercises (progress w) in
  let w := {| progress := p; ticks := ticks w; stdout := stdout w |} in
  match wrong_exercises with
  | [] =>
      let w := print OutReplayEmpty w in
      let w := print OutPressEnter w in
      press_enter inputs w
  | _ =>
      let len := length wrong_exercises in
      let w := print (OutBannerWrong len) w in
      let r := {| replay_world := w; removed_count := 0 |} in
      match wrong_loop wrong_exercises 0 len inputs r with
      | (Some st, inputs, r, _) => (st, inputs, replay_world r)
      | (None, inputs, r, question_num) =>
          let remaining := Z.of_nat len - removed_count r in
          let w := print (OutDoneWrong (removed_count r) remaining) (replay_world r) in
          let w := print (OutSummary (removed_count r) (Z.of_nat question_num)
                            (streak (data (progress w)))) w in
          let w := print OutPressEnter w in
          press_enter inputs w
      end
  end.

End Engine.

(** ** The notebook of wrong answers *)

(** What [show_wrong_notebook] prints, and the lines of the replay it may
    start. *)
Inductive NotebookOutput : Type :=
| NbTitle
| NbEmpty
| NbPressEnter
| NbCount (n : nat)
| NbEntry (i : nat) (cat_name command question : pystr)
| NbEntryCount (wrong_count : Z) (answer : pystr)
| NbEntryLast (last_user_answer : pystr)
| NbMenu
| NbChoicePrompt
| NbConfirmPrompt
| NbCleared
| NbPractice (o : Output).

(** The tracker, the clock readings so far and the terminal of the
    notebook. *)
Record Notebook : Type := mkNotebook {
  nb_progress : ProgressTracker;
  nb_ticks : nat;
  nb_stdout : list NotebookOutput
}.

Section NotebookEngine.

Variable lower : pystr -> pystr.
Variable now : nat -> pystr.
Variable COMMANDS_DB : PyDict.t Category.t.

Definition nb_print (lines : list NotebookOutput) (nb : Notebook) : Notebook :=
  {| nb_progress := nb_progress nb;
     nb_ticks := nb_ticks nb;
     nb_stdout := nb_stdout nb ++ lines |}.

(** The [for i, ex in enumerate(wrong_exercises, 1)] loop: the lines it
    prints and whether [ex['answers'][0]] raised [IndexError]; the line with
    the count and the answer is one [print], which is not reached then. *)
Fixpoint list_entries (i : nat) (wrong_exercises : list WrongExercise.t)
  : list NotebookOutput * bool :=
  match wrong_exercises with
  | [] => ([], false)
  | ex :: rest =>
      let entry := WrongExercise.entry ex in
      let head :=
        NbEntry i (cat_name_of COMMANDS_DB (WrongEntry.category entry))
          (WrongEntry.command entry) (WrongEntry.question entry) in
      match WrongEntry.answers entry with
      | [] => ([head], true)
      | a :: _ =>
          let count := NbEntryCount (WrongEntry.wrong_count entry) a in
          let last :=
            match WrongEntry.last_user_answer entry with
            | [] => []
            | u => [NbEntryLast u]
            end in
          let '(more, raised) := list_entries (S i) rest in
          (head :: count :: last ++ more, raised)
      end
  end.

(** An [input()] whose [EOFError] nobody catches, and then [return]. *)
Definition nb_press_enter (inputs : list pystr) (nb : Notebook)
  : Status * list pystr * Notebook :=
  match inputs with
  | [] => (Raised EOFError, [], nb)
  | _ :: inputs => (Returned, inputs, nb)
  end.

(** [TermTrainer.show_wrong_notebook] *)
Definition show_wrong_notebook (inputs : list pystr) (nb : Notebook)
  : Status * list pystr * Notebook :=
  let '(wrong_exercises, p) := get_wrong_exercises (nb_progress nb) in
  let nb := {| nb_progress := p;
               nb_ticks := nb_ticks nb;
               nb_stdout := nb_stdout nb ++ [NbTitle] |} in
  match wrong_exercises with
  | [] => nb_press_enter inputs (nb_print [NbEmpty; NbPressEnter] nb)
  | _ =>
      let nb := nb_print [NbCount (length wrong_exercises)] nb in
      let '(lines, raised) := list_entries 1 wrong_exercises in
      let nb := nb_print lines nb in
      if raised then (Raised IndexError, inputs, nb)
      else
        let nb := nb_print [NbMenu; NbChoicePrompt] nb in
        match inputs with
        | [] => (Raised EOFError, [], nb)
        | line :: inputs =>
            let choice := lower (PyStr.strip line) in
            if str_eqb choice (py "p") then
              let '(st, inputs, w) :=
                practice_wrong_answers lower now COMMANDS_DB inputs
                  {| progress := nb_progress nb;
                     ticks := nb_ticks nb;
                     stdout := [] |} in
              (st, inputs,
               {| nb_progress := progress w;
                  nb_ticks := ticks w;
                  nb_stdout := nb_stdout nb ++ List.map NbPractice (stdout w) |})
            else if str_eqb choice (py "c") then
              let nb := nb_print [NbConfirmPrompt] nb in
              match inputs with
              | [] => (Raised EOFError, [], nb)
              | line :: inputs =>
                  let confirm := lower (PyStr.strip line) in
                  if str_eqb confirm (py "y") then
                    let p := _ensure_wrong_answers (nb_progress nb) in
                    let p := with_data p (with_wrong_answers (data p) (Some [])) in
                    let p := save p in
                    let nb := {| nb_progress := p;
                                 nb_ticks := nb_ticks nb;
                                 nb_stdout := nb_stdout nb |} in
                    nb_press_enter inputs (nb_print [NbCleared; NbPressEnter] nb)
                  else (Returned, inputs, nb)
              end
            else (Returned, inputs, nb)
        end
  end.

End NotebookEngine.

(** ** Predicates of the statements *)

(** [a] may stand before [b] in a list sorted by decreasing keys. *)
Definition ge_key {A : Type} (key : A -> Z) (a b : A) : Prop := key b <= key a.

(** A word of [split]: not empty, no whitespace in it. *)
Definition nonspace (w : pystr) : Prop := Forall (fun c => PyStr.isspace c = false) w.
Definition word (w : pystr) : Prop := w <> [] /\ nonspace w.

(** The achievement table of the specification: counter, threshold,
    identifier. *)
Definition achievement_table : list ((ProgressData -> Z) * Z * pystr) :=
  [ (total_exercises, 10, Ach.beginner);
    (total_exercises, 50, Ach.practice_expert);
    (total_exercises, 100, Ach.terminal_master);
    (streak, 5, Ach.streak_rookie);
    (streak, 10, Ach.streak_expert);
    (best_streak, 20, Ach.streak_master) ].

(** The counter of a row has reached its threshold and the identifier is not
    in the achievements yet. *)
Definition earned (d : ProgressData) (row : (ProgressData -> Z) * Z * pystr) : bool :=
  let '(counter, threshold, name) := row in
  (threshold <=? counter d) && negb (str_in name (achievements d)).

(** The identifiers of the rows that are earned, in table order. *)
Definition newly_unlocked (d : ProgressData) : list pystr :=
  List.map snd (List.filter (earned d) achievement_table).

(** The operations of the progress store, with their arguments and the clock
    reading they take. *)
Inductive Op : Type :=
| OpRecordAttempt (category command : pystr) (correct : bool) (now : pystr)
| OpRecordWrongAnswer (category command question : pystr) (answers : list pystr)
    (user_answer : pystr) (now : pystr)
| OpRemoveWrongAnswer (key : pystr).

Definition apply_op (self : ProgressTracker) (op : Op) : ProgressTracker :=
  match op with
  | OpRecordAttempt category command correct now =>
      fst (record_attempt self category command correct now)
  | OpRecordWrongAnswer category command question answers user_answer now =>
      record_wrong_answer self category command question answers user_answer now
  | OpRemoveWrongAnswer key => remove_wrong_answer self key
  end.

Definition run_ops (self : ProgressTracker) (ops : list Op) : ProgressTracker :=
  fold_left apply_op ops self.

(** The tracker of a first launch: there is no progress file. *)
Definition fresh : ProgressTracker := ProgressTracker_init Missing.

(** The invariants of the data model, with the bounds that make them
    inductive. *)
Definition store_inv (d : ProgressData) : Prop :=
  0 <= streak d <= best_streak d
  /\ 0 <= correct_answers d <= total_exercises d
  /\ NoDup (PyDict.keys (registry d)).

(** The items [get_wrong_exercises] builds from the registry, unsorted. *)
Definition registry_items (d : ProgressData) : list WrongExercise.t :=
  List.map (fun '(key, entry) => WrongExercise.mk key entry) (registry d).

(** [str.lower] on the strings whose letters with a lower case are all
    ASCII. *)
Definition ascii_lower (s : pystr) : pystr :=
  List.map (fun c => if ((65 <=? c) && (c <=? 90))%N then (c + 32)%N else c) s.

(** The bookkeeping of a failed submission: [record_attempt(.., False)] and
    then [record_wrong_answer(..)], at the clock readings [t] and [t + 1]. *)
Definition failure_bookkeeping (now : nat -> pystr) (t : nat)
    (category command question : pystr) (answers : list pystr)
    (user_answer : pystr) (p : ProgressTracker) : ProgressTracker :=
  record_wrong_answer
    (fst (record_attempt p category command false (now t)))
    category command question answers user_answer (now (S t)).

(** The attempts a list of operations records, oldest first: category,
    command and verdict. *)
Definition attempts (ops : list Op) : list (pystr * pystr * bool) :=
  flat_map
    (fun op =>
       match op with
       | OpRecordAttempt category command correct _ => [(category, command, correct)]
       | _ => []
       end)
    ops.

(** The verdicts of the attempts whose category, or whose command, is the
    given one. *)
Definition category_verdicts (category : pystr) (ops : list Op) : list bool :=
  List.map snd
    (List.filter (fun a => str_eqb (fst (fst a)) category) (attempts ops)).

Definition command_verdicts (command : pystr) (ops : list Op) : list bool :=
  List.map snd
    (List.filter (fun a => str_eqb (snd (fst a)) command) (attempts ops)).

(** How many verdicts are [True]. *)
Definition count_true (l : list bool) : Z :=
  Z.of_nat (length (List.filter (fun b => b) l)).

(** The tally of a list of verdicts; no verdict, no tally. *)
Definition tally_of (l : list bool) : option Tally.t :=
  match l with
  | [] => None
  | _ => Some (Tally.mk (Z.of_nat (length l)) (count_true l))
  end.

(** The number of [True] at the head of a list. *)
Fixpoint leading_true (l : list bool) : nat :=
  match l with
  | true :: l' => S (leading_true l')
  | _ => 0%nat
  end.

(** An entry of the registry is stored under the key of its own fields. *)
Definition entry_keyed (item : pystr * WrongEntry.t) : Prop :=
  fst item
  = wrong_key (WrongEntry.category (snd item)) (WrongEntry.command (snd item))
      (WrongEntry.question (snd item)).

(** What the achievements say of the counters. *)
Definition achievements_match (d : ProgressData) : Prop :=
  (In Ach.beginner (achievements d) <-> 10 <= total_exercises d)
  /\ (In Ach.practice_expert (achievements d) <-> 50 <= total_exercises d)
  /\ (In Ach.terminal_master (achievements d) <-> 100 <= total_exercises d)
  /\ (In Ach.streak_rookie (achievements d) <-> 5 <= best_streak d)
  /\ (In Ach.streak_expert (achievements d) <-> 10 <= best_streak d)
  /\ (In Ach.streak_master (achievements d) <-> 20 <= best_streak d)
  /\ Forall (fun name => In name (List.map snd achievement_table)) (achievements d).

(** What holds of every item of the registry. *)
Definition registry_sound (d : ProgressData) : Prop :=
  Forall (fun item => entry_keyed item /\ 1 <= WrongEntry.wrong_count (snd item))
    (registry d).

(** A string of whitespace only, and the characters of a string that are not
    whitespace. *)
Definition allspace (w : pystr) : Prop := Forall (fun c => PyStr.isspace c = true) w.

Definition visible (s : pystr) : pystr :=
  List.filter (fun c => negb (PyStr.isspace c)) s.

(** What [split] has read when whitespace comes. *)
Definition flush (cur : pystr) : list pystr :=
  match cur with
  | [] => []
  | _ => [rev cur]
  end.

(** What one exercise of [practice_category] or [random_practice] can do,
    seen from the tracker [p], the clock [t] and the counters [n] and [c] it
    starts with: a correct answer, a miss (failed or skipped, with the answer
    recorded), a quit, the end of the input, or an [IndexError] at an
    exercise without accepted answers. *)
Inductive AskOutcome (now : nat -> pystr) (category_key : pystr) (ex : Exercise.t)
    (p : ProgressTracker) (t : nat) (n c : Z) : Left -> Session -> Prop :=
| AskCorrect (s' : Session) :
    progress (world s')
    = fst (record_attempt p category_key (Exercise.command ex) true (now t)) ->
    ticks (world s') = S t ->
    session_total s' = n + 1 -> session_correct s' = c + 1 ->
    AskOutcome now category_key ex p t n c LeftNext s'
| AskMissed (s' : Session) (user_answer : pystr) :
    Exercise.answers ex <> [] ->
    progress (world s')
    = failure_bookkeeping now t category_key (Exercise.command ex)
        (Exercise.question ex) (Exercise.answers ex) user_answer p ->
    ticks (world s') = S (S t) ->
    session_total s' = n + 1 -> session_correct s' = c ->
    AskOutcome now category_key ex p t n c LeftNext s'
| AskQuit (s' : Session) :
    progress (world s') = p -> ticks (world s') = t ->
    session_total s' = n -> session_correct s' = c ->
    AskOutcome now category_key ex p t n c LeftQuit s'
| AskEof (s' : Session) :
    progress (world s') = p -> ticks (world s') = t ->
    session_total s' = n -> session_correct s' = c ->
    AskOutcome now category_key ex p t n c LeftEof s'
| AskRaised (s' : Session) :
    Exercise.answers ex = [] ->
    progress (world s') = p -> ticks (world s') = t ->
    n <= session_total s' <= n + 1 -> session_correct s' = c ->
    AskOutcome now category_key ex p t n c (LeftRaised IndexError) s'.

(** The same for one exercise of [practice_wrong_answers], where a skip is a
    case of its own. *)
Inductive ReplayOutcome (now : nat -> pystr) (ex : WrongExercise.t)
    (p : ProgressTracker) (t : nat) (c : Z) : Left -> Replay -> Prop :=
| ReplayCorrect (r' : Replay) :
    progress (replay_world r')
    = fst (record_attempt (remove_wrong_answer p (WrongExercise.key ex))
             (WrongEntry.category (WrongExercise.entry ex))
             (WrongEntry.command (WrongExercise.entry ex)) true (now t)) ->
    ticks (replay_world r') = S t ->
    removed_count r' = c + 1 ->
    ReplayOutcome now ex p t c LeftNext r'
| ReplayMissed (r' : Replay) (user_answer : pystr) :
    progress (replay_world r')
    = failure_bookkeeping now t
        (WrongEntry.category (WrongExercise.entry ex))
        (WrongEntry.command (WrongExercise.entry ex))
        (WrongEntry.question (WrongExercise.entry ex))
        (WrongEntry.answers (WrongExercise.entry ex)) user_answer p ->
    ticks (replay_world r') = S (S t) ->
    removed_count r' = c ->
    ReplayOutcome now ex p t c LeftNext r'
| ReplaySkipped (r' : Replay) :
    progress (replay_world r') = p -> ticks (replay_world r') = t ->
    removed_count r' = c ->
    ReplayOutcome now ex p t c LeftNext r'
| ReplayLeft (l : Left) (r' : Replay) :
    l <> LeftNext ->
    progress (replay_world r') = p -> ticks (replay_world r') = t ->
    removed_count r' = c ->
    ReplayOutcome now ex p t c l r'.

(** The counters of a session and of the tracker after [k] exercises at
    most: the session counts at most one attempt an exercise, no more correct
    ones than attempts, and, unless the loop was left by an exception, the
    tracker has counted the same. *)
Definition tally_agrees (k : Z) (raised : bool) (s s' : Session) : Prop :=
  let d := data (progress (world s)) in
  let d' := data (progress (world s')) in
  0 <= session_correct s' - session_correct s
  /\ session_correct s' - session_correct s <= session_total s' - session_total s
  /\ session_total s' - session_total s <= k
  /\ 0 <= total_exercises d' - total_exercises d <= session_total s' - session_total s
  /\ (raised = false ->
      total_exercises d' - total_exercises d = session_total s' - session_total s
      /\ correct_answers d' - correct_answers d
         = session_correct s' - session_correct s).

(** A loop was left by an exception. *)
Definition is_raised (st : option Status) : bool :=
  match st with
  | Some (Raised _) => true
  | _ => false
  end.

(** The exercises of a replay that are still to come, against the registry:
    no key twice, every key in the registry, every entry under the key of
    its own fields. *)
Definition replay_ready (l : list WrongExercise.t) (reg : PyDict.t WrongEntry.t)
  : Prop :=
  NoDup (List.map WrongExercise.key l)
  /\ Forall
       (fun ex =>
          In (WrongExercise.key ex) (PyDict.keys reg)
          /\ entry_keyed (WrongExercise.key ex, WrongExercise.entry ex))
       l.

(** The line a replay ends with. *)
Definition done_wrong (o : Output) : bool :=
  match o with
  | OutDoneWrong _ _ => true
  | _ => false
  end.

(** The terminal of [w'] shows what the terminal of [w] showed and then
    lines that are not the last line of a replay. *)
Definition extends (w w' : World) : Prop :=
  exists added,
    stdout w' = stdout w ++ added /\ Forall (fun o => done_wrong o = false) added.

(** Every key of the registry of [p] is a key of the registry of [p']. *)
Definition keeps_keys (p p' : ProgressTracker) : Prop :=
  forall k, In k (PyDict.keys (registry (data p))) ->
            In k (PyDict.keys (registry (data p'))).

(** * Facts *)

(** ** Strings *)

Lemma str_eqb_eq (a b : pystr) : str_eqb a b = true <-> a = b.
Proof. unfold str_eqb. apply bool_decide_eq_true. Qed.

Lemma str_eqb_refl (a : pystr) : str_eqb a a = true.
Proof. now apply str_eqb_eq. Qed.

Lemma str_eqb_neq (a b : pystr) : str_eqb a b = false <-> a <> b.
Proof. unfold str_eqb. apply bool_decide_eq_false. Qed.

Lemma str_in_In (x : pystr) (l : list pystr) : str_in x l = true <-> In x l.
Proof.
  unfold str_in. rewrite existsb_exists. split.
  - intros (y & Hy & E). apply str_eqb_eq in E. now subst.
  - intros H. exists x. split; [assumption | apply str_eqb_refl].
Qed.

Lemma str_in_false (x : pystr) (l : list pystr) : str_in x l = false <-> ~ In x l.
Proof.
  rewrite <- str_in_In. destruct (str_in x l); split; congruence.
Qed.

Module PyStrFacts.
Import PyStr.

Lemma isspace_SPACE : isspace SPACE = true.
Proof. reflexivity. Qed.

Lemma split_from_nonempty (cur s : pystr) : cur <> [] -> split_from cur s <> [].
Proof.
  revert cur. induction s as [|c s IH]; intros cur Hcur; simpl.
  - destruct cur; congruence.
  - destruct (isspace c).
    + destruct cur; congruence.
    + apply IH. discriminate.
Qed.

Lemma split_from_app_word (w cur s : pystr) :
  nonspace w -> split_from cur (w ++ s) = split_from (rev w ++ cur) s.
Proof.
  revert cur. induction w as [|c w IH]; intros cur Hw; simpl; [reflexivity|].
  inversion Hw as [|? ? Hc Hw']; subst. rewrite Hc, IH by assumption.
  now rewrite <- app_assoc.
Qed.

Lemma rev_nonempty (w : pystr) : w <> [] -> rev w <> [].
Proof.
  intros Hw E. apply (f_equal (@length N)) in E.
  rewrite length_rev in E. destruct w; [congruence | discriminate].
Qed.

Lemma word_rev (w : pystr) : word w -> word (rev w).
Proof.
  intros [Hne Hw]. split; [now apply rev_nonempty | now apply List.Forall_rev].
Qed.

Lemma split_from_words (cur s : pystr) :
  nonspace cur -> Forall word (split_from cur s).
Proof.
  revert cur. induction s as [|c s IH]; intros cur Hcur; simpl.
  - destruct cur as [|a cur]; constructor; [|constructor].
    apply word_rev. split; [discriminate | assumption].
  - destruct (isspace c) eqn:Hc.
    + destruct cur as [|a cur]; [apply IH; constructor|].
      constructor; [|apply IH; constructor].
      apply word_rev. split; [discriminate | assumption].
    + apply IH. now constructor.
Qed.

Lemma split_words (s : pystr) : Forall word (split s).
Proof. apply split_from_words. constructor. Qed.

Lemma join_cons_cons (sep w w' : pystr) (ws : list pystr) :
  join sep (w :: w' :: ws) = w ++ sep ++ join sep (w' :: ws).
Proof. reflexivity. Qed.

Lemma join_words_nonempty (ws : list pystr) :
  ws <> [] -> Forall word ws -> join [SPACE] ws <> [].
Proof.
  intros Hne Hws. destruct ws as [|w ws]; [congruence|].
  inversion Hws as [|? ? [Hw _] _]; subst.
  destruct ws; simpl; [assumption|].
  destruct w; [congruence | discriminate].
Qed.

(** Splitting the joined words gives the words back. *)
Lemma split_join (ws : list pystr) :
  Forall word ws -> split (join [SPACE] ws) = ws.
Proof.
  unfold split. induction ws as [|w ws IH]; intros Hws; [reflexivity|].
  inversion Hws as [|? ? [Hne Hw] Hws']; subst.
  destruct ws as [|w' ws].
  - simpl. rewrite <- (app_nil_r w) at 1.
    rewrite split_from_app_word by assumption. simpl. rewrite app_nil_r.
    destruct (rev w) eqn:E; [now apply rev_nonempty in E|].
    now rewrite <- E, rev_involutive.
  - rewrite join_cons_cons, split_from_app_word by assumption.
    rewrite app_nil_r. cbn [app split_from]. rewrite isspace_SPACE.
    rewrite IH by assumption.
    destruct (rev w) eqn:E; [now apply rev_nonempty in E|].
    now rewrite <- E, rev_involutive.
Qed.

Lemma lstrip_head (c : N) (s : pystr) : isspace c = false -> lstrip (c :: s) = c :: s.
Proof. intros H. simpl. now rewrite H. Qed.

Lemma lstrip_join (ws : list pystr) :
  Forall word ws -> lstrip (join [SPACE] ws) = join [SPACE] ws.
Proof.
  intros Hws. destruct ws as [|w ws]; [reflexivity|].
  inversion Hws as [|? ? [Hne Hw] _]; subst.
  destruct w as [|c w]; [congruence|].
  inversion Hw; subst.
  destruct ws; cbn [join app]; now apply lstrip_head.
Qed.

Lemma rstrip_nonspace (w : pystr) : nonspace w -> rstrip w = w.
Proof.
  induction w as [|c w IH]; intros Hw; [reflexivity|].
  inversion Hw as [|? ? Hc Hw']; subst. simpl.
  rewrite IH, Hc by assumption. now destruct w.
Qed.

Lemma rstrip_app (a b : pystr) : rstrip b <> [] -> rstrip (a ++ b) = a ++ rstrip b.
Proof.
  intros Hb. induction a as [|c a IH]; [reflexivity|].
  simpl. rewrite IH. destruct (a ++ rstrip b) eqn:E; [|reflexivity].
  apply app_eq_nil in E. tauto.
Qed.

Lemma rstrip_join (ws : list pystr) :
  Forall word ws -> rstrip (join [SPACE] ws) = join [SPACE] ws.
Proof.
  induction ws as [|w ws IH]; intros Hws; [reflexivity|].
  inversion Hws as [|? ? [Hne Hw] Hws']; subst.
  destruct ws as [|w' ws]; [now apply rstrip_nonspace|].
  rewrite join_cons_cons.
  assert (Hj : rstrip (join [SPACE] (w' :: ws)) <> []).
  { rewrite IH by assumption. apply join_words_nonempty; [discriminate | assumption]. }
  rewrite app_assoc, rstrip_app by assumption.
  now rewrite IH.
Qed.

Lemma strip_join (ws : list pystr) :
  Forall word ws -> strip (join [SPACE] ws) = join [SPACE] ws.
Proof.
  intros Hws. unfold strip. rewrite lstrip_join by assumption.
  now apply rstrip_join.
Qed.

End PyStrFacts.

(** Normalizing a string that is the join of words gives it back. *)
Lemma normalize_answer_join (ws : list pystr) :
  Forall word ws ->
  normalize_answer (PyStr.join [PyStr.SPACE] ws) = PyStr.join [PyStr.SPACE] ws.
Proof.
  intros Hws. unfold normalize_answer.
  rewrite PyStrFacts.strip_join by assumption.
  now rewrite PyStrFacts.split_join.
Qed.

Lemma normalize_answer_idem (s : pystr) :
  normalize_answer (normalize_answer s) = normalize_answer s.
Proof.
  unfold normalize_answer at 2 3.
  apply normalize_answer_join, PyStrFacts.split_words.
Qed.

(** ** The normalization is trim-then-collapse *)

Module CollapseFacts.
Import PyStr MatcherSpec.

Lemma rstrip_cons (c : N) (s : pystr) :
  rstrip (c :: s) = [] \/ rstrip (c :: s) = c :: rstrip s.
Proof.
  simpl. destruct (rstrip s) eqn:E; [|now right].
  destruct (isspace c); [now left | now right].
Qed.

Lemma rstrip_idem (s : pystr) : rstrip (rstrip s) = rstrip s.
Proof.
  induction s as [|c s IH]; [reflexivity|].
  simpl. destruct (rstrip s) as [|a t] eqn:E.
  - destruct (isspace c) eqn:Hc; simpl; [reflexivity | now rewrite Hc].
  - change (rstrip (c :: a :: t)) with
      (match rstrip (a :: t) with [] => if isspace c then [] else [c] | u => c :: u end).
    now rewrite IH.
Qed.

Lemma rstrip_fixed_tail (c : N) (s : pystr) :
  rstrip (c :: s) = c :: s -> rstrip s = s.
Proof.
  simpl. destruct (rstrip s) eqn:E.
  - destruct (isspace c); intros H; inversion H; now subst.
  - intros H. now inversion H.
Qed.

Lemma rstrip_fixed_space (c : N) (s : pystr) :
  isspace c = true -> rstrip (c :: s) = c :: s -> s <> [].
Proof.
  intros Hc H E. subst s. simpl in H. rewrite Hc in H. discriminate.
Qed.

Lemma lstrip_head_nonspace (s : pystr) (c : N) (t : pystr) :
  lstrip s = c :: t -> isspace c = false.
Proof.
  induction s as [|a s IH]; simpl; [discriminate|].
  destruct (isspace a) eqn:Ha; [assumption|].
  intros H. inversion H; now subst.
Qed.

Lemma strip_head_nonspace (s : pystr) (c : N) (t : pystr) :
  strip s = c :: t -> isspace c = false.
Proof.
  unfold strip. destruct (lstrip s) as [|a u] eqn:E; [discriminate|].
  intros H. destruct (rstrip_cons a u) as [H0|H0]; rewrite H0 in H; [discriminate|].
  inversion H; subst. eapply lstrip_head_nonspace; eassumption.
Qed.

Lemma lstrip_app (a b : pystr) :
  lstrip (a ++ b) = match lstrip a with [] => lstrip b | t => t ++ b end.
Proof.
  induction a as [|c a IH]; simpl; [reflexivity|].
  destruct (isspace c); [exact IH | reflexivity].
Qed.

(** Stripping on the right is stripping the reversed string on the left. *)
Lemma rstrip_rev (s : pystr) : rstrip s = rev (lstrip (rev s)).
Proof.
  induction s as [|c s IH]; [reflexivity|].
  cbn [rstrip rev]. rewrite lstrip_app, IH.
  destruct (lstrip (rev s)) as [|x t] eqn:E.
  - simpl. now destruct (isspace c).
  - cbn [rev]. destruct (rev t ++ [x]) eqn:E'.
    + apply app_eq_nil in E'. destruct E' as [_ E']. discriminate.
    + rewrite <- E'. change (x :: t) with ([x] ++ t).
      rewrite <- app_assoc, rev_app_distr. simpl. now rewrite rev_app_distr.
Qed.

Lemma strip_trim (s : pystr) : strip s = trim s.
Proof. unfold strip, trim. apply rstrip_rev. Qed.

(** The words read from a string without trailing whitespace, joined:
    with a word under way, and at the start of a word. *)
Lemma join_split_from (s : pystr) :
  rstrip s = s ->
  (forall cur, cur <> [] ->
     join [SPACE] (split_from cur s) = rev cur ++ collapse_runs s)
  /\ (s <> [] ->
      split_from [] s <> []
      /\ SPACE :: join [SPACE] (split_from [] s)
         = match s with
           | [] => []
           | c :: _ => if isspace c then collapse_runs s else SPACE :: collapse_runs s
           end).
Proof.
  induction s as [|c s IH]; intros Hfix.
  - split; [|congruence].
    intros cur Hcur. simpl. rewrite app_nil_r. now destruct cur.
  - specialize (IH (rstrip_fixed_tail _ _ Hfix)). destruct IH as [IHa IHb].
    destruct (isspace c) eqn:Hc.
    + pose proof (rstrip_fixed_space _ _ Hc Hfix) as Hs.
      destruct (IHb Hs) as [Hne Hjoin].
      assert (Hcol : collapse_runs (c :: s)
                     = SPACE :: join [SPACE] (split_from [] s)).
      { rewrite Hjoin. destruct s as [|c' s]; [congruence|].
        cbn [collapse_runs]. rewrite Hc. reflexivity. }
      split.
      * intros cur Hcur. cbn [split_from]. rewrite Hc, Hcol.
        destruct cur as [|a cur]; [congruence|].
        destruct (split_from [] s) eqn:E; [congruence|].
        reflexivity.
      * intros _. cbn [split_from]. rewrite Hc. split; [assumption|].
        now rewrite Hcol.
    + assert (Hword : join [SPACE] (split_from [c] s) = c :: collapse_runs s).
      { rewrite IHa by discriminate. reflexivity. }
      split.
      * intros cur Hcur. cbn [split_from collapse_runs]. rewrite Hc.
        rewrite IHa by discriminate. cbn [rev]. now rewrite <- app_assoc.
      * intros _. cbn [split_from collapse_runs]. rewrite Hc. split.
        -- apply PyStrFacts.split_from_nonempty. discriminate.
        -- now rewrite Hword.
Qed.

End CollapseFacts.

(** [normalize_answer] trims and collapses, as the specification says. *)
Lemma normalize_answer_spec (s : pystr) :
  normalize_answer s = MatcherSpec.normalize s.
Proof.
  unfold normalize_answer, MatcherSpec.normalize.
  rewrite <- CollapseFacts.strip_trim.
  destruct (PyStr.strip s) as [|c t] eqn:E; [reflexivity|].
  pose proof (CollapseFacts.strip_head_nonspace _ _ _ E) as Hc.
  assert (Hfix : PyStr.rstrip (c :: t) = c :: t).
  { rewrite <- E. unfold PyStr.strip. apply CollapseFacts.rstrip_idem. }
  apply CollapseFacts.rstrip_fixed_tail in Hfix.
  destruct (CollapseFacts.join_split_from t Hfix) as [Ha _].
  unfold PyStr.split. cbn [PyStr.split_from MatcherSpec.collapse_runs].
  rewrite Hc. rewrite Ha by discriminate. reflexivity.
Qed.

(** ** Answer matcher *)

Lemma check_answer_loop_true (nu : pystr) (answers : list pystr) :
  check_answer_loop nu answers = true
  <-> exists a, In a answers /\ normalize_answer a = nu.
Proof.
  induction answers as [|ans rest IH]; simpl.
  - split; [discriminate | intros (a & [] & _)].
  - destruct (str_eqb (normalize_answer ans) nu) eqn:E.
    + apply str_eqb_eq in E. split; [|reflexivity].
      intros _. exists ans. auto.
    + apply str_eqb_neq in E. rewrite IH. split.
      * intros (a & Ha & Hn). exists a. auto.
      * intros (a & [Ha | Ha] & Hn); [subst; contradiction|].
        exists a. auto.
Qed.

Example normalize_answer_ex1 :
  normalize_answer (py "  ls   -a ") = py "ls -a".
Proof. vm_compute. reflexivity. Qed.

Example check_answer_ex1 :
  check_answer (py "ls  -a") [py "ls -a"; py "ls -A"; py "ls --all"] = true.
Proof. vm_compute. reflexivity. Qed.

Example check_answer_ex2 :
  check_answer (py "ls -b") [py "ls -a"; py "ls -A"; py "ls --all"] = false.
Proof. vm_compute. reflexivity. Qed.

(** C7, as stated, fails: the accepted answer ["ls  -a"] (two spaces) is not
    string-equal to the normalized submission ["ls -a"], and the matcher
    accepts the submission all the same. *)
Lemma check_answer_not_raw_equality :
  check_answer (py "ls -a") [py "ls  -a"] = true
  /\ MatcherSpec.matches_raw (py "ls -a") [py "ls  -a"] = false
  /\ ~ (exists a, In a [py "ls  -a"] /\ a = MatcherSpec.normalize (py "ls -a")).
Proof.
  split; [vm_compute; reflexivity|].
  split; [vm_compute; reflexivity|].
  intros (a & [Ha | []] & E). subst a. vm_compute in E. discriminate.
Qed.

(** C7, amended: the matcher returns true exactly when the submission and at
    least one accepted answer are equal after both are trimmed and their
    whitespace runs collapsed to one space, and false otherwise; the equality
    is the exact equality of strings. *)
Theorem check_answer_iff (submission : pystr) (accepted : list pystr) :
  (check_answer submission accepted = true
   <-> exists a, In a accepted
                 /\ MatcherSpec.normalize a = MatcherSpec.normalize submission)
  /\ (check_answer submission accepted = false
      <-> ~ exists a, In a accepted
                      /\ MatcherSpec.normalize a = MatcherSpec.normalize submission).
Proof.
  assert (H : check_answer submission accepted = true
              <-> exists a, In a accepted
                  /\ MatcherSpec.normalize a = MatcherSpec.normalize submission).
  { unfold check_answer. rewrite check_answer_loop_true.
    split; intros (a & Ha & E); exists a; split; try assumption.
    - now rewrite <- !normalize_answer_spec.
    - now rewrite !normalize_answer_spec. }
  split; [exact H|].
  rewrite <- H. destruct (check_answer submission accepted); split; congruence.
Qed.

(** C8: the normalization is idempotent, and ["ls   -a"] and ["ls -a"] have
    the same normal form. *)
Theorem normalize_answer_idempotent :
  (forall s : pystr, normalize_answer (normalize_answer s) = normalize_answer s)
  /\ normalize_answer (py "ls   -a") = normalize_answer (py "ls -a")
  /\ normalize_answer (py "ls -a") = py "ls -a".
Proof.
  split; [exact normalize_answer_idem|].
  split; vm_compute; reflexivity.
Qed.

(** C10: normalizing the accepted answers beforehand does not change the
    verdict; an accepted answer stored with irregular whitespace matches a
    cleanly typed submission. *)
Theorem check_answer_normalized_accepted :
  (forall (s : pystr) (A : list pystr),
     check_answer s A = check_answer s (List.map normalize_answer A))
  /\ check_answer (py "ls -a") [py " ls    -a "] = true.
Proof.
  split; [|vm_compute; reflexivity].
  intros s A. unfold check_answer.
  induction A as [|a A IH]; [reflexivity|].
  simpl. rewrite normalize_answer_idem, IH. reflexivity.
Qed.

(** ** Dictionaries *)

Module PyDictFacts.
Section Facts.
Context {V : Type}.
Implicit Types (d : PyDict.t V) (k : pystr) (v : V).

Lemma get_set_eq d k v : PyDict.get (PyDict.set d k v) k = Some v.
Proof.
  induction d as [|[k' v'] d IH]; simpl.
  - now rewrite str_eqb_refl.
  - destruct (str_eqb k' k) eqn:E; simpl; rewrite E; [reflexivity | exact IH].
Qed.

Lemma get_set_ne d k k' v :
  k' <> k -> PyDict.get (PyDict.set d k v) k' = PyDict.get d k'.
Proof.
  intros Hne. induction d as [|[k0 v0] d IH]; simpl.
  - destruct (str_eqb k k') eqn:E; [|reflexivity].
    apply str_eqb_eq in E. congruence.
  - destruct (str_eqb k0 k) eqn:E; simpl.
    + apply str_eqb_eq in E. subst k0.
      destruct (str_eqb k k') eqn:E'; [|reflexivity].
      apply str_eqb_eq in E'. congruence.
    + now rewrite IH.
Qed.

Lemma get_None_keys d k : PyDict.get d k = None <-> ~ In k (PyDict.keys d).
Proof.
  induction d as [|[k' v'] d IH]; simpl; [tauto|].
  destruct (str_eqb k' k) eqn:E.
  - apply str_eqb_eq in E. subst. split; [discriminate | tauto].
  - apply str_eqb_neq in E. rewrite IH. tauto.
Qed.

Lemma contains_keys d k : PyDict.contains d k = true <-> In k (PyDict.keys d).
Proof.
  unfold PyDict.contains. destruct (PyDict.get d k) eqn:E.
  - split; [|reflexivity]. intros _.
    destruct (str_in k (PyDict.keys d)) eqn:H; [now apply str_in_In|].
    apply str_in_false, get_None_keys in H. congruence.
  - apply get_None_keys in E. split; [discriminate | contradiction].
Qed.

(** A key that is there keeps its place. *)
Lemma keys_set_present d k v :
  PyDict.get d k <> None -> PyDict.keys (PyDict.set d k v) = PyDict.keys d.
Proof.
  induction d as [|[k' v'] d IH]; simpl; [congruence|].
  destruct (str_eqb k' k) eqn:E; simpl; [reflexivity|].
  intros H. now rewrite IH.
Qed.

(** A new key goes last. *)
Lemma set_absent d k v : PyDict.get d k = None -> PyDict.set d k v = d ++ [(k, v)].
Proof.
  induction d as [|[k' v'] d IH]; simpl; [reflexivity|].
  destruct (str_eqb k' k) eqn:E; [discriminate|].
  intros H. now rewrite IH.
Qed.

Lemma del_absent d k : PyDict.get d k = None -> PyDict.del d k = d.
Proof.
  induction d as [|[k' v'] d IH]; simpl; [reflexivity|].
  destruct (str_eqb k' k) eqn:E; [discriminate|].
  intros H. now rewrite IH.
Qed.

Lemma get_del_ne d k k' : k' <> k -> PyDict.get (PyDict.del d k) k' = PyDict.get d k'.
Proof.
  intros Hne. induction d as [|[k0 v0] d IH]; simpl; [reflexivity|].
  destruct (str_eqb k0 k) eqn:E; simpl.
  - apply str_eqb_eq in E. subst k0.
    destruct (str_eqb k k') eqn:E'; [|reflexivity].
    apply str_eqb_eq in E'. congruence.
  - now rewrite IH.
Qed.

Lemma keys_del_incl d k x : In x (PyDict.keys (PyDict.del d k)) -> In x (PyDict.keys d).
Proof.
  induction d as [|[k' v'] d IH]; simpl; [tauto|].
  destruct (str_eqb k' k); simpl; tauto.
Qed.

Lemma get_del_eq d k : NoDup (PyDict.keys d) -> PyDict.get (PyDict.del d k) k = None.
Proof.
  induction d as [|[k' v'] d IH]; simpl; [reflexivity|].
  intros Hnd. inversion Hnd as [|? ? Hnotin Hnd']; subst.
  destruct (str_eqb k' k) eqn:E; simpl.
  - apply str_eqb_eq in E. subst. apply get_None_keys.
    now rewrite <- list_elem_of_In.
  - rewrite E. now apply IH.
Qed.

Lemma NoDup_keys_del d k : NoDup (PyDict.keys d) -> NoDup (PyDict.keys (PyDict.del d k)).
Proof.
  induction d as [|[k' v'] d IH]; simpl; [trivial|].
  intros Hnd. inversion Hnd as [|? ? Hnotin Hnd']; subst.
  destruct (str_eqb k' k); simpl; [assumption|].
  constructor; [|now apply IH].
  intros H. apply Hnotin. apply list_elem_of_In in H. apply list_elem_of_In.
  eapply keys_del_incl. exact H.
Qed.

Lemma keys_set_incl d k v x :
  In x (PyDict.keys (PyDict.set d k v)) -> x = k \/ In x (PyDict.keys d).
Proof.
  induction d as [|[k' v'] d IH]; simpl; [intuition|].
  destruct (str_eqb k' k); simpl; intuition.
Qed.

Lemma NoDup_keys_set d k v :
  NoDup (PyDict.keys d) -> NoDup (PyDict.keys (PyDict.set d k v)).
Proof.
  induction d as [|[k' v'] d IH]; simpl.
  - intros _. apply NoDup_singleton.
  - intros Hnd. inversion Hnd as [|? ? Hnotin Hnd']; subst.
    destruct (str_eqb k' k) eqn:E; simpl; [assumption|].
    constructor; [|now apply IH].
    intros H. apply list_elem_of_In, keys_set_incl in H.
    destruct H as [H|H]; [|now apply Hnotin, list_elem_of_In].
    apply str_eqb_neq in E. congruence.
Qed.

End Facts.
End PyDictFacts.

(** ** The stable sort *)

Section SortFacts.
Context {A : Type} (key : A -> Z).

Lemma insert_reverse_perm (x : A) (l : list A) :
  Permutation (insert_reverse key x l) (x :: l).
Proof.
  induction l as [|y l IH]; simpl; [reflexivity|].
  destruct (key x <? key y); [|reflexivity].
  rewrite IH. apply perm_swap.
Qed.

Lemma sort_reverse_perm (l : list A) : Permutation (sort_reverse key l) l.
Proof.
  induction l as [|x l IH]; simpl; [reflexivity|].
  rewrite insert_reverse_perm. now constructor.
Qed.

Lemma insert_reverse_sorted (x : A) (l : list A) :
  StronglySorted (ge_key key) l -> StronglySorted (ge_key key) (insert_reverse key x l).
Proof.
  induction l as [|y l IH]; intros Hs; simpl.
  - constructor; [constructor | constructor].
  - inversion Hs as [|? ? Hs' Hall]; subst.
    destruct (key x <? key y) eqn:E.
    + apply Z.ltb_lt in E. constructor; [now apply IH|].
      eapply Permutation_Forall.
      * symmetry. apply insert_reverse_perm.
      * constructor; [unfold ge_key; lia | assumption].
    + apply Z.ltb_ge in E. constructor; [assumption|].
      constructor; [exact E|].
      eapply List.Forall_impl; [|exact Hall].
      intros a Ha. unfold ge_key in *. lia.
Qed.

Lemma sort_reverse_sorted (l : list A) :
  StronglySorted (ge_key key) (sort_reverse key l).
Proof.
  induction l as [|x l IH]; simpl; [constructor|].
  now apply insert_reverse_sorted.
Qed.

(** Items with the same key keep the order they had. *)
Lemma insert_reverse_filter (c : Z) (x : A) (l : list A) :
  List.filter (fun y => key y =? c) (insert_reverse key x l)
  = List.filter (fun y => key y =? c) (x :: l).
Proof.
  induction l as [|y l IH]; [reflexivity|].
  cbn [insert_reverse]. destruct (key x <? key y) eqn:E; [|reflexivity].
  apply Z.ltb_lt in E. cbn [List.filter] in *.
  destruct (key y =? c) eqn:Ey; destruct (key x =? c) eqn:Ex;
    rewrite IH; try reflexivity.
  apply Z.eqb_eq in Ex, Ey. lia.
Qed.

Lemma sort_reverse_stable (c : Z) (l : list A) :
  List.filter (fun y => key y =? c) (sort_reverse key l)
  = List.filter (fun y => key y =? c) l.
Proof.
  induction l as [|x l IH]; [reflexivity|].
  cbn [sort_reverse]. rewrite insert_reverse_filter.
  cbn [List.filter]. now rewrite IH.
Qed.

End SortFacts.

(** ** Progress store *)

Lemma registry_ensure (self : ProgressTracker) :
  registry (data (_ensure_wrong_answers self)) = registry (data self).
Proof.
  unfold _ensure_wrong_answers, registry.
  destruct (wrong_answers (data self)) eqn:E; [now rewrite E | reflexivity].
Qed.

Lemma file_ensure (self : ProgressTracker) :
  progress_file (_ensure_wrong_answers self) = progress_file self.
Proof.
  unfold _ensure_wrong_answers. now destruct (wrong_answers (data self)).
Qed.

(** [_ensure_wrong_answers] touches no other key. *)
Lemma others_ensure (self : ProgressTracker) :
  with_wrong_answers (data (_ensure_wrong_answers self)) None
  = with_wrong_answers (data self) None.
Proof.
  unfold _ensure_wrong_answers. now destruct (wrong_answers (data self)).
Qed.

(** The registry operations start with [_ensure_wrong_answers]; this names
    the tracker it leaves and what is known of it. *)
Ltac ensure_wrong_answers self s1 Hr Hf Ho :=
  pose proof (registry_ensure self) as Hr;
  pose proof (file_ensure self) as Hf;
  pose proof (others_ensure self) as Ho;
  set (s1 := _ensure_wrong_answers self) in *;
  rewrite Hr.

(** *** Tallies *)

Lemma tally_attempt_lookup (m : gmap pystr Tally.t) (k : pystr) (correct : bool) :
  tally_attempt m k correct !! k
  = Some (let t := default (Tally.mk 0 0) (m !! k) in
          Tally.mk (Tally.total t + 1)
            (if correct then Tally.correct t + 1 else Tally.correct t)).
Proof.
  unfold tally_attempt.
  destruct (m !! k) as [t|] eqn:E; destruct correct; simpl;
    rewrite ?lookup_alter_eq, ?lookup_insert_eq, ?E; reflexivity.
Qed.

Lemma tally_attempt_lookup_ne (m : gmap pystr Tally.t) (k k' : pystr) (correct : bool) :
  k <> k' -> tally_attempt m k correct !! k' = m !! k'.
Proof.
  intros Hne. unfold tally_attempt.
  destruct (m !! k) as [t|] eqn:E; destruct correct;
    rewrite ?lookup_alter_ne, ?lookup_insert_ne by assumption; reflexivity.
Qed.

(** *** Achievements *)

Lemma grant_fresh (todo have : list pystr) :
  NoDup todo -> (forall a, In a todo -> ~ In a have) ->
  grant todo have = (have ++ todo, todo).
Proof.
  revert have. induction todo as [|a todo IH]; intros have Hnd Hfresh; simpl.
  - now rewrite app_nil_r.
  - inversion Hnd as [|? ? Hnotin Hnd']; subst.
    destruct (str_in a have) eqn:E.
    + apply str_in_In in E. exfalso. apply (Hfresh a); simpl; auto.
    + rewrite IH; [now rewrite <- app_assoc | assumption |].
      intros b Hb Hin. apply in_app_or in Hin. destruct Hin as [Hin | [-> | []]].
      * apply (Hfresh b); simpl; auto.
      * apply Hnotin. now apply list_elem_of_In.
Qed.

Lemma candidates_newly_unlocked (d : ProgressData) : candidates d = newly_unlocked d.
Proof.
  unfold candidates, newly_unlocked, achievement_table, candidate.
  cbn [List.filter earned].
  repeat match goal with
         | |- context [if ?b then _ else _] => destruct b
         end; reflexivity.
Qed.

Lemma newly_unlocked_In (d : ProgressData) (name : pystr) :
  In name (newly_unlocked d)
  <-> exists counter threshold,
        In (counter, threshold, name) achievement_table
        /\ threshold <= counter d /\ ~ In name (achievements d).
Proof.
  unfold newly_unlocked. rewrite in_map_iff. split.
  - intros ([[counter threshold] n] & E & Hin). simpl in E. subst n.
    apply filter_In in Hin. destruct Hin as [Hin He].
    exists counter, threshold. split; [assumption|].
    unfold earned in He. apply andb_true_iff in He. destruct He as [H1 H2].
    apply Z.leb_le in H1. apply negb_true_iff, str_in_false in H2. auto.
  - intros (counter & threshold & Hin & Hle & Hnot).
    exists (counter, threshold, name). split; [reflexivity|].
    apply filter_In. split; [assumption|].
    unfold earned. apply andb_true_iff. split.
    + now apply Z.leb_le.
    + now apply negb_true_iff, str_in_false.
Qed.

Lemma NoDup_map_filter {A B : Type} (f : A -> B) (p : A -> bool) (l : list A) :
  NoDup (List.map f l) -> NoDup (List.map f (List.filter p l)).
Proof.
  induction l as [|x l IH]; simpl; [trivial|].
  intros Hnd. inversion Hnd as [|? ? Hnotin Hnd']; subst.
  destruct (p x); simpl; [|now apply IH].
  constructor; [|now apply IH].
  intros H. apply Hnotin. apply list_elem_of_In in H. apply list_elem_of_In.
  apply in_map_iff in H. destruct H as (y & E & Hy).
  apply filter_In in Hy. apply in_map_iff. exists y. tauto.
Qed.

Lemma achievement_names_NoDup : NoDup (List.map snd achievement_table).
Proof.
  apply (NoDup_ListNoDup (List.map snd achievement_table)).
  repeat (constructor; [simpl; intuition discriminate|]). constructor.
Qed.

Lemma newly_unlocked_NoDup (d : ProgressData) : NoDup (newly_unlocked d).
Proof. apply NoDup_map_filter, achievement_names_NoDup. Qed.

Lemma check_achievements_eq (self : ProgressTracker) :
  _check_achievements self
  = (with_data self
       (with_achievements (data self)
          (achievements (data self) ++ newly_unlocked (data self))),
     newly_unlocked (data self)).
Proof.
  unfold _check_achievements. rewrite candidates_newly_unlocked.
  rewrite grant_fresh; [reflexivity | apply newly_unlocked_NoDup |].
  intros a Ha. apply newly_unlocked_In in Ha. now destruct Ha as (? & ? & _ & _ & H).
Qed.

(** After a check nothing is left to unlock. *)
Lemma newly_unlocked_after (d : ProgressData) :
  newly_unlocked (with_achievements d (achievements d ++ newly_unlocked d)) = [].
Proof.
  set (d' := with_achievements d (achievements d ++ newly_unlocked d)).
  unfold newly_unlocked at 1.
  assert (H : forall row, In row achievement_table -> earned d' row = false).
  { intros [[counter threshold] name] Hrow.
    assert (Hc : counter d' = counter d).
    { simpl in Hrow.
      repeat (destruct Hrow as [Hrow | Hrow]; [now inversion Hrow|]).
      destruct Hrow. }
    unfold earned. rewrite Hc.
    destruct (threshold <=? counter d) eqn:Hle; [|reflexivity].
    simpl. apply negb_false_iff, str_in_In. apply in_or_app.
    destruct (str_in name (achievements d)) eqn:Hin.
    - left. now apply str_in_In.
    - right. apply newly_unlocked_In. exists counter, threshold.
      split; [assumption|]. split; [now apply Z.leb_le | now apply str_in_false]. }
  assert (E : List.filter (earned d') achievement_table = []).
  { induction achievement_table as [|row t IH]; [reflexivity|].
    simpl. rewrite (H row) by (simpl; auto). apply IH.
    intros r Hr. apply H. simpl. auto. }
  now rewrite E.
Qed.

Lemma record_attempt_eq (self : ProgressTracker) (category command : pystr)
    (correct : bool) (now : pystr) :
  let d := data self in
  let d1 :=
    {| total_exercises := total_exercises d + 1;
       correct_answers := if correct then correct_answers d + 1 else correct_answers d;
       streak := if correct then streak d + 1 else 0;
       best_streak :=
         if correct then Z.max (best_streak d) (streak d + 1) else best_streak d;
       categories_completed := tally_attempt (categories_completed d) category correct;
       commands_practiced := tally_attempt (commands_practiced d) command correct;
       last_practice := Some now;
       achievements := achievements d;
       wrong_answers := wrong_answers d |} in
  let d2 := with_achievements d1 (achievements d ++ newly_unlocked d1) in
  record_attempt self category command correct now
  = ({| data := d2; progress_file := Stored d2 |}, newly_unlocked d1).
Proof.
  intros d d1 d2. unfold record_attempt. cbv zeta.
  rewrite check_achievements_eq. subst d2 d1 d.
  destruct correct; reflexivity.
Qed.

(** C1: [record_attempt] adds one to [total_exercises]; a correct attempt
    adds one to [correct_answers] and to [streak] and raises [best_streak] to
    the maximum of its old value and the new streak; an incorrect one resets
    [streak] to 0 and leaves [correct_answers] and [best_streak] as they
    were. *)
Theorem record_attempt_counters (self : ProgressTracker) (category command : pystr)
    (correct : bool) (now : pystr) :
  let d := data self in
  let d' := data (fst (record_attempt self category command correct now)) in
  total_exercises d' = total_exercises d + 1
  /\ if correct
     then correct_answers d' = correct_answers d + 1
          /\ streak d' = streak d + 1
          /\ best_streak d' = Z.max (best_streak d) (streak d')
     else streak d' = 0
          /\ correct_answers d' = correct_answers d
          /\ best_streak d' = best_streak d.
Proof.
  intros d d'. subst d'. rewrite record_attempt_eq. fold d.
  destruct correct; simpl; auto.
Qed.

(** C3, as stated, fails: a tracker whose file is up to date loses an entry
    in memory and the file still holds it. *)
Lemma remove_wrong_answer_not_saved :
  let key := wrong_key (py "file_operations") (py "ls") (py "q") in
  let entry :=
    WrongEntry.mk (py "file_operations") (py "ls") (py "q") [py "ls -a"] 1
      (py "2024-01-01T00:00:00") (py "ls -l") in
  let d := with_wrong_answers default_data (Some [(key, entry)]) in
  let self := {| data := d; progress_file := Stored d |} in
  let self' := remove_wrong_answer self key in
  registry (data self') = []
  /\ progress_file self' = Stored d
  /\ progress_file self' <> Stored (data self').
Proof.
  cbv zeta. split; [vm_compute; reflexivity|].
  split; [reflexivity|].
  intros H. apply (f_equal (fun f => match f with
                                      | Stored x => registry x
                                      | _ => []
                                      end)) in H.
  vm_compute in H. discriminate.
Qed.

Lemma remove_wrong_answer_effect (self : ProgressTracker) (key : pystr) :
  let self' := remove_wrong_answer self key in
  registry (data self') = PyDict.del (registry (data self)) key
  /\ (if PyDict.contains (registry (data self)) key
      then length (registry (data self')) < length (registry (data self))
      else registry (data self') = registry (data self))%nat
  /\ (forall k, k <> key ->
        PyDict.get (registry (data self')) k = PyDict.get (registry (data self)) k)
  /\ with_wrong_answers (data self') None = with_wrong_answers (data self) None
  /\ progress_file self' = progress_file self.
Proof.
  intros self'. subst self'. unfold remove_wrong_answer.
  ensure_wrong_answers self s1 Hr Hf Ho.
  assert (Hdel : forall d : PyDict.t WrongEntry.t,
             PyDict.contains d key = true ->
             (length (PyDict.del d key) < length d)%nat).
  { intros d. unfold PyDict.contains.
    induction d as [|[k' v'] d IH]; simpl; [discriminate|].
    destruct (str_eqb k' key); simpl; [lia|].
    intros H. apply IH in H. lia. }
  destruct (PyDict.contains (registry (data self)) key) eqn:E.
  - cbn [data with_data registry with_wrong_answers wrong_answers progress_file].
    split; [reflexivity|]. split; [now apply Hdel|].
    split; [intros k Hk; now apply PyDictFacts.get_del_ne|].
    split; [exact Ho | exact Hf].
  - rewrite Hr.
    assert (Habs : PyDict.get (registry (data self)) key = None).
    { unfold PyDict.contains in E.
      destruct (PyDict.get (registry (data self)) key); [discriminate | reflexivity]. }
    split; [now rewrite PyDictFacts.del_absent|].
    split; [reflexivity|]. split; [reflexivity|].
    split; [exact Ho | exact Hf].
Qed.

(** C3, amended: [remove_wrong_answer] deletes the entry of the key when
    there is one and leaves the registry as it is when there is none; no
    other field of the data changes, and the call does not write the
    progress file: the [record_attempt] that follows it writes the data,
    with the entry gone. *)
Theorem remove_wrong_answer_spec (self : ProgressTracker) (key : pystr) :
  let self' := remove_wrong_answer self key in
  registry (data self') = PyDict.del (registry (data self)) key
  /\ (if PyDict.contains (registry (data self)) key
      then length (registry (data self')) < length (registry (data self))
      else registry (data self') = registry (data self))%nat
  /\ (forall k, k <> key ->
        PyDict.get (registry (data self')) k = PyDict.get (registry (data self)) k)
  /\ with_wrong_answers (data self') None = with_wrong_answers (data self) None
  /\ progress_file self' = progress_file self
  /\ (forall category command correct now,
        let saved := fst (record_attempt self' category command correct now) in
        progress_file saved = Stored (data saved)
        /\ registry (data saved) = registry (data self')).
Proof.
  intros self'.
  destruct (remove_wrong_answer_effect self key) as (H1 & H2 & H3 & H4 & H5).
  fold self' in H1, H2, H3, H4, H5.
  repeat (split; [assumption|]).
  intros category command correct now. cbv zeta.
  rewrite record_attempt_eq. split; reflexivity.
Qed.

(** C4: [record_wrong_answer] looks the composite key up; an entry that is
    there gets its [wrong_count] incremented and its [last_wrong] and
    [last_user_answer] overwritten, in place; otherwise a new entry with
    [wrong_count = 1] is added, last.  The other entries and the other
    fields of the data do not change, and the progress file is not
    written. *)
Theorem record_wrong_answer_spec (self : ProgressTracker)
    (category command question : pystr) (answers : list pystr)
    (user_answer now : pystr) :
  let key := wrong_key category command question in
  let self' :=
    record_wrong_answer self category command question answers user_answer now in
  key = category ++ py "::" ++ command ++ py "::" ++ question
  /\ match PyDict.get (registry (data self)) key with
     | Some e =>
         PyDict.get (registry (data self')) key
         = Some (WrongEntry.mk (WrongEntry.category e) (WrongEntry.command e)
                   (WrongEntry.question e) (WrongEntry.answers e)
                   (WrongEntry.wrong_count e + 1) now user_answer)
         /\ PyDict.keys (registry (data self')) = PyDict.keys (registry (data self))
     | None =>
         let e := WrongEntry.mk category command question answers 1 now user_answer in
         PyDict.get (registry (data self')) key = Some e
         /\ registry (data self') = registry (data self) ++ [(key, e)]
     end
  /\ (forall k, k <> key ->
        PyDict.get (registry (data self')) k = PyDict.get (registry (data self)) k)
  /\ with_wrong_answers (data self') None = with_wrong_answers (data self) None
  /\ progress_file self' = progress_file self.
Proof.
  intros key self'. subst self'. unfold record_wrong_answer. fold key.
  ensure_wrong_answers self s1 Hr Hf Ho. split; [reflexivity|].
  destruct (PyDict.get (registry (data self)) key) as [e|] eqn:E;
    cbn [data with_data registry with_wrong_answers wrong_answers progress_file].
  - split.
    + split; [apply PyDictFacts.get_set_eq|].
      apply PyDictFacts.keys_set_present. congruence.
    + split; [intros k Hk; now apply PyDictFacts.get_set_ne|].
      split; [exact Ho | exact Hf].
  - split.
    + split; [apply PyDictFacts.get_set_eq|].
      now apply PyDictFacts.set_absent.
    + split; [intros k Hk; now apply PyDictFacts.get_set_ne|].
      split; [exact Ho | exact Hf].
Qed.

(** The second miss of the specification's scenario. *)
Example record_wrong_answer_twice :
  let miss self ua t :=
    record_wrong_answer self (py "file_operations") (py "ls") (py "q")
      [py "ls -a"] ua t in
  let self := miss (miss fresh (py "ls -l") (py "t1")) (py "ls -x") (py "t2") in
  registry (data self)
  = [(py "file_operations::ls::q",
      WrongEntry.mk (py "file_operations") (py "ls") (py "q") [py "ls -a"] 2
        (py "t2") (py "ls -x"))]
  /\ progress_file self = Missing.
Proof. vm_compute. split; reflexivity. Qed.

Lemma remove_wrong_answer_data (self : ProgressTracker) (key : pystr) :
  registry (data (remove_wrong_answer self key))
  = PyDict.del (registry (data self)) key
  /\ with_wrong_answers (data (remove_wrong_answer self key)) None
     = with_wrong_answers (data self) None.
Proof.
  unfold remove_wrong_answer.
  ensure_wrong_answers self s1 Hr Hf Ho.
  destruct (PyDict.contains (registry (data self)) key) eqn:E.
  - split; [reflexivity | exact Ho].
  - split; [|exact Ho]. rewrite Hr.
    unfold PyDict.contains in E.
    destruct (PyDict.get (registry (data self)) key) eqn:G; [discriminate|].
    now rewrite PyDictFacts.del_absent.
Qed.

Lemma record_wrong_answer_data (self : ProgressTracker)
    (category command question : pystr) (answers : list pystr)
    (user_answer now : pystr) :
  let self' :=
    record_wrong_answer self category command question answers user_answer now in
  (exists e, registry (data self')
             = PyDict.set (registry (data self))
                 (wrong_key category command question) e)
  /\ with_wrong_answers (data self') None = with_wrong_answers (data self) None.
Proof.
  intros self'. subst self'. unfold record_wrong_answer.
  ensure_wrong_answers self s1 Hr Hf Ho.
  destruct (PyDict.get (registry (data self)) _) as [e|];
    (split; [eexists; reflexivity | exact Ho]).
Qed.

(** *** Runs of operations *)

Lemma run_ops_invariant (P : ProgressTracker -> Prop) :
  (forall self op, P self -> P (apply_op self op)) ->
  forall ops self, P self -> P (run_ops self ops).
Proof.
  intros Hstep ops. unfold run_ops.
  induction ops as [|op ops IH]; intros self H; simpl; [exact H|].
  apply IH, Hstep, H.
Qed.

Lemma achievements_others (d d' : ProgressData) :
  with_wrong_answers d' None = with_wrong_answers d None ->
  achievements d' = achievements d.
Proof.
  intros H. apply (f_equal achievements) in H. exact H.
Qed.

Lemma apply_op_achievements_NoDup (self : ProgressTracker) (op : Op) :
  NoDup (achievements (data self)) ->
  NoDup (achievements (data (apply_op self op))).
Proof.
  intros Hnd. destruct op as [category command correct now
                             | category command question answers user_answer now
                             | key]; simpl.
  - rewrite record_attempt_eq. cbn [fst data achievements with_achievements].
    apply NoDup_app. split; [exact Hnd|]. split; [|apply newly_unlocked_NoDup].
    intros name Hin Hnew. apply list_elem_of_In in Hin, Hnew.
    apply newly_unlocked_In in Hnew.
    destruct Hnew as (? & ? & _ & _ & H). now apply H.
  - destruct (record_wrong_answer_data self category command question answers
                user_answer now) as [_ Ho].
    now rewrite (achievements_others _ _ Ho).
  - destruct (remove_wrong_answer_data self key) as [_ Ho].
    now rewrite (achievements_others _ _ Ho).
Qed.

Lemma run_ops_achievements_NoDup (ops : list Op) :
  NoDup (achievements (data (run_ops fresh ops))).
Proof.
  apply (run_ops_invariant (fun s => NoDup (achievements (data s)))).
  - apply apply_op_achievements_NoDup.
  - apply NoDup_nil_2.
Qed.

(** C5: the achievement check appends the identifiers of the table rows
    whose counter has reached the threshold and which are not in the
    achievements yet, in table order, each once; it removes nothing; a second
    check appends and prints nothing; from a first launch on, no run of store
    operations makes an identifier appear twice. *)
Theorem check_achievements_once (self : ProgressTracker) :
  let d := data self in
  let self' := fst (_check_achievements self) in
  achievements (data self') = achievements d ++ newly_unlocked d
  /\ (forall name,
        In name (newly_unlocked d)
        <-> exists counter threshold,
              In (counter, threshold, name) achievement_table
              /\ threshold <= counter d /\ ~ In name (achievements d))
  /\ NoDup (newly_unlocked d)
  /\ _check_achievements self' = (self', [])
  /\ (forall category command correct now,
        let r := record_attempt self category command correct now in
        achievements (data (fst r)) = achievements d ++ snd r
        /\ NoDup (snd r)
        /\ (forall name, In name (snd r) -> ~ In name (achievements d))
        /\ snd (_check_achievements (fst r)) = [])
  /\ (forall ops, NoDup (achievements (data (run_ops fresh ops)))).
Proof.
  intros d self'. subst self'. rewrite check_achievements_eq.
  cbn [fst data with_data achievements with_achievements].
  split; [reflexivity|].
  split; [apply newly_unlocked_In|].
  split; [apply newly_unlocked_NoDup|].
  split; [|split; [|intros ops; apply run_ops_achievements_NoDup]].
  - rewrite check_achievements_eq.
    cbn [data with_data]. rewrite newly_unlocked_after.
    cbn [achievements with_achievements]. rewrite app_nil_r.
    destruct self as [[] ?]; reflexivity.
  - intros category command correct now.
    rewrite record_attempt_eq. cbn [fst snd data achievements with_achievements].
    split; [reflexivity|].
    split; [apply newly_unlocked_NoDup|].
    split.
    + intros name Hn. apply newly_unlocked_In in Hn.
      now destruct Hn as (? & ? & _ & _ & H).
    + rewrite check_achievements_eq. cbn [snd data].
      match goal with
      | |- newly_unlocked (with_achievements ?d1 _) = [] =>
          pose proof (newly_unlocked_after d1) as H
      end.
      cbn [achievements with_achievements] in H.
      exact H.
Qed.

(** *** Invariants *)

Lemma store_inv_others (d d' : ProgressData) :
  with_wrong_answers d' None = with_wrong_answers d None ->
  NoDup (PyDict.keys (registry d')) ->
  store_inv d -> store_inv d'.
Proof.
  intros Ho Hnd (Hs & Hc & _).
  pose proof (f_equal streak Ho) as E1.
  pose proof (f_equal best_streak Ho) as E2.
  pose proof (f_equal correct_answers Ho) as E3.
  pose proof (f_equal total_exercises Ho) as E4.
  simpl in E1, E2, E3, E4.
  unfold store_inv. rewrite E1, E2, E3, E4. auto.
Qed.

Lemma apply_op_store_inv (self : ProgressTracker) (op : Op) :
  store_inv (data self) -> store_inv (data (apply_op self op)).
Proof.
  intros Hinv.
  destruct op as [category command correct now
                 | category command question answers user_answer now
                 | key]; simpl.
  - destruct Hinv as (Hs & Hc & Hnd).
    rewrite record_attempt_eq. unfold store_inv.
    cbn [fst data streak best_streak correct_answers total_exercises
           with_achievements registry wrong_answers].
    split; [destruct correct; lia|].
    split; [destruct correct; lia | exact Hnd].
  - destruct (record_wrong_answer_data self category command question answers
                user_answer now) as [[e He] Ho].
    apply (store_inv_others (data self)); [exact Ho | | exact Hinv].
    rewrite He. apply PyDictFacts.NoDup_keys_set. apply Hinv.
  - destruct (remove_wrong_answer_data self key) as [Hr Ho].
    apply (store_inv_others (data self)); [exact Ho | | exact Hinv].
    rewrite Hr. apply PyDictFacts.NoDup_keys_del. apply Hinv.
Qed.

(** C6: a first launch starts from the zeroed data, and after any sequence
    of [record_attempt], [record_wrong_answer] and [remove_wrong_answer] the
    best streak is at least the streak, the correct answers are at most the
    exercises, and no composite key has two entries in the registry. *)
Theorem store_invariants (ops : list Op) :
  let d := data (run_ops fresh ops) in
  data fresh = default_data
  /\ best_streak d >= streak d
  /\ correct_answers d <= total_exercises d
  /\ NoDup (PyDict.keys (registry d)).
Proof.
  intros d. split; [reflexivity|].
  assert (H : store_inv d).
  { subst d. apply (run_ops_invariant (fun s => store_inv (data s))).
    - apply apply_op_store_inv.
    - unfold store_inv. simpl. split; [lia|]. split; [lia | apply NoDup_nil_2]. }
  destruct H as (Hs & Hc & Hnd).
  split; [lia|]. split; [lia | exact Hnd].
Qed.

(** *** The list of wrong exercises *)

Lemma get_wrong_exercises_eq (self : ProgressTracker) :
  fst (get_wrong_exercises self)
  = sort_reverse WrongExercise.wrong_count (registry_items (data self)).
Proof.
  unfold get_wrong_exercises, registry_items, PyDict.items. simpl.
  now rewrite registry_ensure.
Qed.

(** C9: [get_wrong_exercises] returns the entries of the registry, one item
    for every stored key with the fields of its entry, in an order in which
    every item has a [wrong_count] at least as large as those after it. *)
Theorem get_wrong_exercises_sorted (self : ProgressTracker) :
  let l := fst (get_wrong_exercises self) in
  Permutation l
    (List.map (fun '(key, entry) => WrongExercise.mk key entry) (registry (data self)))
  /\ length l = length (registry (data self))
  /\ StronglySorted
       (fun a b => WrongExercise.wrong_count b <= WrongExercise.wrong_count a) l.
Proof.
  intros l. subst l. rewrite get_wrong_exercises_eq.
  split; [apply sort_reverse_perm|].
  split.
  - rewrite (Permutation_length (sort_reverse_perm _ _)).
    unfold registry_items. apply length_map.
  - apply (sort_reverse_sorted WrongExercise.wrong_count).
Qed.

(** X11: Entries with the same [wrong_count] come in the order of the registry. *)
Lemma get_wrong_exercises_ties (self : ProgressTracker) (c : Z) :
  List.filter (fun x => WrongExercise.wrong_count x =? c)
    (fst (get_wrong_exercises self))
  = List.filter (fun x => WrongExercise.wrong_count x =? c)
      (registry_items (data self)).
Proof. rewrite get_wrong_exercises_eq. apply sort_reverse_stable. Qed.

Example get_wrong_exercises_order :
  let e n := WrongEntry.mk (py "c") (py "m") (py "q") [py "a"] n (py "t") (py "u") in
  let d := with_wrong_answers default_data
             (Some [(py "k1", e 1); (py "k2", e 3); (py "k3", e 1); (py "k4", e 3)]) in
  List.map WrongExercise.key
    (fst (get_wrong_exercises {| data := d; progress_file := Missing |}))
  = [py "k2"; py "k4"; py "k1"; py "k3"].
Proof. vm_compute. reflexivity. Qed.

(** ** Session engine *)

Section EngineFacts.
Variable lower : pystr -> pystr.
Variable now : nat -> pystr.
Variable COMMANDS_DB : PyDict.t Category.t.

Lemma stdout_call_record_attempt (category command : pystr) (correct : bool)
    (w : World) (o : Output) :
  In o (stdout w) -> In o (stdout (call_record_attempt now category command correct w)).
Proof.
  intros H. unfold call_record_attempt.
  destruct (record_attempt _ _ _ _ _) as [p printed]. simpl.
  apply in_or_app. now left.
Qed.

(** A skip in [practice_category] and [random_practice]. *)
Lemma ask_skip (category_key : pystr) (ex : Exercise.t) (line : pystr)
    (inputs : list pystr) (s : Session) (a : pystr) (others : list pystr) :
  lower (PyStr.strip line) = py "skip" ->
  Exercise.answers ex = a :: others ->
  exists s',
    ask lower now category_key ex (line :: inputs) s = (LeftNext, inputs, s')
    /\ progress (world s')
       = failure_bookkeeping now (ticks (world s)) category_key (Exercise.command ex)
           (Exercise.question ex) (Exercise.answers ex) SKIPPED (progress (world s))
    /\ In (OutSkip a) (stdout (world s'))
    /\ session_total s' = session_total s + 1
    /\ session_correct s' = session_correct s.
Proof.
  intros Hskip Hans. cbn [ask]. rewrite Hskip, Hans.
  change (str_eqb (py "skip") (py "quit")) with false.
  change (str_eqb (py "skip") (py "skip")) with true.
  cbv iota. eexists. split; [reflexivity|].
  unfold failure_bookkeeping, count_total, on_world, call_record_wrong_answer.
  cbn [world session_total session_correct progress stdout ticks].
  split; [|split; [|split; reflexivity]].
  - unfold call_record_attempt. cbn [print progress ticks stdout].
    destruct (record_attempt _ _ _ _ _) as [p printed]. reflexivity.
  - apply stdout_call_record_attempt. cbn [print stdout].
    apply in_or_app. right. simpl. auto.
Qed.

(** A submission that no accepted answer matches, in the same loops. *)
Lemma ask_failed (category_key : pystr) (ex : Exercise.t) (line : pystr)
    (inputs : list pystr) (s : Session) (a : pystr) (others : list pystr) :
  lower (PyStr.strip line) <> py "quit" ->
  lower (PyStr.strip line) <> py "skip" ->
  lower (PyStr.strip line) <> py "hint" ->
  PyStr.strip line <> [] ->
  check_answer (PyStr.strip line) (Exercise.answers ex) = false ->
  Exercise.answers ex = a :: others ->
  exists s',
    ask lower now category_key ex (line :: inputs) s = (LeftNext, inputs, s')
    /\ progress (world s')
       = failure_bookkeeping now (ticks (world s)) category_key (Exercise.command ex)
           (Exercise.question ex) (Exercise.answers ex) (PyStr.strip line)
           (progress (world s))
    /\ In (OutAnswer a) (stdout (world s'))
    /\ session_total s' = session_total s + 1
    /\ session_correct s' = session_correct s.
Proof.
  intros Hq Hs Hh Hne Hchk Hans. cbn [ask].
  apply str_eqb_neq in Hq, Hs, Hh. rewrite Hq, Hs, Hh.
  destruct (PyStr.strip line) as [|c u] eqn:E; [congruence|].
  rewrite Hchk, Hans. eexists. split; [reflexivity|].
  unfold failure_bookkeeping, count_total, on_world, call_record_wrong_answer.
  cbn [world session_total session_correct progress stdout ticks].
  split; [|split; [|split; reflexivity]].
  - unfold call_record_attempt.
    assert (Hp : forall w, progress (print_answers a others w) = progress w
                           /\ ticks (print_answers a others w) = ticks w).
    { intros w. unfold print_answers. destruct others; simpl; auto. }
    destruct (Hp (print OutWrong (print OutPrompt (world s)))) as [Hp1 Hp2].
    rewrite Hp1, Hp2. cbn [print progress ticks].
    destruct (record_attempt _ _ _ _ _) as [p printed]. reflexivity.
  - apply stdout_call_record_attempt. unfold print_answers.
    destruct others; cbn [print stdout]; rewrite !in_app_iff; simpl; auto.
Qed.

(** A skip in [practice_wrong_answers]: the answer is shown, the tracker is
    not called. *)
Lemma ask_wrong_skip (ex : WrongExercise.t) (examples : list pystr) (line : pystr)
    (inputs : list pystr) (r : Replay) (a : pystr) (others : list pystr) :
  lower (PyStr.strip line) = py "skip" ->
  WrongEntry.answers (WrongExercise.entry ex) = a :: others ->
  ask_wrong lower now ex examples (line :: inputs) r
  = (LeftNext, inputs,
     on_replay (print (OutSkip a)) (on_replay (print OutPrompt) r)).
Proof.
  intros Hskip Hans. cbn [ask_wrong]. rewrite Hskip, Hans.
  change (str_eqb (py "skip") (py "quit")) with false.
  change (str_eqb (py "skip") (py "skip")) with true.
  reflexivity.
Qed.

End EngineFacts.

(** C2 at the replay of wrong answers: with one entry in the registry and the
    inputs [skip] and Enter, [practice_wrong_answers] shows the answer, goes
    on and returns with the tracker as it was; it neither counts an attempt
    nor touches the entry.  On the same tracker and inputs,
    [practice_category] does the bookkeeping of a failed submission: one
    exercise counted and a second miss on the entry. *)
Lemma replay_skip_no_bookkeeping :
  let clock := fun _ : nat => py "2024-01-01T00:00:00" in
  let corpus :=
    [(py "file_operations",
      Category.mk (py "Files") (py "F")
        [Command.mk (py "ls") (py "list") [py "ls -l"]
           [CorpusExercise.mk (py "q") [py "ls -a"]]])] in
  let key := wrong_key (py "file_operations") (py "ls") (py "q") in
  let entry :=
    WrongEntry.mk (py "file_operations") (py "ls") (py "q") [py "ls -a"] 1
      (py "2024-01-01T00:00:00") (py "ls -l") in
  let d := with_wrong_answers default_data (Some [(key, entry)]) in
  let p := {| data := d; progress_file := Stored d |} in
  let w := {| progress := p; ticks := 0; stdout := [] |} in
  let inputs := [py "skip"; py ""] in
  let replay := practice_wrong_answers ascii_lower clock corpus inputs w in
  let category :=
    practice_category ascii_lower clock (fun _ l => l) corpus
      (py "file_operations") inputs w in
  let missed :=
    failure_bookkeeping clock 0 (py "file_operations") (py "ls") (py "q")
      [py "ls -a"] SKIPPED p in
  fst replay = (Returned, [])
  /\ stdout (snd replay)
     = [OutBannerWrong 1;
        OutQuestionWrong 1 1 (py "Files") 1 (py "ls") (py "q");
        OutPrompt; OutSkip (py "ls -a"); OutRule;
        OutDoneWrong 0 1; OutSummary 0 1 0; OutPressEnter]
  /\ progress (snd replay) = p
  /\ total_exercises (data (progress (snd replay))) = 0
  /\ option_map WrongEntry.wrong_count
       (PyDict.get (registry (data (progress (snd replay)))) key) = Some 1
  /\ fst category = (Returned, [])
  /\ progress (snd category) = missed
  /\ total_exercises (data missed) = 1
  /\ option_map WrongEntry.wrong_count (PyDict.get (registry (data missed)) key)
     = Some 2
  /\ progress (snd replay) <> missed.
Proof.
  cbv zeta.
  assert (E : forall x y : ProgressTracker,
             total_exercises (data x) <> total_exercises (data y) -> x <> y)
    by congruence.
  repeat split; try (vm_compute; reflexivity).
  apply E. vm_compute. discriminate.
Qed.

(** A skip, mode by mode: in the practice of a category and in the random
    practice it does the bookkeeping of a failed submission, [record_attempt]
    with [False] and [record_wrong_answer], with the skip marker as the
    answer; in these two modes and in the replay of wrong answers it shows
    the first accepted answer and goes on to the next exercise. *)
Theorem skip_in_each_mode (lower : pystr -> pystr) (now : nat -> pystr)
    (COMMANDS_DB : PyDict.t Category.t) (line : pystr) (inputs : list pystr)
    (a : pystr) (others : list pystr)
    (Hskip : lower (PyStr.strip line) = py "skip") :
  (forall category_key ex rest n len s,
     Exercise.answers ex = a :: others ->
     exists s',
       category_loop lower now category_key (ex :: rest) n len (line :: inputs) s
       = category_loop lower now category_key rest (S n) len inputs s'
       /\ progress (world s')
          = failure_bookkeeping now (ticks (world s)) category_key
              (Exercise.command ex) (Exercise.question ex) (Exercise.answers ex)
              SKIPPED (progress (world s))
       /\ In (OutSkip a) (stdout (world s'))
       /\ session_total s' = session_total s + 1
       /\ session_correct s' = session_correct s)
  /\ (forall rex rest n len s,
        Exercise.answers (RandomExercise.exercise rex) = a :: others ->
        exists s',
          random_loop lower now (rex :: rest) n len (line :: inputs) s
          = random_loop lower now rest (S n) len inputs s'
          /\ progress (world s')
             = failure_bookkeeping now (ticks (world s))
                 (RandomExercise.category_key rex)
                 (Exercise.command (RandomExercise.exercise rex))
                 (Exercise.question (RandomExercise.exercise rex))
                 (Exercise.answers (RandomExercise.exercise rex))
                 SKIPPED (progress (world s))
          /\ In (OutSkip a) (stdout (world s'))
          /\ session_total s' = session_total s + 1
          /\ session_correct s' = session_correct s)
  /\ (forall ex rest n len r,
        WrongEntry.answers (WrongExercise.entry ex) = a :: others ->
        exists r',
          wrong_loop lower now COMMANDS_DB (ex :: rest) n len (line :: inputs) r
          = wrong_loop lower now COMMANDS_DB rest (S n) len inputs r'
          /\ In (OutSkip a) (stdout (replay_world r'))
          /\ removed_count r' = removed_count r)
  /\ (forall category_key ex submission more s,
        lower (PyStr.strip submission) <> py "quit" ->
        lower (PyStr.strip submission) <> py "skip" ->
        lower (PyStr.strip submission) <> py "hint" ->
        PyStr.strip submission <> [] ->
        check_answer (PyStr.strip submission) (Exercise.answers ex) = false ->
        Exercise.answers ex = a :: others ->
        exists s',
          ask lower now category_key ex (submission :: more) s = (LeftNext, more, s')
          /\ progress (world s')
             = failure_bookkeeping now (ticks (world s)) category_key
                 (Exercise.command ex) (Exercise.question ex) (Exercise.answers ex)
                 (PyStr.strip submission) (progress (world s))).
Proof.
  split; [|split; [|split]].
  - intros category_key ex rest n len s Hans. cbn [category_loop].
    match goal with
    | |- context [ask lower now category_key ex (line :: inputs) ?s0] =>
        destruct (ask_skip lower now category_key ex line inputs s0 a others
                    Hskip Hans) as (s1 & E & Hp & Hout & Ht & Hc)
    end.
    rewrite E. eexists. split; [reflexivity|].
    cbn [on_world world session_total session_correct print progress stdout] in *.
    split; [exact Hp|]. split; [|split; assumption].
    apply in_or_app. now left.
  - intros rex rest n len s Hans. cbn [random_loop].
    match goal with
    | |- context [ask lower now ?k ?e (line :: inputs) ?s0] =>
        destruct (ask_skip lower now k e line inputs s0 a others
                    Hskip Hans) as (s1 & E & Hp & Hout & Ht & Hc)
    end.
    rewrite E. eexists. split; [reflexivity|].
    cbn [on_world world session_total session_correct print progress stdout] in *.
    split; [exact Hp|]. split; [|split; assumption].
    apply in_or_app. now left.
  - intros ex rest n len r Hans. cbn [wrong_loop].
    rewrite (ask_wrong_skip lower now _ _ _ _ _ a others Hskip Hans).
    eexists. split; [reflexivity|].
    cbn [on_replay replay_world removed_count print stdout].
    split; [|reflexivity].
    rewrite !in_app_iff. simpl. auto.
  - intros category_key ex submission more s Hq Hs Hh Hne Hchk Hans.
    destruct (ask_failed lower now category_key ex submission more s a others
                Hq Hs Hh Hne Hchk Hans) as (s1 & E & Hp & _).
    exists s1. auto.
Qed.

(** A run: the learner types [ SKIP ] at the only exercise of a category
    practice. *)
Lemma skip_in_each_mode_witness :
  let clock := fun n : nat => py (if Nat.eqb n 0 then "t0" else "t1") in
  let ex := Exercise.mk (py "ls") (py "list") [py "ls -l"] (py "q") [py "ls -a"] in
  let s := {| world := {| progress := fresh; ticks := 0; stdout := [] |};
              session_total := 0; session_correct := 0 |} in
  ascii_lower (PyStr.strip (py " SKIP ")) = py "skip"
  /\ exists s',
       category_loop ascii_lower clock (py "file_operations") [ex] 0 1 [py " SKIP "] s
       = (None, [], s')
       /\ total_exercises (data (progress (world s'))) = 1
       /\ streak (data (progress (world s'))) = 0
       /\ PyDict.keys (registry (data (progress (world s'))))
          = [py "file_operations::ls::q"]
       /\ In (OutSkip (py "ls -a")) (stdout (world s')).
Proof.
  cbv zeta. split; [reflexivity|].
  destruct (skip_in_each_mode ascii_lower
              (fun n : nat => py (if Nat.eqb n 0 then "t0" else "t1"))
              [] (py " SKIP ") [] (py "ls -a") [] eq_refl) as [H _].
  destruct (H (py "file_operations")
              (Exercise.mk (py "ls") (py "list") [py "ls -l"] (py "q") [py "ls -a"])
              [] 0%nat 1%nat
              {| world := {| progress := fresh; ticks := 0; stdout := [] |};
                 session_total := 0; session_correct := 0 |} eq_refl)
    as (s' & E & Hp & Hout & _).
  exists s'. split; [exact E|].
  rewrite Hp. split; [reflexivity|]. split; [reflexivity|].
  split; [reflexivity | exact Hout].
Defined.

(** * More on the progress store *)

(** ** Runs, one operation at a time *)

Lemma run_ops_app (self : ProgressTracker) (ops1 ops2 : list Op) :
  run_ops self (ops1 ++ ops2) = run_ops (run_ops self ops1) ops2.
Proof. unfold run_ops. apply fold_left_app. Qed.

Lemma run_ops_snoc (self : ProgressTracker) (ops : list Op) (op : Op) :
  run_ops self (ops ++ [op]) = apply_op (run_ops self ops) op.
Proof. now rewrite run_ops_app. Qed.

Lemma attempts_app (ops1 ops2 : list Op) :
  attempts (ops1 ++ ops2) = attempts ops1 ++ attempts ops2.
Proof. unfold attempts. apply flat_map_app. Qed.

(** The registry operations leave every field but the registry. *)
Lemma apply_op_others (self : ProgressTracker) (op : Op) :
  match op with
  | OpRecordAttempt _ _ _ _ => True
  | _ => with_wrong_answers (data (apply_op self op)) None
         = with_wrong_answers (data self) None
  end.
Proof.
  destruct op as [category command correct now
                 | category command question answers user_answer now
                 | key]; simpl; [trivial | |].
  - apply record_wrong_answer_data.
  - apply remove_wrong_answer_data.
Qed.

Lemma apply_op_keeps (self : ProgressTracker) (op : Op) :
  match op with OpRecordAttempt _ _ _ _ => False | _ => True end ->
  let d := data self in
  let d' := data (apply_op self op) in
  total_exercises d' = total_exercises d
  /\ correct_answers d' = correct_answers d
  /\ streak d' = streak d
  /\ best_streak d' = best_streak d
  /\ achievements d' = achievements d
  /\ categories_completed d' = categories_completed d
  /\ commands_practiced d' = commands_practiced d.
Proof.
  intros Hop. pose proof (apply_op_others self op) as Ho.
  destruct op; [destruct Hop | |]; cbv zeta;
    (split; [exact (f_equal total_exercises Ho)|];
     split; [exact (f_equal correct_answers Ho)|];
     split; [exact (f_equal streak Ho)|];
     split; [exact (f_equal best_streak Ho)|];
     split; [exact (f_equal achievements Ho)|];
     split; [exact (f_equal categories_completed Ho)
            | exact (f_equal commands_practiced Ho)]).
Qed.

(** The counters an attempt leaves. *)
Lemma apply_op_attempt (self : ProgressTracker) (category command : pystr)
    (correct : bool) (now : pystr) :
  let d := data self in
  let d' := data (apply_op self (OpRecordAttempt category command correct now)) in
  total_exercises d' = total_exercises d + 1
  /\ correct_answers d' = (if correct then correct_answers d + 1 else correct_answers d)
  /\ streak d' = (if correct then streak d + 1 else 0)
  /\ best_streak d'
     = (if correct then Z.max (best_streak d) (streak d + 1) else best_streak d)
  /\ categories_completed d' = tally_attempt (categories_completed d) category correct
  /\ commands_practiced d' = tally_attempt (commands_practiced d) command correct
  /\ wrong_answers d' = wrong_answers d.
Proof.
  cbv zeta. simpl. rewrite record_attempt_eq. simpl. repeat split.
Qed.

(** ** Counters *)

Lemma count_true_app (l1 l2 : list bool) :
  count_true (l1 ++ l2) = count_true l1 + count_true l2.
Proof. unfold count_true. rewrite List.filter_app, length_app. lia. Qed.

(** X1: The totals count the attempts: after a run, [total_exercises] has grown
    by the number of attempts and [correct_answers] by the number of correct
    ones; from a first launch they are these numbers. *)
Theorem run_ops_counts (self : ProgressTracker) (ops : list Op) :
  let verdicts := List.map snd (attempts ops) in
  total_exercises (data (run_ops self ops))
  = total_exercises (data self) + Z.of_nat (length verdicts)
  /\ correct_answers (data (run_ops self ops))
     = correct_answers (data self) + count_true verdicts
  /\ total_exercises (data (run_ops fresh ops)) = Z.of_nat (length verdicts)
  /\ correct_answers (data (run_ops fresh ops)) = count_true verdicts.
Proof.
  cbv zeta.
  assert (H : forall self,
             total_exercises (data (run_ops self ops))
             = total_exercises (data self)
               + Z.of_nat (length (List.map snd (attempts ops)))
             /\ correct_answers (data (run_ops self ops))
                = correct_answers (data self)
                  + count_true (List.map snd (attempts ops))).
  { clear self. induction ops as [|op ops IH]; intros self.
    - unfold count_true. simpl. lia.
    - change (run_ops self (op :: ops)) with (run_ops (apply_op self op) ops).
      change (op :: ops) with ([op] ++ ops).
      rewrite attempts_app, map_app, length_app, count_true_app.
      destruct (IH (apply_op self op)) as [Ht Hc]. rewrite Ht, Hc.
      destruct op as [category command correct now | |].
      + destruct (apply_op_attempt self category command correct now)
          as (E1 & E2 & _).
        rewrite E1, E2. unfold count_true. destruct correct; simpl; lia.
      + match goal with
        | |- context [apply_op self ?op] =>
            destruct (apply_op_keeps self op I) as (E1 & E2 & _)
        end.
        rewrite E1, E2. unfold count_true. simpl. lia.
      + match goal with
        | |- context [apply_op self ?op] =>
            destruct (apply_op_keeps self op I) as (E1 & E2 & _)
        end.
        rewrite E1, E2. unfold count_true. simpl. lia. }
  destruct (H self) as [H1 H2]. destruct (H fresh) as [H3 H4].
  simpl in H3, H4. repeat split; assumption.
Qed.

Lemma apply_op_grows (self : ProgressTracker) (op : Op) :
  let d := data self in
  let d' := data (apply_op self op) in
  total_exercises d <= total_exercises d'
  /\ correct_answers d <= correct_answers d'
  /\ best_streak d <= best_streak d'
  /\ exists added, achievements d' = achievements d ++ added.
Proof.
  cbv zeta.
  destruct op as [category command correct now | |].
  - destruct (apply_op_attempt self category command correct now)
      as (E1 & E2 & _ & E4 & _).
    rewrite E1, E2, E4. split; [lia|]. split; [destruct correct; lia|].
    split; [destruct correct; lia|].
    simpl. rewrite record_attempt_eq. simpl. eexists. reflexivity.
  - match goal with
    | |- context [apply_op self ?op] =>
        destruct (apply_op_keeps self op I) as (E1 & E2 & _ & E3 & E4 & _)
    end.
    rewrite E1, E2, E3, E4.
    repeat split; try lia. exists []. now rewrite app_nil_r.
  - match goal with
    | |- context [apply_op self ?op] =>
        destruct (apply_op_keeps self op I) as (E1 & E2 & _ & E3 & E4 & _)
    end.
    rewrite E1, E2, E3, E4.
    repeat split; try lia. exists []. now rewrite app_nil_r.
Qed.

(** X2: No operation takes anything back: the totals and the best streak never
    go down and the achievements only get longer. *)
Theorem apply_op_monotone (self : ProgressTracker) (op : Op) :
  let d := data self in
  let d' := data (apply_op self op) in
  total_exercises d <= total_exercises d'
  /\ correct_answers d <= correct_answers d'
  /\ best_streak d <= best_streak d'
  /\ exists added, achievements d' = achievements d ++ added.
Proof. apply apply_op_grows. Qed.

(** ** Streaks *)

Lemma verdicts_snoc (ops : list Op) (op : Op) :
  List.map snd (attempts (ops ++ [op]))
  = List.map snd (attempts ops)
    ++ match op with
       | OpRecordAttempt _ _ correct _ => [correct]
       | _ => []
       end.
Proof.
  rewrite attempts_app, map_app. f_equal.
  destruct op; reflexivity.
Qed.

(** X3: From a first launch, [streak] is the number of correct attempts since the
    last incorrect one. *)
Theorem streak_counts_trailing_correct (ops : list Op) :
  streak (data (run_ops fresh ops))
  = Z.of_nat (leading_true (rev (List.map snd (attempts ops)))).
Proof.
  induction ops as [|op ops IH] using rev_ind; [reflexivity|].
  rewrite run_ops_snoc, verdicts_snoc.
  destruct op as [category command correct now | |].
  - destruct (apply_op_attempt (run_ops fresh ops) category command correct now)
      as (_ & _ & E & _).
    rewrite E, rev_app_distr. cbn [rev app leading_true].
    destruct correct; [rewrite IH; lia | reflexivity].
  - match goal with
    | |- context [apply_op ?t ?op] =>
        destruct (apply_op_keeps t op I) as (_ & _ & E & _)
    end.
    now rewrite E, app_nil_r.
  - match goal with
    | |- context [apply_op ?t ?op] =>
        destruct (apply_op_keeps t op I) as (_ & _ & E & _)
    end.
    now rewrite E, app_nil_r.
Qed.

Lemma run_ops_best_streak_le (ops : list Op) (self : ProgressTracker) :
  best_streak (data self) <= best_streak (data (run_ops self ops)).
Proof.
  revert self. induction ops as [|op ops IH]; intros self; [simpl; lia|].
  change (run_ops self (op :: ops)) with (run_ops (apply_op self op) ops).
  specialize (IH (apply_op self op)).
  destruct (apply_op_grows self op) as (_ & _ & H & _). lia.
Qed.

Lemma run_ops_store_inv (ops : list Op) : store_inv (data (run_ops fresh ops)).
Proof.
  apply (run_ops_invariant (fun s => store_inv (data s))).
  - apply apply_op_store_inv.
  - unfold store_inv. simpl. split; [lia|]. split; [lia | apply NoDup_nil_2].
Qed.

(** X4: From a first launch, [best_streak] is the high-water mark of [streak]:
    no earlier moment of the run had a longer streak, and one moment had
    exactly this one. *)
Theorem best_streak_high_water (ops : list Op) :
  let best := best_streak (data (run_ops fresh ops)) in
  (forall before after,
     ops = before ++ after -> streak (data (run_ops fresh before)) <= best)
  /\ (exists before after,
        ops = before ++ after /\ streak (data (run_ops fresh before)) = best).
Proof.
  cbv zeta. split.
  - intros before after ->. rewrite run_ops_app.
    pose proof (run_ops_best_streak_le after (run_ops fresh before)) as H.
    destruct (run_ops_store_inv before) as (Hs & _). lia.
  - induction ops as [|op ops IH] using rev_ind.
    + exists [], []. split; reflexivity.
    + destruct IH as (before & after & -> & IH).
      rewrite run_ops_snoc.
      set (t := run_ops fresh (before ++ after)) in *.
      assert (Hkeep : best_streak (data (apply_op t op)) = best_streak (data t) ->
                      exists b a,
                        (before ++ after) ++ [op] = b ++ a
                        /\ streak (data (run_ops fresh b))
                           = best_streak (data (apply_op t op))).
      { intros E. exists before, (after ++ [op]).
        split; [now rewrite app_assoc | now rewrite E]. }
      assert (Hnew : streak (data (apply_op t op)) = best_streak (data (apply_op t op)) ->
                     exists b a,
                       (before ++ after) ++ [op] = b ++ a
                       /\ streak (data (run_ops fresh b))
                          = best_streak (data (apply_op t op))).
      { intros E. exists ((before ++ after) ++ [op]), [].
        split; [now rewrite app_nil_r|]. rewrite run_ops_snoc. exact E. }
      destruct op as [category command correct now | |].
      * destruct (apply_op_attempt t category command correct now)
          as (_ & _ & E3 & E4 & _).
        destruct correct; [|now apply Hkeep].
        destruct (Z.max_spec (best_streak (data t)) (streak (data t) + 1))
          as [[_ Hm] | [_ Hm]].
        -- apply Hnew. rewrite E3, E4. lia.
        -- apply Hkeep. rewrite E4. exact Hm.
      * apply Hkeep.
        match goal with
        | |- context [apply_op t ?op] =>
            destruct (apply_op_keeps t op I) as (_ & _ & _ & E & _)
        end.
        exact E.
      * apply Hkeep.
        match goal with
        | |- context [apply_op t ?op] =>
            destruct (apply_op_keeps t op I) as (_ & _ & _ & E & _)
        end.
        exact E.
Qed.

(** ** Tallies *)

Lemma tally_of_snoc (l : list bool) (b : bool) :
  tally_of (l ++ [b])
  = Some (let t := default (Tally.mk 0 0) (tally_of l) in
          Tally.mk (Tally.total t + 1)
            (if b then Tally.correct t + 1 else Tally.correct t)).
Proof.
  assert (H : tally_of (l ++ [b])
              = Some (Tally.mk (Z.of_nat (length (l ++ [b]))) (count_true (l ++ [b])))).
  { unfold tally_of. now destruct l. }
  rewrite H, length_app, count_true_app. f_equal.
  destruct l as [|a l].
  - destruct b; reflexivity.
  - cbn [tally_of default Tally.total Tally.correct].
    f_equal; [simpl; lia|].
    unfold count_true at 2. destruct b; simpl; lia.
Qed.

Lemma category_verdicts_snoc (c : pystr) (ops : list Op) (op : Op) :
  category_verdicts c (ops ++ [op])
  = category_verdicts c ops
    ++ match op with
       | OpRecordAttempt category _ correct _ =>
           if str_eqb category c then [correct] else []
       | _ => []
       end.
Proof.
  unfold category_verdicts. rewrite attempts_app, List.filter_app, map_app.
  f_equal. destruct op as [category command correct now | |]; try reflexivity.
  simpl. now destruct (str_eqb category c).
Qed.

Lemma command_verdicts_snoc (m : pystr) (ops : list Op) (op : Op) :
  command_verdicts m (ops ++ [op])
  = command_verdicts m ops
    ++ match op with
       | OpRecordAttempt _ command correct _ =>
           if str_eqb command m then [correct] else []
       | _ => []
       end.
Proof.
  unfold command_verdicts. rewrite attempts_app, List.filter_app, map_app.
  f_equal. destruct op as [category command correct now | |]; try reflexivity.
  simpl. now destruct (str_eqb command m).
Qed.

Lemma tally_attempt_step (m : gmap pystr Tally.t) (k k' : pystr) (b : bool)
    (l : list bool) :
  m !! k' = tally_of l ->
  tally_attempt m k b !! k' = tally_of (l ++ if str_eqb k k' then [b] else []).
Proof.
  intros H. destruct (str_eqb k k') eqn:E.
  - apply str_eqb_eq in E. subst k'.
    rewrite tally_attempt_lookup, tally_of_snoc, H. reflexivity.
  - apply str_eqb_neq in E.
    rewrite tally_attempt_lookup_ne by assumption. now rewrite app_nil_r.
Qed.

(** X5: From a first launch, the tally of a category (of a command) counts the
    attempts made in it and the correct ones among them, and a category
    (a command) without an attempt has no tally. *)
Theorem tallies_count_attempts (ops : list Op) (k : pystr) :
  let d := data (run_ops fresh ops) in
  categories_completed d !! k = tally_of (category_verdicts k ops)
  /\ commands_practiced d !! k = tally_of (command_verdicts k ops).
Proof.
  cbv zeta. induction ops as [|op ops [IHc IHm]] using rev_ind.
  - split; reflexivity.
  - rewrite run_ops_snoc, category_verdicts_snoc, command_verdicts_snoc.
    destruct op as [category command correct now | |].
    + destruct (apply_op_attempt (run_ops fresh ops) category command correct now)
        as (_ & _ & _ & _ & Ec & Em & _).
      rewrite Ec, Em. split; now apply tally_attempt_step.
    + match goal with
      | |- context [apply_op ?t ?op] =>
          destruct (apply_op_keeps t op I) as (_ & _ & _ & _ & _ & Ec & Em)
      end.
      rewrite Ec, Em, !app_nil_r. auto.
    + match goal with
      | |- context [apply_op ?t ?op] =>
          destruct (apply_op_keeps t op I) as (_ & _ & _ & _ & _ & Ec & Em)
      end.
      rewrite Ec, Em, !app_nil_r. auto.
Qed.

(** ** Achievements and counters *)

(** A name stands in one row of the table only. *)
Lemma achievement_row_unique (c1 c2 : ProgressData -> Z) (t1 t2 : Z) (name : pystr) :
  In (c1, t1, name) achievement_table -> In (c2, t2, name) achievement_table ->
  c1 = c2 /\ t1 = t2.
Proof.
  unfold achievement_table. simpl.
  intros H1 H2.
  repeat match goal with
         | H : _ \/ _ |- _ => destruct H
         | H : False |- _ => destruct H
         end;
    match goal with
    | Ha : (_, _, ?n1) = (_, _, _), Hb : (_, _, ?n2) = (_, _, _) |- _ =>
        inversion Ha; inversion Hb; subst; first [now split | discriminate]
    end.
Qed.

Lemma newly_unlocked_row (d : ProgressData) (counter : ProgressData -> Z)
    (threshold : Z) (name : pystr) :
  In (counter, threshold, name) achievement_table ->
  (In name (newly_unlocked d)
   <-> threshold <= counter d /\ ~ In name (achievements d)).
Proof.
  intros Hrow. rewrite newly_unlocked_In. split.
  - intros (c & t & Hin & Hle & Hnot).
    destruct (achievement_row_unique _ _ _ _ _ Hin Hrow) as [-> ->]. auto.
  - intros [Hle Hnot]. exists counter, threshold. auto.
Qed.

Lemma newly_unlocked_names (d : ProgressData) :
  Forall (fun name => In name (List.map snd achievement_table)) (newly_unlocked d).
Proof.
  apply List.Forall_forall. intros name H. apply newly_unlocked_In in H.
  destruct H as (c & t & Hin & _). apply in_map_iff.
  exists (c, t, name). auto.
Qed.

(** A row whose name was held exactly from the mark [before] on is held,
    after the check, exactly from the mark [after] on, when [after] is
    reached by [before] or by the counter of the row. *)
Lemma unlocked_iff (d1 : ProgressData) (counter : ProgressData -> Z)
    (threshold : Z) (name : pystr) (before after : Z) :
  In (counter, threshold, name) achievement_table ->
  (In name (achievements d1) <-> threshold <= before) ->
  (threshold <= before \/ threshold <= counter d1 <-> threshold <= after) ->
  (In name (achievements d1 ++ newly_unlocked d1) <-> threshold <= after).
Proof.
  intros Hrow Hheld Hmark.
  rewrite in_app_iff, (newly_unlocked_row d1 _ _ _ Hrow), Hheld, <- Hmark.
  destruct (Z_le_dec threshold before); tauto.
Qed.

Lemma apply_op_achievements_match (self : ProgressTracker) (op : Op) :
  store_inv (data self) -> achievements_match (data self) ->
  achievements_match (data (apply_op self op)).
Proof.
  intros (Hs & _) (H1 & H2 & H3 & H4 & H5 & H6 & Hall).
  destruct op as [category command correct now | |].
  - unfold achievements_match. simpl. rewrite record_attempt_eq.
    cbn [fst data achievements with_achievements total_exercises best_streak].
    match goal with
    | |- context [newly_unlocked ?d1] => set (d1' := d1)
    end.
    change (achievements (data self)) with (achievements d1').
    split; [eapply (unlocked_iff d1' total_exercises);
            [simpl; tauto | exact H1 | simpl; lia]|].
    split; [eapply (unlocked_iff d1' total_exercises);
            [simpl; tauto | exact H2 | simpl; lia]|].
    split; [eapply (unlocked_iff d1' total_exercises);
            [simpl; tauto | exact H3 | simpl; lia]|].
    split; [eapply (unlocked_iff d1' streak);
            [simpl; tauto | exact H4 | simpl; destruct correct; lia]|].
    split; [eapply (unlocked_iff d1' streak);
            [simpl; tauto | exact H5 | simpl; destruct correct; lia]|].
    split; [eapply (unlocked_iff d1' best_streak);
            [simpl; tauto | exact H6 | simpl; destruct correct; lia]|].
    apply Forall_app. split; [exact Hall | apply newly_unlocked_names].
  - match goal with
    | |- context [apply_op self ?op] =>
        destruct (apply_op_keeps self op I) as (E1 & _ & _ & E4 & E5 & _)
    end.
    unfold achievements_match. rewrite E1, E4, E5. repeat split; tauto.
  - match goal with
    | |- context [apply_op self ?op] =>
        destruct (apply_op_keeps self op I) as (E1 & _ & _ & E4 & E5 & _)
    end.
    unfold achievements_match. rewrite E1, E4, E5. repeat split; tauto.
Qed.

(** X6: From a first launch, the achievements held are read off the counters:
    the three volume achievements are held exactly when [total_exercises] has
    reached 10, 50 and 100, the three streak achievements exactly when
    [best_streak] has reached 5, 10 and 20, and nothing else is held. *)
Theorem achievements_follow_counters (ops : list Op) :
  let d := data (run_ops fresh ops) in
  (In Ach.beginner (achievements d) <-> 10 <= total_exercises d)
  /\ (In Ach.practice_expert (achievements d) <-> 50 <= total_exercises d)
  /\ (In Ach.terminal_master (achievements d) <-> 100 <= total_exercises d)
  /\ (In Ach.streak_rookie (achievements d) <-> 5 <= best_streak d)
  /\ (In Ach.streak_expert (achievements d) <-> 10 <= best_streak d)
  /\ (In Ach.streak_master (achievements d) <-> 20 <= best_streak d)
  /\ Forall (fun name => In name (List.map snd achievement_table)) (achievements d).
Proof.
  cbv zeta. change (achievements_match (data (run_ops fresh ops))).
  assert (H : store_inv (data (run_ops fresh ops))
              /\ achievements_match (data (run_ops fresh ops))).
  { apply (run_ops_invariant
             (fun s => store_inv (data s) /\ achievements_match (data s))).
    - intros self op [Hi Ha]. split.
      + now apply apply_op_store_inv.
      + now apply apply_op_achievements_match.
    - split; [apply (run_ops_store_inv [])|].
      unfold achievements_match. simpl.
      repeat split; try lia; try tauto. constructor. }
  apply H.
Qed.

(** ** The registry *)

Lemma get_Some_In {V : Type} (d : PyDict.t V) (k : pystr) (v : V) :
  PyDict.get d k = Some v -> In (k, v) d.
Proof.
  induction d as [|[k' v'] d IH]; simpl; [discriminate|].
  destruct (str_eqb k' k) eqn:E.
  - apply str_eqb_eq in E. intros H. inversion H. subst. now left.
  - intros H. right. now apply IH.
Qed.

Lemma Forall_set {V : Type} (P : pystr * V -> Prop) (d : PyDict.t V) (k : pystr)
    (v : V) :
  Forall P d -> P (k, v) -> Forall P (PyDict.set d k v).
Proof.
  intros Hd Hv. induction d as [|[k' v'] d IH]; simpl.
  - now constructor.
  - inversion Hd as [|? ? Hx Hd']; subst.
    destruct (str_eqb k' k) eqn:E.
    + apply str_eqb_eq in E. subst. now constructor.
    + constructor; [assumption | now apply IH].
Qed.

Lemma Forall_del {V : Type} (P : pystr * V -> Prop) (d : PyDict.t V) (k : pystr) :
  Forall P d -> Forall P (PyDict.del d k).
Proof.
  intros Hd. induction d as [|[k' v'] d IH]; simpl; [constructor|].
  inversion Hd as [|? ? Hx Hd']; subst.
  destruct (str_eqb k' k); [assumption|].
  constructor; [assumption | now apply IH].
Qed.

(** The registry [record_wrong_answer] leaves. *)
Lemma record_wrong_answer_registry (self : ProgressTracker)
    (category command question : pystr) (answers : list pystr)
    (user_answer now : pystr) :
  let key := wrong_key category command question in
  registry
    (data (record_wrong_answer self category command question answers
             user_answer now))
  = PyDict.set (registry (data self)) key
      match PyDict.get (registry (data self)) key with
      | Some e =>
          WrongEntry.mk (WrongEntry.category e) (WrongEntry.command e)
            (WrongEntry.question e) (WrongEntry.answers e)
            (WrongEntry.wrong_count e + 1) now user_answer
      | None => WrongEntry.mk category command question answers 1 now user_answer
      end.
Proof.
  cbv zeta. unfold record_wrong_answer.
  ensure_wrong_answers self s1 Hr Hf Ho.
  now destruct (PyDict.get (registry (data self)) _).
Qed.

Lemma apply_op_registry_sound (self : ProgressTracker) (op : Op) :
  registry_sound (data self) -> registry_sound (data (apply_op self op)).
Proof.
  unfold registry_sound. intros H.
  destruct op as [category command correct now
                 | category command question answers user_answer now
                 | key]; simpl.
  - rewrite record_attempt_eq. exact H.
  - rewrite record_wrong_answer_registry. apply Forall_set; [exact H|].
    destruct (PyDict.get (registry (data self)) _) as [e|] eqn:E.
    + apply get_Some_In in E.
      rewrite List.Forall_forall in H. destruct (H _ E) as [Hk Hc].
      unfold entry_keyed in *. simpl in *. split; [exact Hk | lia].
    + unfold entry_keyed. simpl. split; [reflexivity | lia].
  - destruct (remove_wrong_answer_data self key) as [Hr _].
    rewrite Hr. now apply Forall_del.
Qed.

(** X7: From a first launch, every entry of the registry is stored under the key
    made of its own category, command and question, and its [wrong_count] is
    at least 1. *)
Theorem registry_entries_sound (ops : list Op) :
  Forall
    (fun item =>
       fst item
       = wrong_key (WrongEntry.category (snd item)) (WrongEntry.command (snd item))
           (WrongEntry.question (snd item))
       /\ 1 <= WrongEntry.wrong_count (snd item))
    (registry (data (run_ops fresh ops))).
Proof.
  apply (run_ops_invariant (fun s => registry_sound (data s))).
  - apply apply_op_registry_sound.
  - constructor.
Qed.

Lemma del_set_absent {V : Type} (d : PyDict.t V) (k : pystr) (v : V) :
  PyDict.get d k = None -> PyDict.del (PyDict.set d k v) k = d.
Proof.
  induction d as [|[k' v'] d IH]; simpl.
  - intros _. now rewrite str_eqb_refl.
  - destruct (str_eqb k' k) eqn:E; [discriminate|].
    intros H. simpl. rewrite E. now rewrite IH.
Qed.

(** X8: A first miss that is removed again leaves the registry as it was before
    the miss. *)
Theorem record_then_remove (self : ProgressTracker)
    (category command question : pystr) (answers : list pystr)
    (user_answer now : pystr)
    (Hnew : PyDict.get (registry (data self)) (wrong_key category command question)
            = None) :
  registry
    (data (remove_wrong_answer
             (record_wrong_answer self category command question answers
                user_answer now)
             (wrong_key category command question)))
  = registry (data self).
Proof.
  destruct (remove_wrong_answer_data
              (record_wrong_answer self category command question answers
                 user_answer now)
              (wrong_key category command question)) as [Hr _].
  rewrite Hr, record_wrong_answer_registry. cbv zeta. rewrite Hnew.
  now apply del_set_absent.
Qed.

Lemma record_then_remove_witness :
  registry
    (data (remove_wrong_answer
             (record_wrong_answer fresh (py "file_operations") (py "ls") (py "q")
                [py "ls -a"] (py "ls -l") (py "t"))
             (wrong_key (py "file_operations") (py "ls") (py "q"))))
  = registry (data fresh).
Proof.
  apply (record_then_remove fresh (py "file_operations") (py "ls") (py "q")
           [py "ls -a"] (py "ls -l") (py "t")).
  reflexivity.
Defined.

(** ** What a restart finds *)

Lemma record_wrong_answer_file (self : ProgressTracker)
    (category command question : pystr) (answers : list pystr)
    (user_answer now : pystr) :
  progress_file
    (record_wrong_answer self category command question answers user_answer now)
  = progress_file self.
Proof.
  unfold record_wrong_answer.
  ensure_wrong_answers self s1 Hr Hf Ho.
  now destruct (PyDict.get (registry (data self)) _).
Qed.

(** X9: After the bookkeeping of a failed submission or a skip, the progress file
    has the attempt and not the miss: a tracker started from the file counts
    the exercise and has the registry of before the miss, where the tracker
    in memory has the entry of the key with one more miss.  The next
    [record_attempt] writes the registry as it is in memory. *)
Theorem miss_not_in_file (now : nat -> pystr) (t : nat)
    (category command question : pystr) (answers : list pystr)
    (user_answer : pystr) (p : ProgressTracker) :
  let key := wrong_key category command question in
  let p' := failure_bookkeeping now t category command question answers
              user_answer p in
  let restarted := ProgressTracker_init (progress_file p') in
  let misses d := option_map WrongEntry.wrong_count (PyDict.get (registry d) key) in
  total_exercises (data restarted) = total_exercises (data p) + 1
  /\ streak (data restarted) = 0
  /\ registry (data restarted) = registry (data p)
  /\ misses (data p') = Some (default 0 (misses (data p)) + 1)
  /\ misses (data restarted) <> misses (data p')
  /\ (forall category' command' correct now',
        let p'' := fst (record_attempt p' category' command' correct now') in
        data (ProgressTracker_init (progress_file p'')) = data p''
        /\ registry (data p'') = registry (data p')).
Proof.
  cbv zeta. unfold failure_bookkeeping.
  set (p1 := fst (record_attempt p category command false (now t))).
  assert (Hfile : progress_file p1 = Stored (data p1)).
  { subst p1. now rewrite record_attempt_eq. }
  assert (Hreg : registry (data p1) = registry (data p)).
  { subst p1. now rewrite record_attempt_eq. }
  assert (Hcount : total_exercises (data p1) = total_exercises (data p) + 1
                   /\ streak (data p1) = 0).
  { subst p1. rewrite record_attempt_eq. split; reflexivity. }
  pose proof (record_wrong_answer_file p1 category command question answers
                user_answer (now (S t))) as Hf.
  assert (Hmem : option_map WrongEntry.wrong_count
                   (PyDict.get
                      (registry
                         (data (record_wrong_answer p1 category command question
                                  answers user_answer (now (S t)))))
                      (wrong_key category command question))
                 = Some (default 0
                           (option_map WrongEntry.wrong_count
                              (PyDict.get (registry (data p))
                                 (wrong_key category command question))) + 1)).
  { rewrite record_wrong_answer_registry. cbv zeta.
    rewrite PyDictFacts.get_set_eq, Hreg.
    now destruct (PyDict.get (registry (data p)) _). }
  rewrite Hf, Hfile. cbn [ProgressTracker_init data _load_progress].
  destruct Hcount as [Ht Hs].
  split; [exact Ht|]. split; [exact Hs|]. split; [exact Hreg|].
  split; [exact Hmem|]. split.
  - rewrite Hmem, Hreg.
    destruct (PyDict.get (registry (data p)) _); simpl; [|discriminate].
    intros H. inversion H. lia.
  - intros category' command' correct now'. rewrite record_attempt_eq.
    split; reflexivity.
Qed.

(** * More on the answer matcher *)

Module SplitFacts.
Import PyStr.

Lemma split_from_nil (cur : pystr) : split_from cur [] = flush cur.
Proof. reflexivity. Qed.

Lemma split_from_allspace (w cur s : pystr) :
  allspace w -> w <> [] -> split_from cur (w ++ s) = flush cur ++ split_from [] s.
Proof.
  intros Hw. revert cur. induction Hw as [|c w Hc Hw IH]; intros cur Hne; [congruence|].
  cbn [app split_from]. rewrite Hc.
  destruct w as [|c' w].
  - destruct cur; reflexivity.
  - rewrite IH by discriminate. destruct cur; reflexivity.
Qed.

Lemma split_from_allspace_end (w cur : pystr) :
  allspace w -> split_from cur w = flush cur.
Proof.
  intros Hw. destruct w as [|c w]; [reflexivity|].
  rewrite <- (app_nil_r (c :: w)), split_from_allspace by (assumption || discriminate).
  simpl. now rewrite app_nil_r.
Qed.

(** Reading [x] first: the words it completes and the word under way do not
    depend on what follows. *)
Lemma split_from_prefix (x cur : pystr) :
  exists pre cur', forall rest,
    split_from cur (x ++ rest) = pre ++ split_from cur' rest.
Proof.
  revert cur. induction x as [|c x IH]; intros cur.
  - exists [], cur. reflexivity.
  - cbn [app split_from]. destruct (isspace c).
    + destruct (IH []) as (pre & cur' & H).
      destruct cur as [|a cur].
      * exists pre, cur'. exact H.
      * exists (rev (a :: cur) :: pre), cur'. intros rest. now rewrite H.
    + apply IH.
Qed.

Lemma lstrip_decomp (s : pystr) : exists w, allspace w /\ s = w ++ lstrip s.
Proof.
  induction s as [|c s (w & Hw & E)]; [exists []; split; [constructor | reflexivity]|].
  simpl. destruct (isspace c) eqn:Hc.
  - exists (c :: w). split; [now constructor|]. simpl. now rewrite <- E.
  - exists []. split; [constructor | reflexivity].
Qed.

Lemma rstrip_decomp (s : pystr) : exists w, allspace w /\ s = rstrip s ++ w.
Proof.
  induction s as [|c s (w & Hw & E)]; [exists []; split; [constructor | reflexivity]|].
  simpl. destruct (rstrip s) as [|a t] eqn:Er.
  - simpl in E. destruct (isspace c) eqn:Hc.
    + exists (c :: w). split; [now constructor|]. simpl. now f_equal.
    + exists w. split; [assumption|]. simpl. now f_equal.
  - exists w. split; [assumption|]. simpl in E |- *. now f_equal.
Qed.

Lemma split_lead (w s : pystr) : allspace w -> split (w ++ s) = split s.
Proof.
  intros Hw. unfold split. destruct w as [|c w]; [reflexivity|].
  now rewrite split_from_allspace by (assumption || discriminate).
Qed.

Lemma split_trail (s w : pystr) : allspace w -> split (s ++ w) = split s.
Proof.
  intros Hw. unfold split.
  destruct (split_from_prefix s []) as (pre & cur' & H).
  rewrite H, split_from_allspace_end by assumption.
  specialize (H []). rewrite app_nil_r in H. now rewrite H.
Qed.

(** [split] does the stripping itself. *)
Lemma split_strip (s : pystr) : split (strip s) = split s.
Proof.
  unfold strip.
  destruct (lstrip_decomp s) as (w & Hw & E).
  destruct (rstrip_decomp (lstrip s)) as (w' & Hw' & E').
  rewrite E at 2. rewrite split_lead by assumption.
  rewrite E' at 2. now rewrite split_trail.
Qed.

Lemma concat_split_from (cur s : pystr) :
  concat (split_from cur s) = rev cur ++ visible s.
Proof.
  revert cur. induction s as [|c s IH]; intros cur.
  - simpl. destruct cur; simpl; now rewrite ?app_nil_r.
  - cbn [split_from visible List.filter]. destruct (isspace c); simpl.
    + destruct cur as [|a cur]; [apply (IH [])|].
      cbn [concat]. now rewrite (IH []).
    + rewrite IH. simpl. now rewrite <- app_assoc.
Qed.

Lemma visible_app (a b : pystr) : visible (a ++ b) = visible a ++ visible b.
Proof. unfold visible. apply List.filter_app. Qed.

Lemma visible_nonspace (w : pystr) : nonspace w -> visible w = w.
Proof.
  induction 1 as [|c w Hc Hw IH]; [reflexivity|].
  unfold visible in *. simpl. now rewrite Hc, IH.
Qed.

Lemma visible_join (ws : list pystr) :
  Forall word ws -> visible (join [SPACE] ws) = concat ws.
Proof.
  induction 1 as [|w ws [_ Hw] Hws IH]; [reflexivity|].
  destruct ws as [|w' ws].
  - simpl. rewrite app_nil_r. now apply visible_nonspace.
  - rewrite PyStrFacts.join_cons_cons, !visible_app, IH.
    rewrite (visible_nonspace w Hw). reflexivity.
Qed.

End SplitFacts.

Lemma normalize_answer_split (s : pystr) :
  normalize_answer s = PyStr.join [PyStr.SPACE] (PyStr.split s).
Proof. unfold normalize_answer. now rewrite SplitFacts.split_strip. Qed.

Lemma visible_normalize_answer (s : pystr) : visible (normalize_answer s) = visible s.
Proof.
  rewrite normalize_answer_split.
  rewrite SplitFacts.visible_join by apply PyStrFacts.split_words.
  unfold PyStr.split. now rewrite SplitFacts.concat_split_from.
Qed.

(** X12: An accepted answer typed as it is stored is judged correct. *)
Theorem accepted_answer_matches (a : pystr) (accepted : list pystr)
    (Hin : In a accepted) :
  check_answer a accepted = true.
Proof.
  unfold check_answer. apply check_answer_loop_true. exists a. auto.
Qed.

Lemma accepted_answer_matches_witness :
  check_answer (py "ls --all") [py "ls -a"; py "ls -A"; py "ls --all"] = true.
Proof.
  apply (accepted_answer_matches (py "ls --all")
           [py "ls -a"; py "ls -A"; py "ls --all"]).
  simpl. auto.
Defined.

(** X13: The verdict depends on which answers are accepted, not on their order or
    on repetitions in the list. *)
Theorem check_answer_same_answers (s : pystr) (A B : list pystr)
    (Hsame : forall a, In a A <-> In a B) :
  check_answer s A = check_answer s B.
Proof.
  unfold check_answer.
  destruct (check_answer_loop (normalize_answer s) B) eqn:EB.
  - apply check_answer_loop_true in EB. destruct EB as (a & Ha & E).
    apply check_answer_loop_true. exists a. split; [now apply Hsame | exact E].
  - destruct (check_answer_loop (normalize_answer s) A) eqn:EA; [|reflexivity].
    apply check_answer_loop_true in EA. destruct EA as (a & Ha & E).
    rewrite <- EB. symmetry. apply check_answer_loop_true.
    exists a. split; [now apply Hsame | exact E].
Qed.

Lemma check_answer_same_answers_witness :
  check_answer (py "ls -A") [py "ls -a"; py "ls -A"]
  = check_answer (py "ls -A") [py "ls -A"; py "ls -a"; py "ls -A"].
Proof.
  apply (check_answer_same_answers (py "ls -A") [py "ls -a"; py "ls -A"]
           [py "ls -A"; py "ls -a"; py "ls -A"]).
  intros a. simpl. tauto.
Defined.

Lemma normalize_answer_whitespace (x y w1 w2 lead trail : pystr) :
  allspace w1 -> w1 <> [] -> allspace w2 -> w2 <> [] ->
  allspace lead -> allspace trail ->
  normalize_answer (lead ++ x ++ w1 ++ y ++ trail) = normalize_answer (x ++ w2 ++ y).
Proof.
  intros H1 N1 H2 N2 Hl Ht. rewrite !normalize_answer_split. f_equal.
  rewrite SplitFacts.split_lead by assumption.
  replace (x ++ w1 ++ y ++ trail) with ((x ++ w1 ++ y) ++ trail)
    by now rewrite <- !app_assoc.
  rewrite SplitFacts.split_trail by assumption.
  unfold PyStr.split.
  destruct (SplitFacts.split_from_prefix x []) as (pre & cur' & H).
  rewrite !H, !SplitFacts.split_from_allspace by assumption.
  reflexivity.
Qed.

(** X14: Whitespace around a submission and the length and kind of the whitespace
    between two of its parts do not change the verdict. *)
Theorem check_answer_whitespace (x y w1 w2 lead trail : pystr)
    (accepted : list pystr)
    (H1 : allspace w1) (N1 : w1 <> []) (H2 : allspace w2) (N2 : w2 <> [])
    (Hl : allspace lead) (Ht : allspace trail) :
  check_answer (lead ++ x ++ w1 ++ y ++ trail) accepted
  = check_answer (x ++ w2 ++ y) accepted.
Proof.
  unfold check_answer.
  now rewrite (normalize_answer_whitespace x y w1 w2 lead trail).
Qed.

Lemma check_answer_whitespace_witness :
  check_answer (py "  " ++ py "ls" ++ [9; 32]%N ++ py "-a" ++ [10]%N) [py "ls -a"]
  = check_answer (py "ls" ++ py " " ++ py "-a") [py "ls -a"].
Proof.
  apply (check_answer_whitespace (py "ls") (py "-a") [9; 32]%N (py " ") (py "  ")
           [10]%N [py "ls -a"]);
    try discriminate; repeat constructor.
Defined.

(** X15: A submission is only accepted when its characters other than whitespace
    are, in the same order, those of an accepted answer: nothing is matched
    by case folding, by prefix or by closeness.  The converse does not hold,
    where the whitespace stands matters. *)
Theorem check_answer_same_visible (s : pystr) (accepted : list pystr)
    (Hok : check_answer s accepted = true) :
  exists a, In a accepted /\ visible a = visible s.
Proof.
  unfold check_answer in Hok. apply check_answer_loop_true in Hok.
  destruct Hok as (a & Ha & E). exists a. split; [exact Ha|].
  now rewrite <- (visible_normalize_answer a), E, visible_normalize_answer.
Qed.

Lemma check_answer_same_visible_witness :
  exists a, In a [py "ls -a"; py "ls -A"] /\ visible a = visible (py " ls   -A").
Proof.
  apply (check_answer_same_visible (py " ls   -A") [py "ls -a"; py "ls -A"]).
  reflexivity.
Defined.

Example check_answer_visible_not_enough :
  visible (py "ls-a") = visible (py "ls -a")
  /\ check_answer (py "ls-a") [py "ls -a"] = false
  /\ check_answer (py "LS -A") [py "ls -a"] = false.
Proof. repeat split; vm_compute; reflexivity. Qed.

Lemma visible_nil_allspace (s : pystr) : visible s = [] -> allspace s.
Proof.
  induction s as [|c s IH]; [constructor|].
  unfold visible. simpl. destruct (PyStr.isspace c) eqn:Hc; simpl; [|discriminate].
  intros H. constructor; [exact Hc | now apply IH].
Qed.

Lemma length_lstrip (s : pystr) : (length (PyStr.lstrip s) <= length s)%nat.
Proof.
  induction s as [|c s IH]; simpl; [lia|].
  destruct (PyStr.isspace c); simpl; lia.
Qed.

Lemma length_collapse_runs (s : pystr) :
  (length (MatcherSpec.collapse_runs s) <= length s)%nat.
Proof.
  induction s as [|c s IH]; [simpl; lia|].
  cbn [MatcherSpec.collapse_runs]. destruct (PyStr.isspace c).
  - destruct s as [|c' s]; [simpl; lia|].
    destruct (PyStr.isspace c'); simpl in *; lia.
  - simpl. lia.
Qed.

(** X16: The normal form is empty exactly for a string of whitespace only (the
    empty string among them), and it is never longer than the string. *)
Theorem normalize_answer_empty_and_length (s : pystr) :
  (normalize_answer s = [] <-> allspace s)
  /\ (length (normalize_answer s) <= length s)%nat.
Proof.
  split.
  - split.
    + intros H. apply visible_nil_allspace.
      now rewrite <- visible_normalize_answer, H.
    + intros H. rewrite normalize_answer_split.
      rewrite <- (app_nil_r s), SplitFacts.split_lead by assumption.
      reflexivity.
  - rewrite normalize_answer_spec. unfold MatcherSpec.normalize.
    etransitivity; [apply length_collapse_runs|].
    unfold MatcherSpec.trim. rewrite length_rev.
    etransitivity; [apply length_lstrip|]. rewrite length_rev.
    apply length_lstrip.
Qed.

(** * More on the session engine *)

Lemma others_counters (d d' : ProgressData) :
  with_wrong_answers d' None = with_wrong_answers d None ->
  total_exercises d' = total_exercises d
  /\ correct_answers d' = correct_answers d
  /\ streak d' = streak d
  /\ best_streak d' = best_streak d
  /\ achievements d' = achievements d.
Proof.
  intros H.
  split; [exact (f_equal total_exercises H)|].
  split; [exact (f_equal correct_answers H)|].
  split; [exact (f_equal streak H)|].
  split; [exact (f_equal best_streak H) | exact (f_equal achievements H)].
Qed.

Section LoopFacts.
Variable lower : pystr -> pystr.
Variable now : nat -> pystr.
Variable COMMANDS_DB : PyDict.t Category.t.

Lemma print_answers_fields (a : pystr) (others : list pystr) (w : World) :
  progress (print_answers a others w) = progress w
  /\ ticks (print_answers a others w) = ticks w.
Proof. unfold print_answers. destruct others; simpl; auto. Qed.

Lemma call_record_attempt_fields (category command : pystr) (correct : bool)
    (w : World) :
  progress (call_record_attempt now category command correct w)
  = fst (record_attempt (progress w) category command correct (now (ticks w)))
  /\ ticks (call_record_attempt now category command correct w) = S (ticks w).
Proof.
  unfold call_record_attempt.
  destruct (record_attempt _ _ _ _ _) as [p printed]. simpl. auto.
Qed.

(** One exercise of the two practice loops, whatever is typed. *)
Lemma ask_outcome (category_key : pystr) (ex : Exercise.t) (inputs : list pystr)
    (s : Session) :
  AskOutcome now category_key ex (progress (world s)) (ticks (world s))
    (session_total s) (session_correct s)
    (fst (fst (ask lower now category_key ex inputs s)))
    (snd (ask lower now category_key ex inputs s)).
Proof.
  revert s. induction inputs as [|line inputs IH]; intros s.
  - cbn [ask fst snd]. apply AskEof; reflexivity.
  - cbn [ask].
    destruct (str_eqb (lower (PyStr.strip line)) (py "quit")).
    { cbn [fst snd]. apply AskQuit; reflexivity. }
    destruct (str_eqb (lower (PyStr.strip line)) (py "skip")).
    { destruct (Exercise.answers ex) as [|a others] eqn:Ea.
      - cbn [fst snd]. apply AskRaised; try reflexivity; [assumption|].
        cbn [on_world session_total]. lia.
      - cbn [fst snd]. apply (AskMissed _ _ _ _ _ _ _ _ SKIPPED).
        + congruence.
        + unfold failure_bookkeeping, count_total, on_world, call_record_wrong_answer.
          cbn [world progress ticks]. rewrite Ea.
          destruct (call_record_attempt_fields category_key (Exercise.command ex)
                      false (print (OutSkip a) (print OutPrompt (world s))))
            as [Hp Ht].
          rewrite Hp, Ht. reflexivity.
        + unfold count_total, on_world, call_record_wrong_answer.
          cbn [world ticks].
          destruct (call_record_attempt_fields category_key (Exercise.command ex)
                      false (print (OutSkip a) (print OutPrompt (world s))))
            as [_ Ht].
          now rewrite Ht.
        + reflexivity.
        + reflexivity. }
    destruct (str_eqb (lower (PyStr.strip line)) (py "hint")).
    { match goal with
      | |- context [ask lower now category_key ex inputs ?s1] => exact (IH s1)
      end. }
    destruct (PyStr.strip line) as [|c0 u] eqn:Eu.
    { match goal with
      | |- context [ask lower now category_key ex inputs ?s1] => exact (IH s1)
      end. }
    destruct (check_answer (c0 :: u) (Exercise.answers ex)).
    { cbn [fst snd]. apply AskCorrect.
      - unfold count_correct, count_total, on_world. cbn [world].
        now destruct (call_record_attempt_fields category_key (Exercise.command ex)
                        true (print OutCorrect (print OutPrompt (world s)))).
      - unfold count_correct, count_total, on_world. cbn [world].
        now destruct (call_record_attempt_fields category_key (Exercise.command ex)
                        true (print OutCorrect (print OutPrompt (world s)))).
      - reflexivity.
      - reflexivity. }
    destruct (Exercise.answers ex) as [|a others] eqn:Ea.
    { cbn [fst snd]. apply AskRaised; try reflexivity; [assumption|].
      cbn [on_world count_total session_total]. lia. }
    cbn [fst snd]. apply (AskMissed _ _ _ _ _ _ _ _ (c0 :: u)).
    + congruence.
    + unfold failure_bookkeeping, count_total, on_world, call_record_wrong_answer.
      cbn [world progress ticks]. rewrite Ea.
      destruct (call_record_attempt_fields category_key (Exercise.command ex) false
                  (print_answers a others
                     (print OutWrong (print OutPrompt (world s))))) as [Hp Ht].
      destruct (print_answers_fields a others
                  (print OutWrong (print OutPrompt (world s)))) as [Hp' Ht'].
      rewrite Hp, Ht, Hp', Ht'. reflexivity.
    + unfold count_total, on_world, call_record_wrong_answer. cbn [world ticks].
      destruct (call_record_attempt_fields category_key (Exercise.command ex) false
                  (print_answers a others
                     (print OutWrong (print OutPrompt (world s))))) as [_ Ht].
      destruct (print_answers_fields a others
                  (print OutWrong (print OutPrompt (world s)))) as [_ Ht'].
      now rewrite Ht, Ht'.
    + reflexivity.
    + reflexivity.
Qed.

Lemma failure_bookkeeping_counters (t : nat) (category command question : pystr)
    (answers : list pystr) (user_answer : pystr) (p : ProgressTracker) :
  let d' := data (failure_bookkeeping now t category command question answers
                    user_answer p) in
  total_exercises d' = total_exercises (data p) + 1
  /\ correct_answers d' = correct_answers (data p)
  /\ streak d' = 0.
Proof.
  cbv zeta. unfold failure_bookkeeping.
  match goal with
  | |- context [record_wrong_answer ?p1 _ _ _ _ _ _] => set (p1' := p1)
  end.
  destruct (record_wrong_answer_data p1' category command question answers
              user_answer (now (S t))) as [_ Ho].
  destruct (others_counters _ _ Ho) as (E1 & E2 & E3 & _).
  rewrite E1, E2, E3.
  subst p1'. rewrite record_attempt_eq. simpl. auto.
Qed.

Lemma ask_tally (category_key : pystr) (ex : Exercise.t) (inputs : list pystr)
    (s : Session) :
  let out := ask lower now category_key ex inputs s in
  tally_agrees 1
    match fst (fst out) with LeftRaised _ => true | _ => false end
    s (snd out).
Proof.
  cbv zeta. pose proof (ask_outcome category_key ex inputs s) as H.
  unfold tally_agrees.
  destruct (ask lower now category_key ex inputs s) as [[l rest] s1].
  cbn [fst snd] in *.
  inversion H as [s' Hp Ht Hn Hc | s' ua Hne Hp Ht Hn Hc | s' Hp Ht Hn Hc
                 | s' Hp Ht Hn Hc | s' He Hp Ht Hn Hc]; subst.
  - rewrite Hp, Hn, Hc, record_attempt_eq. simpl. repeat split; lia.
  - rewrite Hp, Hn, Hc.
    destruct (failure_bookkeeping_counters (ticks (world s)) category_key
                (Exercise.command ex) (Exercise.question ex) (Exercise.answers ex)
                ua (progress (world s))) as (E1 & E2 & _).
    rewrite E1, E2. repeat split; lia.
  - rewrite Hp, Hn, Hc. repeat split; lia.
  - rewrite Hp, Hn, Hc. repeat split; lia.
  - rewrite Hp, Hc. repeat split; try lia; try discriminate.
Qed.

Lemma tally_agrees_step (k : Z) (b1 b2 : bool) (s s1 s2 : Session) :
  0 <= k ->
  tally_agrees 1 b1 s s1 -> tally_agrees k b2 s1 s2 ->
  tally_agrees (1 + k) (b1 || b2) s s2.
Proof.
  unfold tally_agrees. intros Hk (A1 & A2 & A3 & A5 & A4) (B1 & B2 & B3 & B5 & B4).
  repeat split; try lia.
  - destruct b1, b2; try discriminate. destruct (A4 eq_refl), (B4 eq_refl). lia.
  - destruct b1, b2; try discriminate. destruct (A4 eq_refl), (B4 eq_refl). lia.
Qed.

Lemma tally_agrees_refl (k : Z) (s : Session) : 0 <= k -> tally_agrees k false s s.
Proof. unfold tally_agrees. intros. repeat split; lia. Qed.

Lemma tally_agrees_print (k : Z) (b : bool) (s s' : Session) (o : Output) :
  tally_agrees k b (on_world (print o) s) s' -> tally_agrees k b s s'.
Proof. exact (fun H => H). Qed.

Lemma tally_agrees_weaken (k k' : Z) (b : bool) (s s' : Session) :
  k <= k' -> tally_agrees k b s s' -> tally_agrees k' b s s'.
Proof.
  unfold tally_agrees. intros Hk (A1 & A2 & A3 & A5 & A4).
  split; [lia | split; [lia | split; [lia | split; [lia | exact A4]]]].
Qed.

Lemma category_loop_tally (category_key : pystr) (exercises : list Exercise.t)
    (question_num len : nat) (inputs : list pystr) (s : Session) :
  let out := category_loop lower now category_key exercises question_num len
               inputs s in
  tally_agrees (Z.of_nat (length exercises)) (is_raised (fst (fst out))) s (snd out).
Proof.
  cbv zeta. revert question_num inputs s.
  induction exercises as [|ex rest IH]; intros question_num inputs s.
  - simpl. apply tally_agrees_refl. lia.
  - cbn [category_loop].
    match goal with
    | |- context [ask lower now category_key ex inputs ?s0] =>
        pose proof (ask_tally category_key ex inputs s0) as Hstep;
        destruct (ask lower now category_key ex inputs s0) as [[l inputs1] s1]
    end.
    cbv zeta in Hstep. cbn [fst snd] in Hstep. apply tally_agrees_print in Hstep.
    rewrite length_cons, Nat2Z.inj_succ.
    destruct l.
    + match goal with
      | |- context [category_loop _ _ _ rest ?n _ inputs1 ?s2] =>
          specialize (IH n inputs1 s2)
      end.
      apply tally_agrees_print in IH.
      replace (Z.succ (Z.of_nat (length rest))) with (1 + Z.of_nat (length rest)) by lia.
      apply (tally_agrees_step _ false _ _ s1); [lia | exact Hstep | exact IH].
    + cbn [fst snd is_raised]. apply (tally_agrees_weaken 1); [lia | exact Hstep].
    + cbn [fst snd is_raised]. apply (tally_agrees_weaken 1); [lia | exact Hstep].
    + cbn [fst snd is_raised]. apply (tally_agrees_weaken 1); [lia | exact Hstep].
Qed.

Lemma random_loop_tally (exercises : list RandomExercise.t)
    (question_num len : nat) (inputs : list pystr) (s : Session) :
  let out := random_loop lower now exercises question_num len inputs s in
  tally_agrees (Z.of_nat (length exercises)) (is_raised (fst (fst out))) s (snd out).
Proof.
  cbv zeta. revert question_num inputs s.
  induction exercises as [|rex rest IH]; intros question_num inputs s.
  - simpl. apply tally_agrees_refl. lia.
  - cbn [random_loop].
    match goal with
    | |- context [ask lower now ?k ?ex inputs ?s0] =>
        pose proof (ask_tally k ex inputs s0) as Hstep;
        destruct (ask lower now k ex inputs s0) as [[l inputs1] s1]
    end.
    cbv zeta in Hstep. cbn [fst snd] in Hstep. apply tally_agrees_print in Hstep.
    rewrite length_cons, Nat2Z.inj_succ.
    destruct l.
    + match goal with
      | |- context [random_loop _ _ rest ?n _ inputs1 ?s2] =>
          specialize (IH n inputs1 s2)
      end.
      apply tally_agrees_print in IH.
      replace (Z.succ (Z.of_nat (length rest))) with (1 + Z.of_nat (length rest)) by lia.
      apply (tally_agrees_step _ false _ _ s1); [lia | exact Hstep | exact IH].
    + cbn [fst snd is_raised]. apply (tally_agrees_weaken 1); [lia | exact Hstep].
    + cbn [fst snd is_raised]. apply (tally_agrees_weaken 1); [lia | exact Hstep].
    + cbn [fst snd is_raised]. apply (tally_agrees_weaken 1); [lia | exact Hstep].
Qed.

End LoopFacts.

(** ** One exercise, one attempt at most *)


(** X18: In the loops of [practice_category] and [random_practice] the session
    counts at most one attempt an exercise and no more correct answers than
    attempts; the tracker never counts more exercises than the session, and
    it has counted exactly the attempts and the correct answers of the
    session unless the loop was left by an exception. *)
Theorem session_tally_agrees (lower : pystr -> pystr) (now : nat -> pystr) :
  (forall category_key exercises question_num len inputs s,
     let out := category_loop lower now category_key exercises question_num len
                  inputs s in
     let d := data (progress (world s)) in
     let d' := data (progress (world (snd out))) in
     let attempts := session_total (snd out) - session_total s in
     let corrects := session_correct (snd out) - session_correct s in
     0 <= corrects <= attempts
     /\ attempts <= Z.of_nat (length exercises)
     /\ 0 <= total_exercises d' - total_exercises d <= attempts
     /\ (is_raised (fst (fst out)) = false ->
         total_exercises d' - total_exercises d = attempts
         /\ correct_answers d' - correct_answers d = corrects))
  /\ (forall exercises question_num len inputs s,
        let out := random_loop lower now exercises question_num len inputs s in
        let d := data (progress (world s)) in
        let d' := data (progress (world (snd out))) in
        let attempts := session_total (snd out) - session_total s in
        let corrects := session_correct (snd out) - session_correct s in
        0 <= corrects <= attempts
        /\ attempts <= Z.of_nat (length exercises)
        /\ 0 <= total_exercises d' - total_exercises d <= attempts
        /\ (is_raised (fst (fst out)) = false ->
            total_exercises d' - total_exercises d = attempts
            /\ correct_answers d' - correct_answers d = corrects)).
Proof.
  split.
  - intros category_key exercises question_num len inputs s. cbv zeta.
    destruct (category_loop_tally lower now category_key exercises question_num
                len inputs s) as (A1 & A2 & A3 & A5 & A4).
    repeat split; try lia; apply A4; assumption.
  - intros exercises question_num len inputs s. cbv zeta.
    destruct (random_loop_tally lower now exercises question_num len inputs s)
      as (A1 & A2 & A3 & A5 & A4).
    repeat split; try lia; apply A4; assumption.
Qed.

Lemma length_slice_to {A : Type} (l : list A) (count : Z) :
  0 <= count -> Z.of_nat (length (slice_to l count)) <= count.
Proof.
  intros H. unfold slice_to.
  destruct (count <? 0) eqn:E; [apply Z.ltb_lt in E; lia|].
  rewrite length_firstn. lia.
Qed.

Lemma press_enter_progress (inputs : list pystr) (w : World) :
  progress (snd (press_enter inputs w)) = progress w.
Proof. unfold press_enter. now destruct inputs. Qed.

(** X19: A random practice of [count] exercises records [count] attempts at most,
    whatever the corpus, the shuffle and the input are. *)
Theorem random_practice_bound (lower : pystr -> pystr) (now : nat -> pystr)
    (shuffle : forall A : Type, list A -> list A)
    (COMMANDS_DB : PyDict.t Category.t) (count : Z) (inputs : list pystr)
    (w : World) (Hcount : 0 <= count) :
  let w' := snd (random_practice lower now shuffle COMMANDS_DB count inputs w) in
  0 <= total_exercises (data (progress w')) - total_exercises (data (progress w))
    <= count.
Proof.
  cbv zeta. unfold random_practice.
  set (exercises := slice_to (shuffle _ (all_exercises COMMANDS_DB)) count).
  pose proof (length_slice_to (shuffle _ (all_exercises COMMANDS_DB)) count Hcount)
    as Hlen. fold exercises in Hlen.
  match goal with
  | |- context [random_loop lower now exercises ?n ?len inputs ?s0] =>
      pose proof (random_loop_tally lower now exercises n len inputs s0) as H;
      destruct (random_loop lower now exercises n len inputs s0)
        as [[st inputs1] s1]
  end.
  cbv zeta in H. cbn [fst snd] in H.
  destruct H as (A1 & A2 & A3 & A5 & _).
  cbn [world session_total progress print] in A3, A5.
  destruct st as [st|]; cbn [snd].
  - lia.
  - unfold report. rewrite press_enter_progress.
    cbn [print progress]. lia.
Qed.

Lemma random_practice_bound_witness :
  let corpus :=
    [(py "file_operations",
      Category.mk (py "Files") (py "F")
        [Command.mk (py "ls") (py "list") [py "ls -l"]
           [CorpusExercise.mk (py "q1") [py "ls -a"];
            CorpusExercise.mk (py "q2") [py "ls -l"]]])] in
  let w := {| progress := fresh; ticks := 0; stdout := [] |} in
  let w' := snd (random_practice ascii_lower (fun _ => py "t") (fun _ l => l)
                   corpus 1 [py "ls -a"; py "ls -l"; py ""] w) in
  0 <= total_exercises (data (progress w')) - total_exercises (data (progress w))
    <= 1.
Proof.
  apply (random_practice_bound ascii_lower (fun _ => py "t") (fun _ l => l)).
  lia.
Defined.

(** ** The replay of wrong answers *)

Section ReplayFacts.
Variable lower : pystr -> pystr.
Variable now : nat -> pystr.
Variable COMMANDS_DB : PyDict.t Category.t.

(** One exercise of the replay, whatever is typed. *)
Lemma ask_wrong_outcome (ex : WrongExercise.t) (examples : list pystr)
    (inputs : list pystr) (r : Replay) :
  ReplayOutcome now ex (progress (replay_world r)) (ticks (replay_world r))
    (removed_count r)
    (fst (fst (ask_wrong lower now ex examples inputs r)))
    (snd (ask_wrong lower now ex examples inputs r)).
Proof.
  revert r. induction inputs as [|line inputs IH]; intros r.
  - cbn [ask_wrong fst snd]. apply ReplayLeft; [discriminate | reflexivity ..].
  - cbn [ask_wrong].
    destruct (str_eqb (lower (PyStr.strip line)) (py "quit")).
    { cbn [fst snd]. apply ReplayLeft; [discriminate | reflexivity ..]. }
    destruct (str_eqb (lower (PyStr.strip line)) (py "skip")).
    { destruct (WrongEntry.answers (WrongExercise.entry ex)) as [|a others].
      - cbn [fst snd]. apply ReplayLeft; [discriminate | reflexivity ..].
      - cbn [fst snd]. apply ReplaySkipped; reflexivity. }
    destruct (str_eqb (lower (PyStr.strip line)) (py "hint")).
    { destruct examples;
        match goal with
        | |- context [ask_wrong lower now ex ?e inputs ?r1] => exact (IH r1)
        end. }
    destruct (PyStr.strip line) as [|c0 u] eqn:Eu.
    { match goal with
      | |- context [ask_wrong lower now ex examples inputs ?r1] => exact (IH r1)
      end. }
    destruct (check_answer (c0 :: u) (WrongEntry.answers (WrongExercise.entry ex))).
    { cbn [fst snd]. apply ReplayCorrect.
      - unfold count_removed, on_replay. cbn [replay_world].
        match goal with
        | |- context [call_record_attempt now ?c ?m true ?w] =>
            destruct (call_record_attempt_fields now c m true w) as [Hp _]
        end.
        rewrite Hp. reflexivity.
      - unfold count_removed, on_replay. cbn [replay_world].
        match goal with
        | |- context [call_record_attempt now ?c ?m true ?w] =>
            destruct (call_record_attempt_fields now c m true w) as [_ Ht]
        end.
        rewrite Ht. reflexivity.
      - reflexivity. }
    destruct (WrongEntry.answers (WrongExercise.entry ex)) as [|a others] eqn:Ea.
    { cbn [fst snd]. apply ReplayLeft; [discriminate | reflexivity ..]. }
    cbn [fst snd]. apply (ReplayMissed _ _ _ _ _ _ (c0 :: u)).
    + unfold failure_bookkeeping, on_replay, call_record_wrong_answer.
      cbn [replay_world progress ticks]. rewrite Ea.
      match goal with
      | |- context [call_record_attempt now ?c ?m false ?w] =>
          destruct (call_record_attempt_fields now c m false w) as [Hp Ht]
      end.
      rewrite Hp, Ht.
      match goal with
      | |- context [print_answers a others ?w] =>
          destruct (print_answers_fields a others w) as [Hp' Ht']
      end.
      rewrite Hp', Ht'. reflexivity.
    + unfold on_replay, call_record_wrong_answer. cbn [replay_world ticks].
      match goal with
      | |- context [call_record_attempt now ?c ?m false ?w] =>
          destruct (call_record_attempt_fields now c m false w) as [_ Ht]
      end.
      rewrite Ht.
      match goal with
      | |- context [print_answers a others ?w] =>
          destruct (print_answers_fields a others w) as [_ Ht']
      end.
      now rewrite Ht'.
    + reflexivity.
Qed.

Lemma length_keys {V : Type} (d : PyDict.t V) : length (PyDict.keys d) = length d.
Proof. unfold PyDict.keys. apply length_map. Qed.

Lemma length_del_present {V : Type} (d : PyDict.t V) (k : pystr) :
  In k (PyDict.keys d) -> S (length (PyDict.del d k)) = length d.
Proof.
  induction d as [|[k' v'] d IH]; simpl; [tauto|].
  destruct (str_eqb k' k) eqn:E; [reflexivity|].
  apply str_eqb_neq in E. intros [H|H]; [congruence|].
  simpl. now rewrite IH.
Qed.

Lemma keys_del_other {V : Type} (d : PyDict.t V) (k k' : pystr) :
  k' <> k -> In k' (PyDict.keys d) -> In k' (PyDict.keys (PyDict.del d k)).
Proof.
  intros Hne. induction d as [|[k0 v0] d IH]; simpl; [tauto|].
  destruct (str_eqb k0 k) eqn:E.
  - apply str_eqb_eq in E. subst. intros [H|H]; [congruence | exact H].
  - simpl. intros [H|H]; [now left | right; now apply IH].
Qed.

Lemma registry_record_attempt (p : ProgressTracker) (category command : pystr)
    (correct : bool) (t : pystr) :
  registry (data (fst (record_attempt p category command correct t)))
  = registry (data p).
Proof. now rewrite record_attempt_eq. Qed.

Lemma registry_failure_bookkeeping (t : nat) (category command question : pystr)
    (answers : list pystr) (user_answer : pystr) (p : ProgressTracker) :
  exists e,
    registry (data (failure_bookkeeping now t category command question answers
                      user_answer p))
    = PyDict.set (registry (data p)) (wrong_key category command question) e.
Proof.
  unfold failure_bookkeeping. rewrite record_wrong_answer_registry. cbv zeta.
  rewrite registry_record_attempt. eexists. reflexivity.
Qed.

Lemma replay_ready_tail (ex : WrongExercise.t) (rest : list WrongExercise.t)
    (reg reg' : PyDict.t WrongEntry.t) :
  replay_ready (ex :: rest) reg ->
  (forall k, k <> WrongExercise.key ex -> In k (PyDict.keys reg) ->
             In k (PyDict.keys reg')) ->
  replay_ready rest reg'.
Proof.
  intros [Hnd Hall] Hkeys. simpl in Hnd.
  inversion Hnd as [|? ? Hnotin Hnd']; subst.
  inversion Hall as [|? ? _ Hall']; subst.
  split; [exact Hnd'|].
  rewrite List.Forall_forall in *. intros ex' Hin.
  destruct (Hall' ex' Hin) as [Hk He]. split; [|exact He].
  apply Hkeys; [|exact Hk].
  intros E. apply Hnotin. rewrite <- E. apply list_elem_of_In.
  now apply in_map.
Qed.

(** The registry after one exercise of a replay that is ready for it. *)
Lemma ask_wrong_registry (ex : WrongExercise.t) (rest : list WrongExercise.t)
    (examples : list pystr) (inputs : list pystr) (r : Replay) :
  replay_ready (ex :: rest) (registry (data (progress (replay_world r)))) ->
  let r' := snd (ask_wrong lower now ex examples inputs r) in
  let reg := registry (data (progress (replay_world r))) in
  let reg' := registry (data (progress (replay_world r'))) in
  replay_ready rest reg'
  /\ 0 <= removed_count r' - removed_count r <= 1
  /\ Z.of_nat (length reg') = Z.of_nat (length reg) - (removed_count r' - removed_count r).
Proof.
  intros Hready. cbv zeta.
  pose proof (ask_wrong_outcome ex examples inputs r) as H.
  destruct (ask_wrong lower now ex examples inputs r) as [[l inputs1] r1].
  cbn [fst snd] in *.
  assert (Hex : In (WrongExercise.key ex)
                  (PyDict.keys (registry (data (progress (replay_world r)))))
                /\ WrongExercise.key ex
                   = wrong_key (WrongEntry.category (WrongExercise.entry ex))
                       (WrongEntry.command (WrongExercise.entry ex))
                       (WrongEntry.question (WrongExercise.entry ex))).
  { destruct Hready as [_ Hall]. inversion Hall as [|? ? Hx _]; subst. exact Hx. }
  destruct Hex as [Hin Hkey].
  inversion H as [r' Hp Ht Hc | r' ua Hp Ht Hc | r' Hp Ht Hc | l' r' Hl Hp Ht Hc];
    subst; rewrite Hp, Hc.
  - rewrite registry_record_attempt.
    destruct (remove_wrong_answer_data (progress (replay_world r))
                (WrongExercise.key ex)) as [Hr _].
    rewrite Hr. split; [|split; [lia|]].
    + apply (replay_ready_tail ex rest _ _ Hready).
      intros k Hne Hk. now apply keys_del_other.
    + pose proof (length_del_present _ _ Hin). lia.
  - destruct (registry_failure_bookkeeping (ticks (replay_world r))
                (WrongEntry.category (WrongExercise.entry ex))
                (WrongEntry.command (WrongExercise.entry ex))
                (WrongEntry.question (WrongExercise.entry ex))
                (WrongEntry.answers (WrongExercise.entry ex)) ua
                (progress (replay_world r))) as [e He].
    rewrite He, <- Hkey.
    assert (Hkeys : PyDict.keys (PyDict.set (registry (data (progress (replay_world r))))
                                   (WrongExercise.key ex) e)
                    = PyDict.keys (registry (data (progress (replay_world r))))).
    { apply PyDictFacts.keys_set_present. intros E.
      apply PyDictFacts.get_None_keys in E. contradiction. }
    split; [|split; [lia|]].
    + apply (replay_ready_tail ex rest _ _ Hready).
      intros k _ Hk. now rewrite Hkeys.
    + rewrite <- (length_keys (PyDict.set _ _ _)), Hkeys, length_keys. lia.
  - split; [|split; lia].
    apply (replay_ready_tail ex rest _ _ Hready). auto.
  - split; [|split; lia].
    apply (replay_ready_tail ex rest _ _ Hready). auto.
Qed.

(** The registry after the loop of a replay that is ready for its
    exercises: every entry removed is counted. *)
Lemma wrong_loop_registry (wrong_exercises : list WrongExercise.t)
    (question_num len : nat) (inputs : list pystr) (r : Replay) :
  replay_ready wrong_exercises (registry (data (progress (replay_world r)))) ->
  let r' := snd (fst (wrong_loop lower now COMMANDS_DB wrong_exercises question_num
                        len inputs r)) in
  0 <= removed_count r' - removed_count r <= Z.of_nat (length wrong_exercises)
  /\ Z.of_nat (length (registry (data (progress (replay_world r')))))
     = Z.of_nat (length (registry (data (progress (replay_world r)))))
       - (removed_count r' - removed_count r).
Proof.
  cbv zeta. revert question_num inputs r.
  induction wrong_exercises as [|ex rest IH]; intros question_num inputs r Hready.
  - simpl. lia.
  - cbn [wrong_loop].
    match goal with
    | |- context [ask_wrong lower now ex ?e inputs ?r0] =>
        pose proof (ask_wrong_registry ex rest e inputs r0 Hready) as Hstep;
        destruct (ask_wrong lower now ex e inputs r0) as [[l inputs1] r1]
    end.
    cbv zeta in Hstep. cbn [fst snd] in Hstep.
    cbn [on_replay replay_world removed_count print progress] in Hstep.
    destruct Hstep as (Hready1 & Hc & Hlen).
    rewrite length_cons, Nat2Z.inj_succ.
    destruct l; cbn [fst snd]; try lia.
    match goal with
    | |- context [wrong_loop _ _ _ rest ?n _ inputs1 ?r2] =>
        specialize (IH n inputs1 r2 Hready1)
    end.
    cbn [on_replay replay_world removed_count print progress] in IH.
    lia.
Qed.

Lemma extends_refl (w : World) : extends w w.
Proof. exists []. split; [now rewrite app_nil_r | constructor]. Qed.

Lemma extends_print (o : Output) (w x : World) :
  done_wrong o = false -> extends w x -> extends w (print o x).
Proof.
  intros Ho (added & E & Hall). exists (added ++ [o]). split.
  - simpl. now rewrite E, app_assoc.
  - apply Forall_app. split; [assumption | now constructor].
Qed.

Lemma extends_record_attempt (category command : pystr) (correct : bool)
    (w x : World) :
  extends w x -> extends w (call_record_attempt now category command correct x).
Proof.
  intros (added & E & Hall). unfold call_record_attempt.
  destruct (record_attempt _ _ _ _ _) as [p printed].
  exists (added ++ List.map OutUnlocked printed). split.
  - simpl. now rewrite E, app_assoc.
  - apply Forall_app. split; [assumption|].
    apply List.Forall_forall. intros o Ho. apply in_map_iff in Ho.
    destruct Ho as (a & <- & _). reflexivity.
Qed.

Lemma extends_record_wrong_answer (category command question : pystr)
    (answers : list pystr) (user_answer : pystr) (w x : World) :
  extends w x ->
  extends w (call_record_wrong_answer now category command question answers
               user_answer x).
Proof. exact (fun H => H). Qed.

Lemma extends_remove_wrong_answer (key : pystr) (w x : World) :
  extends w x -> extends w (call_remove_wrong_answer key x).
Proof. exact (fun H => H). Qed.

Lemma extends_print_answers (a : pystr) (others : list pystr) (w x : World) :
  extends w x -> extends w (print_answers a others x).
Proof.
  intros H. unfold print_answers.
  destruct others; repeat (apply extends_print; [reflexivity|]); exact H.
Qed.

Ltac extends_steps :=
  cbn [replay_world on_replay count_removed];
  repeat first
    [ apply extends_refl
    | apply extends_print; [reflexivity|]
    | apply extends_record_attempt
    | apply extends_record_wrong_answer
    | apply extends_remove_wrong_answer
    | apply extends_print_answers ].

Lemma ask_wrong_extends (ex : WrongExercise.t) (examples : list pystr)
    (inputs : list pystr) (r : Replay) (w : World) :
  extends w (replay_world r) ->
  extends w (replay_world (snd (ask_wrong lower now ex examples inputs r))).
Proof.
  revert r. induction inputs as [|line inputs IH]; intros r Hr.
  - cbn [ask_wrong snd]. extends_steps. exact Hr.
  - cbn [ask_wrong].
    destruct (str_eqb (lower (PyStr.strip line)) (py "quit")).
    { cbn [snd]. extends_steps. exact Hr. }
    destruct (str_eqb (lower (PyStr.strip line)) (py "skip")).
    { destruct (WrongEntry.answers (WrongExercise.entry ex)) as [|a others];
        cbn [snd]; extends_steps; exact Hr. }
    destruct (str_eqb (lower (PyStr.strip line)) (py "hint")).
    { destruct examples; apply IH; extends_steps; exact Hr. }
    destruct (PyStr.strip line) as [|c0 u].
    { apply IH. extends_steps. exact Hr. }
    destruct (check_answer (c0 :: u) (WrongEntry.answers (WrongExercise.entry ex))).
    { cbn [snd]. extends_steps. exact Hr. }
    destruct (WrongEntry.answers (WrongExercise.entry ex)) as [|a others];
      cbn [snd]; extends_steps; exact Hr.
Qed.

Lemma wrong_loop_extends (wrong_exercises : list WrongExercise.t)
    (question_num len : nat) (inputs : list pystr) (r : Replay) (w : World) :
  extends w (replay_world r) ->
  extends w
    (replay_world
       (snd (fst (wrong_loop lower now COMMANDS_DB wrong_exercises question_num len
                    inputs r)))).
Proof.
  revert question_num inputs r.
  induction wrong_exercises as [|ex rest IH]; intros question_num inputs r Hr.
  - exact Hr.
  - cbn [wrong_loop].
    match goal with
    | |- context [ask_wrong lower now ex ?e inputs ?r0] =>
        assert (Hstep : extends w (replay_world (snd (ask_wrong lower now ex e inputs r0))))
          by (apply ask_wrong_extends; extends_steps; exact Hr);
        destruct (ask_wrong lower now ex e inputs r0) as [[l inputs1] r1]
    end.
    cbn [snd] in Hstep.
    destruct l; cbn [fst snd]; try exact Hstep.
    apply IH. extends_steps. exact Hstep.
Qed.

End ReplayFacts.

Lemma press_enter_stdout (inputs : list pystr) (w : World) :
  stdout (snd (press_enter inputs w)) = stdout w.
Proof. unfold press_enter. now destruct inputs. Qed.

Lemma registry_items_keys (d : ProgressData) :
  List.map WrongExercise.key (registry_items d) = PyDict.keys (registry d).
Proof.
  unfold registry_items, PyDict.keys. rewrite List.map_map.
  apply List.map_ext. now intros [k e].
Qed.

(** The list a replay starts from is ready for the registry it was taken
    from. *)
Lemma get_wrong_exercises_ready (self : ProgressTracker) :
  NoDup (PyDict.keys (registry (data self))) ->
  Forall entry_keyed (registry (data self)) ->
  replay_ready (fst (get_wrong_exercises self)) (registry (data self)).
Proof.
  intros Hnd Hkeyed. rewrite get_wrong_exercises_eq.
  pose proof (sort_reverse_perm WrongExercise.wrong_count (registry_items (data self)))
    as Hperm.
  split.
  - rewrite (Permutation_map WrongExercise.key Hperm), registry_items_keys.
    exact Hnd.
  - eapply Permutation_Forall; [symmetry; exact Hperm|].
    unfold registry_items. apply List.Forall_forall. intros ex Hex.
    apply in_map_iff in Hex. destruct Hex as ([k e] & <- & Hin).
    cbn [WrongExercise.key WrongExercise.entry]. split.
    + unfold PyDict.keys. apply in_map_iff. exists (k, e). auto.
    + rewrite List.Forall_forall in Hkeyed. now apply Hkeyed.
Qed.

(** X21: When the registry has no key twice and every entry under the key of its
    own fields, as it has from a first launch on, the last line of a replay
    tells the truth: the number it shows as remaining is the number of
    entries the registry has when [practice_wrong_answers] returns, and the
    number it shows as answered is the number of entries that are gone. *)
Theorem replay_remaining_is_registry (lower : pystr -> pystr) (now : nat -> pystr)
    (COMMANDS_DB : PyDict.t Category.t) (inputs : list pystr) (w : World)
    (Hnd : NoDup (PyDict.keys (registry (data (progress w)))))
    (Hkeyed : Forall entry_keyed (registry (data (progress w)))) :
  let w' := snd (practice_wrong_answers lower now COMMANDS_DB inputs w) in
  exists added,
    stdout w' = stdout w ++ added
    /\ forall answered remaining,
         In (OutDoneWrong answered remaining) added ->
         remaining = Z.of_nat (length (registry (data (progress w'))))
         /\ answered
            = Z.of_nat (length (registry (data (progress w)))) - remaining.
Proof.
  cbv zeta. unfold practice_wrong_answers.
  pose proof (get_wrong_exercises_ready (progress w) Hnd Hkeyed) as Hready.
  assert (Hlen : length (fst (get_wrong_exercises (progress w)))
                 = length (registry (data (progress w)))).
  { rewrite get_wrong_exercises_eq.
    rewrite (Permutation_length (sort_reverse_perm _ _)).
    unfold registry_items. apply length_map. }
  assert (Hreg : registry (data (snd (get_wrong_exercises (progress w))))
                 = registry (data (progress w))).
  { unfold get_wrong_exercises. cbn [snd]. apply registry_ensure. }
  destruct (get_wrong_exercises (progress w)) as [wrong p0].
  cbn [fst snd] in Hready, Hlen, Hreg.
  destruct wrong as [|ex rest].
  - exists [OutReplayEmpty; OutPressEnter]. split.
    + rewrite press_enter_stdout. cbn [print stdout].
      now rewrite <- app_assoc.
    + intros answered remaining [H | [H | []]]; discriminate.
  - set (wrong := ex :: rest) in *.
    set (r0 := {| replay_world :=
                    print (OutBannerWrong (length wrong))
                      {| progress := p0; ticks := ticks w; stdout := stdout w |};
                  removed_count := 0 |}).
    assert (Hready0 : replay_ready wrong
                        (registry (data (progress (replay_world r0))))).
    { cbn [r0 replay_world print progress]. now rewrite Hreg. }
    pose proof (wrong_loop_registry lower now COMMANDS_DB wrong 0 (length wrong)
                  inputs r0 Hready0) as Hloop.
    assert (Hext0 : extends w (replay_world r0)).
    { exists [OutBannerWrong (length wrong)]. split; [reflexivity|].
      repeat constructor. }
    pose proof (wrong_loop_extends lower now COMMANDS_DB wrong 0 (length wrong)
                  inputs r0 w Hext0) as Hext.
    cbv zeta in Hloop.
    destruct (wrong_loop lower now COMMANDS_DB wrong 0 (length wrong) inputs r0)
      as [[[st inputs1] r1] question_num].
    cbn [fst snd] in Hloop, Hext.
    cbn [r0 replay_world print progress removed_count] in Hloop.
    rewrite Hreg in Hloop. destruct Hloop as [Hc Hl].
    destruct Hext as (added & Eadded & Hall).
    destruct st as [st|]; cbn [snd].
    + exists added. split; [exact Eadded|].
      intros answered remaining Hin.
      rewrite List.Forall_forall in Hall. specialize (Hall _ Hin). discriminate.
    + rewrite press_enter_stdout, press_enter_progress. cbn [print stdout progress].
      eexists. split.
      * rewrite Eadded, <- !app_assoc. reflexivity.
      * intros answered remaining Hin. apply in_app_or in Hin.
        destruct Hin as [Hin | Hin].
        { rewrite List.Forall_forall in Hall. specialize (Hall _ Hin). discriminate. }
        simpl in Hin. destruct Hin as [H | [H | [H | []]]]; try discriminate.
        inversion H; subst. subst wrong. cbn [length] in Hlen, Hc. lia.
Qed.

Lemma replay_remaining_is_registry_witness :
  let clock := fun _ : nat => py "t" in
  let e1 := WrongEntry.mk (py "c") (py "ls") (py "q1") [py "ls -a"] 2 (py "t") (py "x") in
  let e2 := WrongEntry.mk (py "c") (py "cd") (py "q2") [py "cd .."] 1 (py "t") (py "y") in
  let d := with_wrong_answers default_data
             (Some [(py "c::ls::q1", e1); (py "c::cd::q2", e2)]) in
  let w := {| progress := {| data := d; progress_file := Stored d |};
              ticks := 0; stdout := [] |} in
  let w' := snd (practice_wrong_answers ascii_lower clock []
                   [py "ls -a"; py "cd"; py ""] w) in
  exists added,
    stdout w' = stdout w ++ added
    /\ forall answered remaining,
         In (OutDoneWrong answered remaining) added ->
         remaining = Z.of_nat (length (registry (data (progress w'))))
         /\ answered
            = Z.of_nat (length (registry (data (progress w)))) - remaining.
Proof.
  apply (replay_remaining_is_registry ascii_lower (fun _ : nat => py "t") []).
  - apply (NoDup_ListNoDup [py "c::ls::q1"; py "c::cd::q2"]).
    repeat (constructor; [simpl; intuition discriminate|]). constructor.
  - repeat constructor.
Defined.

Example replay_remaining_run :
  let clock := fun _ : nat => py "t" in
  let e1 := WrongEntry.mk (py "c") (py "ls") (py "q1") [py "ls -a"] 2 (py "t") (py "x") in
  let e2 := WrongEntry.mk (py "c") (py "cd") (py "q2") [py "cd .."] 1 (py "t") (py "y") in
  let d := with_wrong_answers default_data
             (Some [(py "c::ls::q1", e1); (py "c::cd::q2", e2)]) in
  let w := {| progress := {| data := d; progress_file := Stored d |};
              ticks := 0; stdout := [] |} in
  let w' := snd (practice_wrong_answers ascii_lower clock []
                   [py "ls -a"; py "cd"; py ""] w) in
  In (OutDoneWrong 1 1) (stdout w')
  /\ PyDict.keys (registry (data (progress w'))) = [py "c::cd::q2"].
Proof. cbv zeta. split; [vm_compute; tauto | vm_compute; reflexivity]. Qed.

(** ** The notebook *)

Section NotebookFacts.
Variable lower : pystr -> pystr.
Variable now : nat -> pystr.
Variable COMMANDS_DB : PyDict.t Category.t.

Lemma list_entries_ok (i : nat) (l : list WrongExercise.t) :
  Forall (fun ex => WrongEntry.answers (WrongExercise.entry ex) <> []) l ->
  snd (list_entries COMMANDS_DB i l) = false.
Proof.
  intros H. revert i. induction H as [|ex l Hex Hl IH]; intros i; [reflexivity|].
  cbn [list_entries].
  destruct (WrongEntry.answers (WrongExercise.entry ex)); [congruence|].
  specialize (IH (S i)). destruct (list_entries COMMANDS_DB (S i) l). exact IH.
Qed.

Lemma get_wrong_exercises_answers (self : ProgressTracker) :
  Forall (fun item => WrongEntry.answers (snd item) <> []) (registry (data self)) ->
  Forall (fun ex => WrongEntry.answers (WrongExercise.entry ex) <> [])
    (fst (get_wrong_exercises self)).
Proof.
  intros H. rewrite get_wrong_exercises_eq.
  eapply Permutation_Forall; [symmetry; apply sort_reverse_perm|].
  unfold registry_items. apply List.Forall_forall. intros ex Hex.
  apply in_map_iff in Hex. destruct Hex as ([k e] & <- & Hin).
  rewrite List.Forall_forall in H. exact (H _ Hin).
Qed.

End NotebookFacts.

(** X22: With entries in the registry, all of them with an accepted answer, the
    choice [c] of the notebook asks for a confirmation.  On [y] the registry
    is emptied and the progress file written, every other field of the data
    as it was; on any other line nothing is emptied and nothing written, and
    the notebook returns. *)
Theorem notebook_clear (lower : pystr -> pystr) (now : nat -> pystr)
    (COMMANDS_DB : PyDict.t Category.t) (choice confirm : pystr)
    (inputs : list pystr) (nb : Notebook)
    (Hentries : registry (data (nb_progress nb)) <> [])
    (Hanswers : Forall (fun item => WrongEntry.answers (snd item) <> [])
                  (registry (data (nb_progress nb))))
    (Hchoice : lower (PyStr.strip choice) = py "c") :
  let out := show_wrong_notebook lower now COMMANDS_DB (choice :: confirm :: inputs)
               nb in
  let p := nb_progress nb in
  let p' := nb_progress (snd out) in
  if str_eqb (lower (PyStr.strip confirm)) (py "y")
  then wrong_answers (data p') = Some []
       /\ progress_file p' = Stored (data p')
       /\ with_wrong_answers (data p') None = with_wrong_answers (data p) None
       /\ In NbCleared (nb_stdout (snd out))
  else registry (data p') = registry (data p)
       /\ progress_file p' = progress_file p
       /\ with_wrong_answers (data p') None = with_wrong_answers (data p) None
       /\ fst out = (Returned, inputs).
Proof.
  cbv zeta. unfold show_wrong_notebook.
  pose proof (get_wrong_exercises_answers (nb_progress nb) Hanswers) as Hok.
  assert (Hlen : length (fst (get_wrong_exercises (nb_progress nb)))
                 = length (registry (data (nb_progress nb)))).
  { rewrite get_wrong_exercises_eq.
    rewrite (Permutation_length (sort_reverse_perm _ _)).
    unfold registry_items. apply length_map. }
  assert (Hp0 : snd (get_wrong_exercises (nb_progress nb))
                = _ensure_wrong_answers (nb_progress nb)) by reflexivity.
  destruct (get_wrong_exercises (nb_progress nb)) as [wrong p0].
  cbn [fst snd] in Hok, Hlen, Hp0. subst p0.
  destruct wrong as [|ex rest].
  { destruct (registry (data (nb_progress nb))); [congruence | discriminate]. }
  pose proof (list_entries_ok COMMANDS_DB 1 (ex :: rest) Hok) as Hlist.
  destruct (list_entries COMMANDS_DB 1 (ex :: rest)) as [lines raised].
  cbn [snd] in Hlist. subst raised. cbv iota.
  rewrite Hchoice.
  change (str_eqb (py "c") (py "p")) with false.
  change (str_eqb (py "c") (py "c")) with true.
  cbv iota.
  pose proof (registry_ensure (nb_progress nb)) as Hr.
  pose proof (file_ensure (nb_progress nb)) as Hf.
  pose proof (others_ensure (nb_progress nb)) as Ho.
  destruct (str_eqb (lower (PyStr.strip confirm)) (py "y")).
  - assert (Hs : forall i n,
               nb_stdout (snd (nb_press_enter i n)) = nb_stdout n
               /\ nb_progress (snd (nb_press_enter i n)) = nb_progress n).
    { intros i n. unfold nb_press_enter. now destruct i. }
    match goal with
    | |- context [nb_press_enter inputs ?n] => destruct (Hs inputs n) as [Hs1 Hs2]
    end.
    rewrite Hs1, Hs2. cbn [nb_print nb_progress nb_stdout save data progress_file
                             with_data with_wrong_answers wrong_answers].
    split; [reflexivity|]. split; [reflexivity|]. split.
    + change (with_wrong_answers
                (data (_ensure_wrong_answers (_ensure_wrong_answers (nb_progress nb))))
                None
              = with_wrong_answers (data (nb_progress nb)) None).
      now rewrite !others_ensure.
    + rewrite !in_app_iff. right. simpl. auto.
  - cbn [fst snd nb_print nb_progress].
    split; [exact Hr|]. split; [exact Hf|]. split; [exact Ho | reflexivity].
Qed.

Lemma notebook_clear_witness :
  let e := WrongEntry.mk (py "c") (py "ls") (py "q") [py "ls -a"] 1 (py "t") (py "x") in
  let d := with_wrong_answers default_data (Some [(py "c::ls::q", e)]) in
  let nb := {| nb_progress := {| data := d; progress_file := Missing |};
               nb_ticks := 0; nb_stdout := [] |} in
  let out := show_wrong_notebook ascii_lower (fun _ => py "t") []
               [py " C "; py "y"; py ""] nb in
  wrong_answers (data (nb_progress (snd out))) = Some []
  /\ progress_file (nb_progress (snd out)) = Stored (data (nb_progress (snd out)))
  /\ with_wrong_answers (data (nb_progress (snd out))) None
     = with_wrong_answers
         (with_wrong_answers default_data
            (Some [(py "c::ls::q",
                    WrongEntry.mk (py "c") (py "ls") (py "q") [py "ls -a"] 1 (py "t")
                      (py "x"))])) None
  /\ In NbCleared (nb_stdout (snd out)).
Proof.
  cbv zeta.
  exact (notebook_clear ascii_lower (fun _ => py "t") [] (py " C ") (py "y") [py ""]
           {| nb_progress :=
                {| data := with_wrong_answers default_data
                             (Some [(py "c::ls::q",
                                     WrongEntry.mk (py "c") (py "ls") (py "q")
                                       [py "ls -a"] 1 (py "t") (py "x"))]);
                   progress_file := Missing |};
              nb_ticks := 0; nb_stdout := [] |}
           ltac:(discriminate)
           ltac:(repeat constructor; discriminate)
           eq_refl).
Defined.

(** ** Outcomes of a replayed exercise *)


(** ** Invariants of a loaded tracker *)

(** X10: A tracker whose data satisfy the invariants of the data model, loaded
    from a file or not, satisfies them after any run of operations. *)
Theorem invariants_preserved (self : ProgressTracker) (ops : list Op)
    (Hstreak : 0 <= streak (data self) <= best_streak (data self))
    (Hcorrect : 0 <= correct_answers (data self) <= total_exercises (data self))
    (Hkeys : NoDup (PyDict.keys (registry (data self)))) :
  let d := data (run_ops self ops) in
  0 <= streak d <= best_streak d
  /\ 0 <= correct_answers d <= total_exercises d
  /\ NoDup (PyDict.keys (registry d)).
Proof.
  cbv zeta.
  apply (run_ops_invariant (fun s => store_inv (data s))).
  - apply apply_op_store_inv.
  - split; [exact Hstreak | split; [exact Hcorrect | exact Hkeys]].
Qed.

Lemma invariants_preserved_witness :
  let d :=
    {| total_exercises := 12; correct_answers := 7; streak := 2; best_streak := 5;
       categories_completed := ∅; commands_practiced := ∅; last_practice := None;
       achievements := [Ach.beginner]; wrong_answers := None |} in
  let self := ProgressTracker_init (Stored d) in
  let ops := [OpRecordAttempt (py "c") (py "ls") true (py "t1");
              OpRecordWrongAnswer (py "c") (py "ls") (py "q") [py "ls"] (py "x")
                (py "t2");
              OpRecordAttempt (py "c") (py "ls") false (py "t3")] in
  let d' := data (run_ops self ops) in
  0 <= streak d' <= best_streak d'
  /\ 0 <= correct_answers d' <= total_exercises d'
  /\ NoDup (PyDict.keys (registry d')).
Proof.
  cbv zeta.
  apply (invariants_preserved
           (ProgressTracker_init
              (Stored
                 {| total_exercises := 12; correct_answers := 7; streak := 2;
                    best_streak := 5; categories_completed := ∅;
                    commands_practiced := ∅; last_practice := None;
                    achievements := [Ach.beginner]; wrong_answers := None |})));
    simpl; try lia. apply NoDup_nil_2.
Defined.

(** ** Practice never empties the notebook *)

Lemma keys_set_super {V : Type} (d : PyDict.t V) (k : pystr) (v : V) (x : pystr) :
  In x (PyDict.keys d) -> In x (PyDict.keys (PyDict.set d k v)).
Proof.
  induction d as [|[k' v'] d IH]; simpl; [tauto|].
  destruct (str_eqb k' k); simpl; tauto.
Qed.

Section KeepFacts.
Variable lower : pystr -> pystr.
Variable now : nat -> pystr.

Lemma ask_keeps_keys (category_key : pystr) (ex : Exercise.t) (inputs : list pystr)
    (s : Session) :
  keeps_keys (progress (world s))
    (progress (world (snd (ask lower now category_key ex inputs s)))).
Proof.
  pose proof (ask_outcome lower now category_key ex inputs s) as H.
  destruct (ask lower now category_key ex inputs s) as [[l rest] s1].
  cbn [fst snd] in *. unfold keeps_keys.
  inversion H as [s' Hp Ht Hn Hc | s' ua Hne Hp Ht Hn Hc | s' Hp Ht Hn Hc
                 | s' Hp Ht Hn Hc | s' He Hp Ht Hn Hc]; subst; rewrite Hp.
  - now rewrite registry_record_attempt.
  - destruct (registry_failure_bookkeeping now (ticks (world s)) category_key
                (Exercise.command ex) (Exercise.question ex) (Exercise.answers ex)
                ua (progress (world s))) as [e He].
    rewrite He. intros k Hk. now apply keys_set_super.
  - auto.
  - auto.
  - auto.
Qed.

Lemma category_loop_keeps_keys (category_key : pystr) (exercises : list Exercise.t)
    (question_num len : nat) (inputs : list pystr) (s : Session) :
  keeps_keys (progress (world s))
    (progress
       (world (snd (category_loop lower now category_key exercises question_num len
                      inputs s)))).
Proof.
  revert question_num inputs s.
  induction exercises as [|ex rest IH]; intros question_num inputs s.
  - intros k Hk. exact Hk.
  - cbn [category_loop].
    match goal with
    | |- context [ask lower now category_key ex inputs ?s0] =>
        pose proof (ask_keeps_keys category_key ex inputs s0) as Hstep;
        destruct (ask lower now category_key ex inputs s0) as [[l inputs1] s1]
    end.
    cbn [fst snd on_world world print progress] in Hstep.
    destruct l; cbn [fst snd]; try exact Hstep.
    match goal with
    | |- context [category_loop _ _ _ rest ?n _ inputs1 ?s2] =>
        specialize (IH n inputs1 s2)
    end.
    cbn [on_world world print progress] in IH.
    intros k Hk. apply IH, Hstep, Hk.
Qed.

Lemma random_loop_keeps_keys (exercises : list RandomExercise.t)
    (question_num len : nat) (inputs : list pystr) (s : Session) :
  keeps_keys (progress (world s))
    (progress
       (world (snd (random_loop lower now exercises question_num len inputs s)))).
Proof.
  revert question_num inputs s.
  induction exercises as [|rex rest IH]; intros question_num inputs s.
  - intros k Hk. exact Hk.
  - cbn [random_loop].
    match goal with
    | |- context [ask lower now ?key ?ex inputs ?s0] =>
        pose proof (ask_keeps_keys key ex inputs s0) as Hstep;
        destruct (ask lower now key ex inputs s0) as [[l inputs1] s1]
    end.
    cbn [fst snd on_world world print progress] in Hstep.
    destruct l; cbn [fst snd]; try exact Hstep.
    match goal with
    | |- context [random_loop _ _ rest ?n _ inputs1 ?s2] =>
        specialize (IH n inputs1 s2)
    end.
    cbn [on_world world print progress] in IH.
    intros k Hk. apply IH, Hstep, Hk.
Qed.

End KeepFacts.

(** X23: The practice of a category and the random practice never take an
    entry out of the registry: every key it has before the loop it has after
    it, whatever is typed; only the replay and the notebook remove
    entries. *)
Theorem practice_keeps_entries (lower : pystr -> pystr) (now : nat -> pystr) :
  (forall category_key exercises question_num len inputs s k,
     In k (PyDict.keys (registry (data (progress (world s))))) ->
     In k (PyDict.keys
             (registry
                (data (progress
                         (world (snd (category_loop lower now category_key exercises
                                        question_num len inputs s))))))))
  /\ (forall exercises question_num len inputs s k,
        In k (PyDict.keys (registry (data (progress (world s))))) ->
        In k (PyDict.keys
                (registry
                   (data (progress
                            (world (snd (random_loop lower now exercises question_num
                                           len inputs s)))))))).
Proof.
  split.
  - intros category_key exercises question_num len inputs s.
    apply category_loop_keeps_keys.
  - intros exercises question_num len inputs s. apply random_loop_keeps_keys.
Qed.
